(** * OpenPGP key-material packets and packet-list codec

    A shallow embedding of the key packets ([packet/public_key.js],
    [packet/secret_key.js]), the one-pass signature packet
    ([packet/one_pass_signature.js]), the packet list
    ([packet/packetlist.js]) and the ECDSA binding
    ([crypto/public_key/elliptic/ecdsa.js]), together with the properties
    the specification states about them.

    Conventions.  A [Uint8Array] is a [list byte]; a JavaScript value of a
    dynamically typed field is a [jsval]; a function that can [throw]
    returns a [result]; an object with mutable fields is a record that is
    passed in and handed back. *)

From Stdlib Require Import ZArith Lia.
From Stdlib Require Import Strings.Byte Strings.Ascii.
From stdpp Require Import base option list strings pretty gmap.
From stdpp Require Import sorting.

Local Open Scope Z_scope.

(** ** Bytes and typed arrays *)

Abbreviation bytes := (list byte).

Definition byte_val (b : byte) : Z := Z.of_N (Byte.to_N b).

(** Storing a number into a [Uint8Array] keeps its low eight bits. *)
Definition u8 (z : Z) : byte :=
  match Byte.of_N (Z.to_N (z mod 256)) with
  | Some b => b
  | None => x00
  end.

#[global] Instance byte_eq_decision : EqDecision byte := Byte.byte_eq_dec.

(** [a.subarray(i)] and [a.subarray(i, j)] for non-negative indices: both
    ends are clamped to the length of the array. *)
Definition subarray_from (i : nat) (a : bytes) : bytes := drop i a.
Definition subarray (i j : nat) (a : bytes) : bytes := take (j - i) (drop i a).

(** [a.subarray(0, -n)] and [a.subarray(-n)]: a negative index counts from
    the end of the array. *)
Definition subarray_drop_last (n : nat) (a : bytes) : bytes :=
  take (length a - n) a.
Definition subarray_last (n : nat) (a : bytes) : bytes :=
  drop (length a - n) a.

(** ** JavaScript values held by packet fields *)

Inductive jsval : Type :=
| JUndefined
| JNull
| JNum (n : Z)
| JStr (s : string).

#[global] Instance jsval_eq_decision : EqDecision jsval.
Proof. solve_decision. Defined.

(** [a[i]] on a typed array: the element, or [undefined] out of range. *)
Definition index (a : bytes) (i : nat) : jsval :=
  match a !! i with
  | Some b => JNum (byte_val b)
  | None => JUndefined
  end.

(** [new Uint8Array([v])] element conversion: [ToNumber] followed by the
    wrap to eight bits; [null] and [undefined] give 0.  The fields stored
    this way (version, usage octet, flags) hold no string; one is given 0
    as a text that is no number is. *)
Definition to_u8 (v : jsval) : byte :=
  match v with
  | JNum n => u8 n
  | _ => x00
  end.

(** ** Exceptions *)

(** A thrown [Error]: its [name] and its [message]. *)
Record error : Type := mkError { err_name : string; err_message : string }.

Definition Error (msg : string) : error := mkError "Error" msg.

#[global] Instance error_eq_decision : EqDecision error.
Proof. solve_decision. Defined.

Inductive result (A : Type) : Type :=
| Ok (a : A)
| Throw (e : error).
Arguments Ok {A} a.
Arguments Throw {A} e.

#[global] Instance result_ret : MRet result := λ A a, Ok a.
#[global] Instance result_bind : MBind result := λ A B k r,
  match r with
  | Ok a => k a
  | Throw e => Throw e
  end.

(** ** Helpers of [util.js] *)

(** Modelled from the spec: [util.writeNumber(n, k)] is not under src/; the
    spec writes it [uint16be(len)] and [uint32be(len)], the [k] low-order
    octets of [n], most significant first. *)
Definition writeNumber (n : Z) (k : nat) : bytes :=
  (λ i : nat, u8 (Z.shiftr n (8 * (Z.of_nat k - Z.of_nat i - 1)))) <$> seq 0 k.

(** Modelled from the spec: [util.writeDate] is not under src/; the spec has
    the creation time as a four-octet big-endian count of seconds.  A date
    is held as its millisecond time stamp. *)
Definition writeDate (time : Z) : bytes := writeNumber (time / 1000) 4.

(** Modelled from the spec: [util.concatUint8Array] is not under src/; it
    joins the arrays of a list into one, and throws when an element of
    the list is no array. *)
Definition concatUint8Array (arrs : list bytes) : bytes := concat arrs.

Definition concat_not_an_array : error :=
  Error "concatUint8Array: Data must be in the form of a Uint8Array".

(** Modelled from the spec: [util.equalsUint8Array] is not under src/; the
    byte-wise comparison of two arrays. *)
Definition equalsUint8Array (a b : bytes) : bool := bool_decide (a = b).

(** Modelled from the spec: [util.uint8ArrayToHex] and
    [util.hexToUint8Array] are not under src/; the fingerprint string is
    documented as lowercase hex, two digits per octet. *)
Definition hex_digit (d : Z) : ascii :=
  ascii_of_nat (Z.to_nat (if d <? 10 then 48 + d else 87 + d)).

Definition hex_value (c : ascii) : Z :=
  let n := Z.of_nat (nat_of_ascii c) in
  if (48 <=? n) && (n <=? 57) then n - 48
  else if (97 <=? n) && (n <=? 102) then n - 87
  else if (65 <=? n) && (n <=? 70) then n - 55
  else 0.

Fixpoint uint8ArrayToHex (a : bytes) : string :=
  match a with
  | [] => EmptyString
  | b :: a' =>
      String (hex_digit (byte_val b / 16))
        (String (hex_digit (byte_val b mod 16)) (uint8ArrayToHex a'))
  end.

Fixpoint hexToUint8Array (hex : string) : bytes :=
  match hex with
  | String hi (String lo rest) =>
      u8 (16 * hex_value hi + hex_value lo) :: hexToUint8Array rest
  | _ => []
  end.

(** ** Enumerations ([enums.js]) *)

(** An enumeration is an object from symbolic names to numeric codes. *)
Abbreviation enum := (gmap string Z).

Definition invalid_enum : error := Error "Invalid enum value.".

(** The reverse table [type[byValue]], built entry by entry.  When two
    names share a code, the name kept is the one the order of the entries
    decides; nothing below depends on which it is. *)
Definition byValue (type : enum) : gmap Z string :=
  foldr (λ kv acc, <[kv.2 := kv.1]> acc) ∅ (map_to_list type).

(** [enums.read(type, e)]: the name of a numeric code. *)
Definition enums_read (type : enum) (e : Z) : result string :=
  match byValue type !! e with
  | Some name => Ok name
  | None => Throw invalid_enum
  end.

(** The property key a value is converted to in [type[e]]. *)
Definition property_key (e : jsval) : option string :=
  match e with
  | JStr s => Some s
  | JUndefined => Some "undefined"
  | JNull => Some "null"
  | JNum _ => None
  end.

(** [enums.write(type, e)]: the numeric code of a name; a number is first
    translated to its name. *)
Definition enums_write (type : enum) (e : jsval) : result Z :=
  name ← match e with
         | JNum n => enums_read type n
         | _ => match property_key e with
                | Some s => Ok s
                | None => Throw invalid_enum
                end
         end ;
  match type !! name with
  | Some code => Ok code
  | None => Throw invalid_enum
  end.

(** A field denotes the code [code] of an enumeration when it holds the
    code itself, which has a name, or one of its names. *)
Definition denotes (type : enum) (field : jsval) (code : Z) : bool :=
  match field with
  | JNum n =>
      bool_decide (n = code) && bool_decide (is_Some (byValue type !! code))
  | JStr name => bool_decide (type !! name = Some code)
  | _ => false
  end.

(** ** Key identifiers ([type/keyid.js]) *)

Module KeyID.

(** Modelled from the spec: [type/keyid.js] is not under src/; a key
    identifier keeps the first eight octets it is given and writes them
    back.  A fresh identifier is empty. *)
Record t : Type := mk { bytes_of : bytes }.

Definition new : t := mk [].
Definition read (b : bytes) : t := mk (subarray 0 8 b).
Definition write (k : t) : bytes := bytes_of k.

#[global] Instance eq_decision : EqDecision t.
Proof. solve_decision. Defined.

End KeyID.

(** ** One-Pass Signature packet (tag 4) *)

Module OnePassSignature.

Record packet : Type := mkPacket {
  version : jsval;
  signatureType : jsval;
  hashAlgorithm : jsval;
  publicKeyAlgorithm : jsval;
  issuerKeyID : option KeyID.t;
  flags : jsval
}.

(** The packet as the constructor leaves it: every field [null]. *)
Definition new : packet := mkPacket JNull JNull JNull JNull None JNull.

(** [read(bytes)]: the six fields are taken in order from the body.  No
    statement of the method throws; it returns [this]. *)
Definition read (b : bytes) (this : packet) : result packet :=
  let mypos := 0%nat in
  let version := index b mypos in
  let mypos := S mypos in
  let signatureType := index b mypos in
  let mypos := S mypos in
  let hashAlgorithm := index b mypos in
  let mypos := S mypos in
  let publicKeyAlgorithm := index b mypos in
  let mypos := S mypos in
  let issuerKeyID := KeyID.read (subarray mypos (mypos + 8) b) in
  let mypos := (mypos + 8)%nat in
  let flags := index b mypos in
  Ok (mkPacket version signatureType hashAlgorithm publicKeyAlgorithm
               (Some issuerKeyID) flags).

Section WithEnums.

Variables enums_signature enums_hash enums_publicKey : enum.

(** [write()]: the literal 3, the three codes, the key identifier and the
    flags. *)
Definition write (this : packet) : result bytes :=
  st ← enums_write enums_signature (signatureType this) ;
  ha ← enums_write enums_hash (hashAlgorithm this) ;
  pka ← enums_write enums_publicKey (publicKeyAlgorithm this) ;
  let start := [u8 3; u8 st; u8 ha; u8 pka] in
  let end_ := [to_u8 (flags this)] in
  match issuerKeyID this with
  | Some kid => Ok (concatUint8Array [start; KeyID.write kid; end_])
  | None => Throw (mkError "TypeError" "Cannot read properties of null")
  end.

End WithEnums.

End OnePassSignature.

(** ** Public-Key packet (tags 6 and 14) *)

(** Modelled from the spec: [util.readNumber] and [util.readDate] are not
    under src/; the creation time is read as a big-endian count of seconds
    and kept as a date (a millisecond time stamp). *)
Definition readNumber (b : bytes) : Z :=
  foldl (λ acc x, 256 * acc + byte_val x) 0 b.

Definition readDate (b : bytes) : Z := readNumber b * 1000.

(** The text a value contributes to a string concatenation. *)
Definition js_to_string (v : jsval) : string :=
  match v with
  | JUndefined => "undefined"
  | JNull => "null"
  | JNum n => pretty n
  | JStr s => s
  end.

Module PublicKey.

Section WithCrypto.

(** The algorithm-specific public parameters, their codec
    ([crypto.parsePublicKeyParams], [crypto.serializeParams]), the table
    [enums.publicKey] and the two digests of asmcrypto.js are collaborators
    of the packet. *)
Variable Params : Type.
Variable enums_publicKey : enum.
Variable parsePublicKeyParams : Z → bytes → result (nat * Params).
Variable serializeParams : Z → option Params → result bytes.
Variable Sha1 : bytes → bytes.
Variable Sha256 : bytes → bytes.

Record packet : Type := mkPacket {
  version : jsval;
  created : Z;
  algorithm : jsval;
  publicParams : option Params;
  expirationTimeV3 : Z;
  fingerprint : option bytes;
  keyID : option KeyID.t
}.

(** [new PublicKeyPacket(date, config)], with the date already normalised. *)
Definition new (date : Z) (v5Keys : bool) : packet :=
  mkPacket (JNum (if v5Keys then 5 else 4)) date JNull None 0 None None.

(** Assignments to single fields. *)
Definition set_version (v : jsval) (p : packet) : packet :=
  mkPacket v (created p) (algorithm p) (publicParams p)
           (expirationTimeV3 p) (fingerprint p) (keyID p).
Definition set_created (d : Z) (p : packet) : packet :=
  mkPacket (version p) d (algorithm p) (publicParams p)
           (expirationTimeV3 p) (fingerprint p) (keyID p).
Definition set_algorithm (a : jsval) (p : packet) : packet :=
  mkPacket (version p) (created p) a (publicParams p)
           (expirationTimeV3 p) (fingerprint p) (keyID p).
Definition set_publicParams (pp : option Params) (p : packet) : packet :=
  mkPacket (version p) (created p) (algorithm p) pp
           (expirationTimeV3 p) (fingerprint p) (keyID p).
Definition set_fingerprint (fp : option bytes) (p : packet) : packet :=
  mkPacket (version p) (created p) (algorithm p) (publicParams p)
           (expirationTimeV3 p) fp (keyID p).
Definition set_keyID (k : option KeyID.t) (p : packet) : packet :=
  mkPacket (version p) (created p) (algorithm p) (publicParams p)
           (expirationTimeV3 p) (fingerprint p) k.

(** [read(bytes)]: returns the packet as the call leaves it, and the
    number of octets consumed or the exception. *)
Definition read (b : bytes) (this : packet) : packet * result nat :=
  let pos := 0%nat in
  let this := set_version (index b pos) this in
  let pos := S pos in
  if bool_decide (version this = JNum 4 ∨ version this = JNum 5) then
    let this := set_created (readDate (subarray pos (pos + 4) b)) this in
    let pos := (pos + 4)%nat in
    match index b pos with
    | JNum code =>
        match enums_read enums_publicKey code with
        | Ok name =>
            let this := set_algorithm (JStr name) this in
            let pos := S pos in
            match enums_write enums_publicKey (algorithm this) with
            | Ok algo =>
                let pos :=
                  if bool_decide (version this = JNum 5)
                  then (pos + 4)%nat else pos in
                match parsePublicKeyParams algo (subarray_from pos b) with
                | Ok (n, pp) =>
                    (set_publicParams (Some pp) this, Ok (pos + n)%nat)
                | Throw _ => (this, Throw (Error "Error reading MPIs"))
                end
            | Throw e => (this, Throw e)
            end
        | Throw e => (this, Throw e)
        end
    | _ => (this, Throw invalid_enum)
    end
  else
    (this, Throw (Error ("Version " +:+ js_to_string (version this)
                           +:+ " of the key packet is unsupported."))).

(** [write()]. *)
Definition write (this : packet) : result bytes :=
  let arr := [[to_u8 (version this)]; writeDate (created this)] in
  algo ← enums_write enums_publicKey (algorithm this) ;
  let arr := arr ++ [[u8 algo]] in
  params ← serializeParams algo (publicParams this) ;
  let arr :=
    if bool_decide (version this = JNum 5)
    then arr ++ [writeNumber (Z.of_nat (length params)) 4] else arr in
  let arr := arr ++ [params] in
  Ok (concatUint8Array arr).

(** [writePublicKey] is [write] under another name. *)
Definition writePublicKey : packet → result bytes := write.

(** [writeForHash(version)]. *)
Definition writeForHash (version : jsval) (this : packet) : result bytes :=
  b ← writePublicKey this ;
  if bool_decide (version = JNum 5) then
    Ok (concatUint8Array
          [[u8 0x9A]; writeNumber (Z.of_nat (length b)) 4; b])
  else
    Ok (concatUint8Array
          [[u8 0x99]; writeNumber (Z.of_nat (length b)) 2; b]).

(** [getFingerprintBytes()]: the value returned is the [fingerprint] field
    as the call leaves it, which stays [null] for a version other than 4
    and 5. *)
Definition getFingerprintBytes (this : packet)
  : packet * result (option bytes) :=
  match fingerprint this with
  | Some fp => (this, Ok (Some fp))
  | None =>
      match writeForHash (version this) this with
      | Throw e => (this, Throw e)
      | Ok toHash =>
          let this :=
            if bool_decide (version this = JNum 5)
            then set_fingerprint (Some (Sha256 toHash)) this
            else if bool_decide (version this = JNum 4)
            then set_fingerprint (Some (Sha1 toHash)) this
            else this in
          (this, Ok (fingerprint this))
      end
  end.

(** [getFingerprint()]: the hex form; a [null] fingerprint has no length
    to iterate over. *)
Definition getFingerprint (this : packet) : packet * result string :=
  match getFingerprintBytes this with
  | (this, Ok (Some fp)) => (this, Ok (uint8ArrayToHex fp))
  | (this, Ok None) =>
      (this, Throw (mkError "TypeError" "Cannot read properties of null"))
  | (this, Throw e) => (this, Throw e)
  end.

(** [getKeyID()]: the fresh identifier is stored in the field before the
    fingerprint is asked for. *)
Definition getKeyID (this : packet) : packet * result KeyID.t :=
  match keyID this with
  | Some k => (this, Ok k)
  | None =>
      let this := set_keyID (Some KeyID.new) this in
      if bool_decide (version this = JNum 5) then
        match getFingerprint this with
        | (this, Ok hex) =>
            let k := KeyID.read (subarray 0 8 (hexToUint8Array hex)) in
            (set_keyID (Some k) this, Ok k)
        | (this, Throw e) => (this, Throw e)
        end
      else if bool_decide (version this = JNum 4) then
        match getFingerprint this with
        | (this, Ok hex) =>
            let k := KeyID.read (subarray 12 20 (hexToUint8Array hex)) in
            (set_keyID (Some k) this, Ok k)
        | (this, Throw e) => (this, Throw e)
        end
      else (this, Ok KeyID.new)
  end.

(** [hasSameFingerprintAs(other)]. *)
Definition hasSameFingerprintAs (this other : packet) : result bool :=
  if bool_decide (version this = version other) then
    a ← writePublicKey this ;
    b ← writePublicKey other ;
    Ok (equalsUint8Array a b)
  else Ok false.

(** A write to one of the four hashed fields from outside the class. *)
Inductive mutation : Type :=
| SetVersion (v : jsval)
| SetCreated (d : Z)
| SetAlgorithm (a : jsval)
| SetPublicParams (pp : option Params).

Definition mutate (m : mutation) (p : packet) : packet :=
  match m with
  | SetVersion v => set_version v p
  | SetCreated d => set_created d p
  | SetAlgorithm a => set_algorithm a p
  | SetPublicParams pp => set_publicParams pp p
  end.

End WithCrypto.

Arguments mkPacket {Params}.
Arguments version {Params}.
Arguments created {Params}.
Arguments algorithm {Params}.
Arguments publicParams {Params}.
Arguments expirationTimeV3 {Params}.
Arguments fingerprint {Params}.
Arguments keyID {Params}.
Arguments set_version {Params}.
Arguments set_created {Params}.
Arguments set_algorithm {Params}.
Arguments set_publicParams {Params}.
Arguments set_fingerprint {Params}.
Arguments set_keyID {Params}.
Arguments mutate {Params}.
Arguments SetVersion {Params}.
Arguments SetCreated {Params}.
Arguments SetAlgorithm {Params}.
Arguments SetPublicParams {Params}.

End PublicKey.

(** ** The store of private-parameter arrays *)

(** The private parameters are typed arrays held by an object
    ([privateParams]), and both can be referenced from outside the packet.
    The store keeps each array and each parameter object under a location;
    a reference is a location. *)
Abbreviation loc := nat.

Record heap : Type := mkHeap {
  arrays : gmap loc bytes;
  objects : gmap loc (gmap string loc)
}.

Definition empty_heap : heap := mkHeap ∅ ∅.

(** The contents of a parameter object: every name with the bytes of its
    array. *)
Definition deref (h : heap) (o : loc) : option (gmap string bytes) :=
  match objects h !! o with
  | Some obj => Some (omap (λ l : loc, arrays h !! l) obj)
  | None => None
  end.

(** A new array holding [content]. *)
Definition alloc_array (content : bytes) (h : heap) : heap * loc :=
  let l := fresh (dom (arrays h)) in
  (mkHeap (<[l := content]> (arrays h)) (objects h), l).

(** A new parameter object with a new array for every entry. *)
Definition alloc_params (pp : gmap string bytes) (h : heap) : heap * loc :=
  let '(h, obj) :=
    foldr (λ kv '(h, obj),
             let '(h, l) := alloc_array kv.2 h in (h, <[kv.1 := l]> obj))
          (h, ∅) (map_to_list pp) in
  let o := fresh (dom (objects h)) in
  (mkHeap (arrays h) (<[o := obj]> (objects h)), o).

(** The array is as long as it was and holds zeros only. *)
Definition zeroed (a : bytes) : bytes := replicate (length a) x00.

(** [param.fill(0)] on the array at [l]. *)
Definition fill_zero (l : loc) (h : heap) : heap :=
  mkHeap (alter zeroed l (arrays h)) (objects h).


(** [delete obj[name]] on the object at [o]. *)
Definition delete_property (o : loc) (name : string) (h : heap) : heap :=
  mkHeap (arrays h) (alter (delete name) o (objects h)).

(** ** String-to-key specifiers ([type/s2k.js]) *)

Module S2K.

(** Modelled from the spec: [type/s2k.js] is not under src/; a specifier
    has a type ([simple], [salted], [iterated] or [gnu-dummy]), a hash
    algorithm, the coded iteration count of the configuration and a salt. *)
Record t : Type := mk {
  type : string;
  algorithm : jsval;
  c : Z;
  salt : option bytes
}.

Definition new (s2kIterationCountByte : Z) : t :=
  mk "iterated" (JStr "sha256") s2kIterationCountByte None.

#[global] Instance eq_decision : EqDecision t.
Proof. solve_decision. Defined.

End S2K.

Definition TypeError (msg : string) : error := mkError "TypeError" msg.

(** The error the specification calls [IncorrectPassphrase]: the message
    starts with "Incorrect key passphrase". *)
Definition incorrect_passphrase (e : error) : bool :=
  String.prefix "Incorrect key passphrase" (err_message e).

(** Truthiness of a value in a condition. *)
Definition truthy (v : jsval) : bool :=
  match v with
  | JUndefined | JNull => false
  | JNum n => negb (n =? 0)
  | JStr s => negb (bool_decide (s = ""))
  end.

(** Modelled from the spec: [util.writeChecksum] is not under src/; the
    two-octet sum of the octets modulo 65536. *)
Definition writeChecksum (b : bytes) : bytes :=
  writeNumber (foldl (λ s x, (s + byte_val x) mod 65536) 0 b) 2.

(** ** Secret-Key packet (tags 5 and 7) *)

Module SecretKey.

(** An entry of [crypto.cipher]. *)
Record cipher_info : Type := mkCipher { blockSize : nat; keySize : nat }.

(** An AEAD mode instance ([await mode(symmetric, key)]) and an entry of
    [crypto.mode]. *)
Record aead_instance : Type := mkInstance {
  aead_encrypt : bytes → bytes → bytes → result bytes;
  aead_decrypt : option bytes → bytes → bytes → result bytes
}.

Record aead_mode : Type := mkMode {
  ivLength : nat;
  instantiate : jsval → bytes → result aead_instance
}.

Section WithCrypto.

Variable Params : Type.
Variables enums_publicKey enums_symmetric enums_aead : enum.
Variable serializeParams : Z → option Params → result bytes.
Variable serializePrivateParams : Z → gmap string bytes → result bytes.
Variable parsePrivateKeyParams :
  Z → bytes → option Params → result (gmap string bytes).
Variable cipher : string → option cipher_info.
Variable crypto_mode : string → option aead_mode.
Variable cfb_decrypt : jsval → bytes → option bytes → option bytes → result bytes.
Variable hash_sha1 : bytes → bytes.
Variable produceKey : S2K.t → string → nat → result bytes.
Variable s2k_write : S2K.t → bytes.

(** The fields of the parent class and the fields the subclass adds. *)
Record packet : Type := mkPacket {
  pub : PublicKey.packet Params;
  keyMaterial : option bytes;
  isEncrypted : option bool;
  s2kUsage : jsval;
  s2k : option S2K.t;
  symmetric : jsval;
  aead : jsval;
  privateParams : option loc;
  iv : option bytes
}.

Definition new (date : Z) (v5Keys : bool) : packet :=
  mkPacket (PublicKey.new Params date v5Keys)
           None None (JNum 0) None JNull JNull None None.

(** [isDecrypted()] and [isDummy()]. *)
Definition isDecrypted (this : packet) : bool :=
  bool_decide (isEncrypted this = Some false).

Definition isDummy (this : packet) : bool :=
  match s2k this with
  | Some s => bool_decide (S2K.type s = "gnu-dummy")
  | None => false
  end.

(** A table indexed by a field holding a name. *)
Definition at_name {A} (table : string → option A) (v : jsval) : option A :=
  match v with
  | JStr s => table s
  | _ => None
  end.

(** [produceEncryptionKey(s2k, passphrase, algorithm)]. *)
Definition produceEncryptionKey (s2k : option S2K.t) (passphrase : string)
    (algorithm : jsval) : result bytes :=
  match s2k with
  | None => Throw (TypeError "Cannot read properties of null")
  | Some s =>
      match at_name cipher algorithm with
      | None => Throw (TypeError "Cannot read properties of undefined")
      | Some ci => produceKey s passphrase (keySize ci)
      end
  end.

(** [write()]: for an unprotected key the private parameters are serialised
    into [keyMaterial] on the way. *)
Definition write (h : heap) (this : packet) : packet * result bytes :=
  match PublicKey.writePublicKey Params enums_publicKey serializeParams
          (pub this) with
  | Throw e => (this, Throw e)
  | Ok pk =>
  let arr := [pk; [to_u8 (s2kUsage this)]] in
  let usage := s2kUsage this in
  let optional : result bytes :=
    (if bool_decide (usage = JNum 255 ∨ usage = JNum 254 ∨ usage = JNum 253)
     then
       sym ← enums_write enums_symmetric (symmetric this) ;
       ae ← (if bool_decide (usage = JNum 253)
             then code ← enums_write enums_aead (aead this) ; Ok [u8 code]
             else Ok []) ;
       match s2k this with
       | Some s => Ok ([u8 sym] ++ ae ++ s2k_write s)
       | None => Throw (TypeError "Cannot read properties of null")
       end
     else Ok []) in
  let optional : result bytes :=
    fields ← optional ;
    if truthy usage then
      match s2k this with
      | None => Throw (TypeError "Cannot read properties of null")
      | Some s =>
          if bool_decide (S2K.type s ≠ "gnu-dummy") then
            match iv this with
            | Some v => Ok (fields ++ v)
            | None => Throw (TypeError "undefined is not iterable")
            end
          else Ok fields
      end
    else Ok fields in
  match optional with
  | Throw e => (this, Throw e)
  | Ok optionalFieldsArr =>
  let arr :=
    if bool_decide (PublicKey.version (pub this) = JNum 5)
    then arr ++ [[u8 (Z.of_nat (length optionalFieldsArr))]] else arr in
  let arr := arr ++ [optionalFieldsArr] in
  if isDummy this then (this, Ok (concatUint8Array arr))
  else
    let serialised : packet * result unit :=
      if negb (truthy usage) then
        match enums_write enums_publicKey (PublicKey.algorithm (pub this)) with
        | Throw e => (this, Throw e)
        | Ok algo =>
            match privateParams this ≫= deref h with
            | None => (this, Throw (TypeError "Cannot convert null to object"))
            | Some pp =>
                match serializePrivateParams algo pp with
                | Throw e => (this, Throw e)
                | Ok km =>
                    (mkPacket (pub this) (Some km) (isEncrypted this)
                       (s2kUsage this) (s2k this) (symmetric this)
                       (aead this) (privateParams this) (iv this), Ok ())
                end
            end
        end
      else (this, Ok ()) in
    match serialised with
    | (this, Throw e) => (this, Throw e)
    | (this, Ok _) =>
        match keyMaterial this with
        | None =>
            if bool_decide (PublicKey.version (pub this) = JNum 5)
            then (this, Throw (TypeError "Cannot read properties of null"))
            else (this, Throw concat_not_an_array)
        | Some km =>
            let arr :=
              if bool_decide (PublicKey.version (pub this) = JNum 5)
              then arr ++ [writeNumber (Z.of_nat (length km)) 4] else arr in
            let arr := arr ++ [km] in
            let arr :=
              if negb (truthy usage)
              then arr ++ [writeChecksum km] else arr in
            (this, Ok (concatUint8Array arr))
        end
    end
  end
  end.

(** The body of the [try] block of the AEAD branch of [decrypt]. *)
Definition aead_cleartext (this : packet) (key : bytes) : result bytes :=
  match at_name crypto_mode (aead this) with
  | None => Throw (TypeError "mode is not a function")
  | Some mode =>
      modeInstance ← instantiate mode (symmetric this) key ;
      match iv this with
      | None => Throw (TypeError "Cannot read properties of undefined")
      | Some v =>
          aead_decrypt modeInstance (keyMaterial this)
            (subarray 0 (ivLength mode) v) []
      end
  end.

(** [decrypt(passphrase)]: the store and the packet as the call leaves
    them, and [false] (a dummy key), nothing (success) or the exception. *)
Definition decrypt (passphrase : string) (h : heap) (this : packet)
  : heap * packet * result (option bool) :=
  if isDummy this then (h, this, Ok (Some false))
  else if isDecrypted this then
    (h, this, Throw (Error "Key packet is already decrypted."))
  else
    let usage := s2kUsage this in
    let derived : result bytes :=
      if bool_decide (usage = JNum 254 ∨ usage = JNum 253) then
        produceEncryptionKey (s2k this) passphrase (symmetric this)
      else if bool_decide (usage = JNum 255) then
        Throw (Error "Encrypted private key is authenticated using an insecure two-byte hash")
      else
        Throw (Error "Private key is encrypted using an insecure S2K function: unsalted MD5") in
    match derived with
    | Throw e => (h, this, Throw e)
    | Ok key =>
    let decrypted : result bytes :=
      if bool_decide (usage = JNum 253) then
        match aead_cleartext this key with
        | Ok cleartext => Ok cleartext
        | Throw err =>
            if bool_decide (err_message err = "Authentication tag mismatch")
            then Throw (Error ("Incorrect key passphrase: "
                                 +:+ err_message err))
            else Throw err
        end
      else
        cleartextWithHash ←
          cfb_decrypt (symmetric this) key (keyMaterial this) (iv this) ;
        let cleartext := subarray_drop_last 20 cleartextWithHash in
        let hash := hash_sha1 cleartext in
        if negb (equalsUint8Array hash (subarray_last 20 cleartextWithHash))
        then Throw (Error "Incorrect key passphrase")
        else Ok cleartext in
    match decrypted with
    | Throw e => (h, this, Throw e)
    | Ok cleartext =>
        let parsed : result (gmap string bytes) :=
          algo ← enums_write enums_publicKey (PublicKey.algorithm (pub this)) ;
          parsePrivateKeyParams algo cleartext
            (PublicKey.publicParams (pub this)) in
        match parsed with
        | Throw _ => (h, this, Throw (Error "Error reading MPIs"))
        | Ok pp =>
            let '(h, o) := alloc_params pp h in
            (h,
             mkPacket (pub this) None (Some false) (JNum 0) (s2k this)
               (symmetric this) (aead this) (Some o) (iv this),
             Ok None)
        end
    end
    end.

(** [generate] stores the fresh parameters; the private ones are given by
    reference. *)
Definition generated (publicParams : Params) (privateParams : loc)
    (this : packet) : packet :=
  mkPacket (PublicKey.set_publicParams (Some publicParams) (pub this))
    (keyMaterial this) (Some false) (s2kUsage this) (s2k this)
    (symmetric this) (aead this) (Some privateParams) (iv this).

(** One turn of the [forEach] of [clearPrivateParams]. *)
Definition clear_param (o : loc) (h : heap) (name : string) : heap :=
  match objects h !! o ≫= (λ obj : gmap string loc, obj !! name) with
  | Some param => delete_property o name (fill_zero param h)
  | None => delete_property o name h
  end.

(** [clearPrivateParams()]. *)
Definition clearPrivateParams (h : heap) (this : packet)
  : heap * packet * result unit :=
  if isDummy this then (h, this, Ok ())
  else
    match privateParams this ≫= (λ o, pair o <$> objects h !! o) with
    | None => (h, this, Throw (TypeError "Cannot convert null to object"))
    | Some (o, obj) =>
        let keys := (map_to_list obj).*1 in
        let h := foldl (clear_param o) h keys in
        (h,
         mkPacket (pub this) (keyMaterial this) (Some true) (s2kUsage this)
           (s2k this) (symmetric this) (aead this) None (iv this),
         Ok ())
    end.

(** [makeDummy(config)]. *)
Definition makeDummy (s2kIterationCountByte : Z) (h : heap) (this : packet)
  : heap * packet * result unit :=
  if isDummy this then (h, this, Ok ())
  else
    let cleared :=
      if isDecrypted this then clearPrivateParams h this
      else (h, this, Ok ()) in
    match cleared with
    | (h, this, Throw e) => (h, this, Throw e)
    | (h, this, Ok _) =>
        let s := S2K.new s2kIterationCountByte in
        let s := S2K.mk "gnu-dummy" (JNum 0) 0 (S2K.salt s) in
        (h,
         mkPacket (pub this) None None (JNum 254) (Some s) (JStr "aes256")
           (aead this) (privateParams this) (iv this),
         Ok ())
    end.

End WithCrypto.

Arguments mkPacket {Params}.
Arguments pub {Params}.
Arguments keyMaterial {Params}.
Arguments isEncrypted {Params}.
Arguments s2kUsage {Params}.
Arguments s2k {Params}.
Arguments symmetric {Params}.
Arguments aead {Params}.
Arguments privateParams {Params}.
Arguments iv {Params}.
Arguments isDecrypted {Params}.
Arguments isDummy {Params}.

End SecretKey.

(** ** Packet framing ([packet/packet.js]) *)

(** Modelled from the spec: [writeTag], [writeSimpleLength],
    [writePartialLength] and [writeHeader] are not under src/; the spec
    names the RFC 4880 framing: a new-format tag octet, a one-, two- or
    five-octet length, and a one-octet partial length for a power of two. *)
Definition writeTag (tag : Z) : bytes := [u8 (Z.lor 0xC0 tag)].

Definition writeSimpleLength (len : Z) : bytes :=
  if len <? 192 then [u8 len]
  else if (191 <? len) && (len <? 8384) then
    [u8 (Z.shiftr (len - 192) 8 + 192); u8 (Z.land (len - 192) 0xFF)]
  else concatUint8Array [[u8 255]; writeNumber len 4].

Definition writePartialLength (power : Z) : result bytes :=
  if (power <? 0) || (30 <? power) then
    Throw (Error "Partial Length power must be between 1 and 30")
  else Ok [u8 (224 + power)].

Definition writeHeader (tag len : Z) : bytes :=
  concatUint8Array [writeTag tag; writeSimpleLength len].

(** ** Streams *)

(** A stream is the sequence of the chunks it delivers.
    [stream.transform(input, process, finish)] hands every chunk to
    [process] and, at the end of the input, calls [finish]; what either
    returns, unless [undefined], is a chunk of the output. *)
Definition emitted (out : option bytes) : list bytes :=
  match out with
  | Some chunk => [chunk]
  | None => []
  end.

Fixpoint transform {S : Type}
    (process : S → bytes → result (S * option bytes))
    (finish : S → option bytes) (s : S) (input : list bytes)
  : result (list bytes) :=
  match input with
  | [] => Ok (emitted (finish s))
  | value :: rest =>
      '(s, out) ← process s value ;
      outs ← transform process finish s rest ;
      Ok (emitted out ++ outs)
  end.

(** The value [write()] of a packet returns: an array or a stream. *)
Inductive body : Type :=
| Bytes (b : bytes)
| Stream (chunks : list bytes).

Definition isStream (b : body) : bool :=
  match b with
  | Stream _ => true
  | Bytes _ => false
  end.

(** ** Packet list *)

Module PacketList.

(** *** [write()] *)

(** The local variables [buffer] and [bufferLength] of the streamed
    branch. *)
Record chunker : Type := mkChunker {
  buffer : list bytes;
  bufferLength : Z
}.

Definition minLength : Z := 512.

(** [Math.log(n) / Math.LN2 | 0]: the integer part of the binary logarithm
    of a positive length.  The quotient is taken in double precision.
    Below 2^31 it has the integer part of the exact logarithm: at a power
    of two 2^k the logarithm of fdlibm is [k * ln2_hi + k * ln2_lo], whose
    quotient by [LN2] is not below [k], and elsewhere the exact logarithm
    is more than 2^-31 away from an integer.  From 2^31 on it is at least
    30, where the cap of [process] applies. *)
Definition log2_floor (n : Z) : Z := Z.log2 n.

(** The chunk callback of the streamed branch. *)
Definition process (st : chunker) (value : bytes)
  : result (chunker * option bytes) :=
  let buffer := buffer st ++ [value] in
  let bufferLength := bufferLength st + Z.of_nat (length value) in
  if minLength <=? bufferLength then
    let powerOf2 := Z.min (log2_floor bufferLength) 30 in
    let chunkSize := 2 ^ powerOf2 in
    header ← writePartialLength powerOf2 ;
    let bufferConcat := concatUint8Array ([header] ++ buffer) in
    let rest := subarray_from (Z.to_nat (1 + chunkSize)) bufferConcat in
    Ok (mkChunker [rest] (Z.of_nat (length rest)),
        Some (subarray 0 (Z.to_nat (1 + chunkSize)) bufferConcat))
  else Ok (mkChunker buffer bufferLength, None).

(** The end-of-stream callback of the streamed branch. *)
Definition finish (st : chunker) : option bytes :=
  Some (concatUint8Array ([writeSimpleLength (bufferLength st)] ++ buffer st)).

(** The chunks that follow the tag octet of a streamed packet. *)
Definition write_streamed (packetbytes : list bytes) : result (list bytes) :=
  transform process finish (mkChunker [] 0) packetbytes.

(** The framing in the words of the specification: accumulate until 512
    octets are buffered, choose the largest power of two that is at most
    the buffered length, capped at 2^30, emit a partial-length header for
    it followed by that many octets, retain the remainder; at the end of
    the stream emit a simple-length header and the residue.  A partial
    segment records the buffered length it was cut from. *)
Inductive segment : Type :=
| Partial (buffered : Z) (power : Z) (payload : bytes)
| Final (residue : bytes).

Fixpoint spec_frame (buffered : bytes) (input : list bytes) : list segment :=
  match input with
  | [] => [Final buffered]
  | value :: rest =>
      let buffered := buffered ++ value in
      let n := Z.of_nat (length buffered) in
      if 512 <=? n then
        let p := Z.min (Z.log2 n) 30 in
        Partial n p (take (Z.to_nat (2 ^ p)) buffered)
          :: spec_frame (drop (Z.to_nat (2 ^ p)) buffered) rest
      else spec_frame buffered rest
  end.

Definition payload (s : segment) : bytes :=
  match s with
  | Partial _ _ payload => payload
  | Final residue => residue
  end.

(** The octets of a segment on the wire. *)
Definition render (s : segment) : bytes :=
  match s with
  | Partial _ p payload => [u8 (224 + p)] ++ payload
  | Final residue =>
      writeSimpleLength (Z.of_nat (length residue)) ++ residue
  end.

(** A partial segment is cut from at least 512 buffered octets, and its
    length is the largest power of two that is at most the buffered length
    and at most 2^30. *)
Definition largest_power (s : segment) : Prop :=
  match s with
  | Partial n p payload =>
      512 <= n ∧ 9 <= p <= 30 ∧ 2 ^ p <= n ∧ (p = 30 ∨ n < 2 ^ (p + 1))
      ∧ Z.of_nat (length payload) = 2 ^ p
  | Final _ => False
  end.

#[global] Instance largest_power_dec (s : segment) : Decision (largest_power s).
Proof. destruct s; simpl; apply _. Defined.

Section Write.

(** [supportsStreaming] of [packet/packet.js] is not under src/; it is
    taken as it comes: the test for the tags that carry bulk data and may
    use partial lengths. *)
Variable supportsStreaming : Z → bool.

(** What one packet, given by its tag and the value of its [write()],
    contributes to the output. *)
Definition write_packet (tag : Z) (packetbytes : body)
  : result (list bytes) :=
  match packetbytes with
  | Stream chunks =>
      if supportsStreaming tag then
        outs ← write_streamed chunks ;
        Ok ([writeTag tag] ++ outs)
      else
        let total :=
          foldl (λ n value, n + Z.of_nat (length value)) 0 chunks in
        Ok ([writeHeader tag total] ++ chunks)
  | Bytes b => Ok [writeHeader tag (Z.of_nat (length b)); b]
  end.

(** [write()]: the pieces of all packets, in order. *)
Fixpoint write (packets : list (Z * body)) : result (list bytes) :=
  match packets with
  | [] => Ok []
  | (tag, packetbytes) :: rest =>
      arr ← write_packet tag packetbytes ;
      arrs ← write rest ;
      Ok (arr ++ arrs)
  end.

End Write.

(** *** [read(bytes, allowedPackets, config)] *)

Record config : Type := mkConfig { tolerant : bool }.

(** Modelled from the spec: [readPackets] is not under src/; it is the
    tokenizer that pulls framed packets from the input and hands each, as
    a tag and a body, to a callback.  The input is given as the sequence
    of what the tokenizer finds: a token, or a framing error it throws. *)
Inductive framed : Type :=
| Token (tag : Z) (packet : body)
| Malformed (e : error).

(** The writable end of the output stream. *)
Inductive writer : Type :=
| Open
| Closed
| Errored (e : error).

Section Read.

(** The packet objects, the tag of the class of each, and a packet class:
    construction followed by [read(body, config)]. *)
Variable P : Type.
Variable tag_of : P → Z.
Variable supportsStreaming : Z → bool.
Variable allowedPackets : gmap Z (body → config → result P).
Variable disallowed : Z → error.

(** The output stream and the debug log. *)
Record pipe : Type := mkPipe {
  written : list P;
  status : writer;
  log : list error
}.

(** [newPacketFromTag(tag, allowedPackets)], as the class to read with. *)
Definition newPacketFromTag (tag : Z) : result (body → config → result P) :=
  match allowedPackets !! tag with
  | Some cls => Ok cls
  | None => Throw (disallowed tag)
  end.

(** The [try] block of the token callback. *)
Definition read_packet (cfg : config) (tag : Z) (packet : body) : result P :=
  cls ← newPacketFromTag tag ;
  cls packet cfg.

(** The token callback: [try { ... } catch (e) { ... }]. *)
Definition on_token (cfg : config) (tag : Z) (packet : body) (st : pipe)
  : pipe :=
  match read_packet cfg tag packet with
  | Ok p => mkPipe (written st ++ [p]) (status st) (log st)
  | Throw e =>
      let status :=
        if negb (tolerant cfg) || supportsStreaming tag
        then Errored e else status st in
      mkPipe (written st) status (log st ++ [e])
  end.

(** The loop of the transform: it goes on while the writer is ready, and
    closes the writer when the tokenizer reports the end of the input. *)
Fixpoint pump (cfg : config) (input : list framed) (st : pipe) : pipe :=
  match status st with
  | Open =>
      match input with
      | [] => mkPipe (written st) Closed (log st)
      | Token tag packet :: rest => pump cfg rest (on_token cfg tag packet st)
      | Malformed e :: _ => mkPipe (written st) (Errored e) (log st)
      end
  | _ => st
  end.

Definition transformPair (cfg : config) (input : list framed) : pipe :=
  pump cfg input (mkPipe [] Open []).

(** The input of [read] is a [Uint8Array] or a [ReadableStream].
    [stream.transformPair], [getWriter] and [getReader] belong to
    @openpgp/web-stream-tools, which is not under src/.  For a
    [ReadableStream] the output is a stream of the Streams standard, as
    [pump] has it: after an abort [writer.ready] rejects and the loop
    ends.  For a [Uint8Array] the library makes the output an array
    stream: [write] pushes onto an array, [close] and [abort] settle one
    promise, which the first of them decides; the writer has no [ready]
    to wait for, so the loop goes on after an abort; and the reader
    answers only once the promise is settled, and rejects with the reason
    of the abort. *)
Inductive source : Type :=
| OfArray
| OfStream.

(** How an array stream ends: the first of [close] and [abort] decides. *)
Definition settle (now next : writer) : writer :=
  match now with
  | Open => next
  | _ => now
  end.

(** The loop of the transform over an array stream. *)
Fixpoint pump_array (cfg : config) (input : list framed) (st : pipe) : pipe :=
  match input with
  | [] => mkPipe (written st) (settle (status st) Closed) (log st)
  | Token tag packet :: rest =>
      let st' := on_token cfg tag packet st in
      pump_array cfg rest
        (mkPipe (written st') (settle (status st) (status st')) (log st'))
  | Malformed e :: _ =>
      mkPipe (written st) (settle (status st) (Errored e)) (log st)
  end.

Definition transformPair_array (cfg : config) (input : list framed) : pipe :=
  pump_array cfg input (mkPipe [] Open []).

(** [this.stream] as [transformPair] makes it of the input. *)
Definition output (bytes : source) (cfg : config) (input : list framed)
  : pipe :=
  match bytes with
  | OfArray => transformPair_array cfg input
  | OfStream => transformPair cfg input
  end.


(** The loop that waits for the first packets, over what the reader is
    handed: it stops after the first packet of a streaming tag, or at the
    end of the stream. *)
Fixpoint drain (out : list P) (ending : writer) (held : list P)
  : result (list P * option (list P * writer)) :=
  match out with
  | [] =>
      match ending with
      | Errored e => Throw e
      | _ => Ok (held, None)
      end
  | value :: rest =>
      if supportsStreaming (tag_of value)
      then Ok (held ++ [value], Some (rest, ending))
      else drain rest ending (held ++ [value])
  end.

(** [read]: the packets held by the list and what stays behind in its
    [stream] field, or the exception.  The reader of an aborted array
    stream rejects at the first [reader.read()], whatever was written. *)
Definition read (bytes : source) (cfg : config) (input : list framed)
  : result (list P * option (list P * writer)) :=
  let st := output bytes cfg input in
  match bytes, status st with
  | OfArray, Errored e => Throw e
  | _, _ => drain (written st) (status st) []
  end.

End Read.

Arguments written {P}.
Arguments status {P}.
Arguments log {P}.
Arguments mkPipe {P}.

End PacketList.

(** ** ECDSA ([crypto/public_key/elliptic/ecdsa.js]) *)

Module Ecdsa.

(** The calls that leave the module: to the Web Crypto API, to the crypto
    module of Node.js, and to the software curve library. *)
Inductive call : Type :=
| WebCrypto (operation : string)
| NodeCrypto (operation : string)
| Indutny (operation : string)
| DebugError (message : string).

#[global] Instance call_eq_decision : EqDecision call.
Proof. solve_decision. Defined.


(** A computation, with the calls it made in the order it made them. *)
Definition traced (A : Type) : Type := list call * result A.

#[global] Instance traced_ret : MRet traced := λ A a, ([], Ok a).
#[global] Instance traced_bind : MBind traced := λ A B k m,
  match m with
  | (calls, Ok a) => let '(calls', r) := k a in (calls ++ calls', r)
  | (calls, Throw e) => (calls, Throw e)
  end.

(** A call to a collaborator, and a step that makes no call. *)
Definition external {A} (c : call) (r : result A) : traced A := ([c], r).
Definition internal {A} (r : result A) : traced A := ([], r).

Record signature : Type := mkSignature { r : bytes; s : bytes }.

Record keyPair : Type := mkKeyPair { publicKey : bytes; privateKey : bytes }.

(** What [sign] uses of a [Curve] object. *)
Record Curve : Type := mkCurve {
  name : string;
  type : jsval;
  hash : Z;
  payloadSize : nat
}.

Section WithBackends.

Variable Oid : Type.
Variable Curve_new : Oid → result Curve.
Variables enums_hash enums_webHash : enum.
Variable CryptoKey : Type.
Variable webCrypto_importKey : Curve → string → keyPair → result CryptoKey.
Variable webCrypto_sign : Curve → string → CryptoKey → bytes → result bytes.
Variable nodeCrypto_sign : Curve → string → bytes → keyPair → result (Z * Z).
Variable IndutnyCurve : Type.
Variable getIndutnyCurve : string → result IndutnyCurve.
Variable indutny_sign : IndutnyCurve → bytes → option bytes → result (Z * Z).
Variable toArrayLike : Z → bytes.

(** [ellipticSign(curve, hashed, privateKey)]. *)
Definition ellipticSign (curve : Curve) (hashed : option bytes)
    (privateKey : bytes) : traced signature :=
  indutnyCurve ← external (Indutny "getIndutnyCurve")
                   (getIndutnyCurve (name curve)) ;
  sig ← external (Indutny "sign")
          (indutny_sign indutnyCurve privateKey hashed) ;
  mret (mkSignature (toArrayLike sig.1) (toArrayLike sig.2)).

(** [webSign(curve, hashAlgo, message, keyPair)]. *)
Definition webSign (curve : Curve) (hashAlgo : Z) (message : bytes)
    (kp : keyPair) : traced signature :=
  let len := payloadSize curve in
  curveHash ← internal (enums_read enums_webHash (hash curve)) ;
  key ← external (WebCrypto "importKey")
          (webCrypto_importKey curve curveHash kp) ;
  messageHash ← internal (enums_read enums_webHash hashAlgo) ;
  sig ← external (WebCrypto "sign")
          (webCrypto_sign curve messageHash key message) ;
  mret (mkSignature (subarray 0 len sig) (subarray len (2 * len) sig)).

(** [nodeSign(curve, hashAlgo, message, keyPair)]. *)
Definition nodeSign (curve : Curve) (hashAlgo : Z) (message : bytes)
    (kp : keyPair) : traced (Z * Z) :=
  hashName ← internal (enums_read enums_hash hashAlgo) ;
  external (NodeCrypto "sign") (nodeCrypto_sign curve hashName message kp).

(** [sign(oid, hashAlgo, message, publicKey, privateKey, hashed)].  The
    message is absent, an array or a stream. *)
Definition sign (oid : Oid) (hashAlgo : Z) (message : option body)
    (publicKey privateKey : bytes) (hashed : option bytes)
  : traced signature :=
  curve ← internal (Curve_new oid) ;
  match message return traced signature with
  | Some (Bytes message) =>
      let kp := mkKeyPair publicKey privateKey in
      if bool_decide (type curve = JStr "web") then
        match webSign curve hashAlgo message kp with
        | (calls, Ok sig) => (calls, Ok sig)
        | (calls, Throw err) =>
            if bool_decide (name curve ≠ "p521")
               && (bool_decide (err_name err = "DataError")
                   || bool_decide (err_name err = "OperationError"))
            then (calls, Throw err)
            else
              let '(calls', res) := ellipticSign curve hashed privateKey in
              (calls
                 ++ [DebugError ("Browser did not support signing: "
                                   +:+ err_message err)]
                 ++ calls', res)
        end
      else if bool_decide (type curve = JStr "node") then
        sig ← nodeSign curve hashAlgo message kp ;
        mret (mkSignature (toArrayLike sig.1) (toArrayLike sig.2))
      else ellipticSign curve hashed privateKey
  | _ => ellipticSign curve hashed privateKey
  end.

End WithBackends.

End Ecdsa.

(** ** Reference digests *)

(** The digests of asmcrypto.js are collaborators; where a property is
    evaluated at a concrete key, SHA-1 and SHA-256 as FIPS 180-4 defines
    them stand for [Sha1.bytes] and [Sha256.bytes]. *)
Module Digest.

Definition mask32 (x : Z) : Z := Z.land x 0xFFFFFFFF.
Definition add32 (a b : Z) : Z := mask32 (a + b).
Definition rotl (n x : Z) : Z :=
  mask32 (Z.lor (Z.shiftl x n) (Z.shiftr x (32 - n))).
Definition rotr (n x : Z) : Z := rotl (32 - n) x.
Definition not32 (x : Z) : Z := Z.lxor x 0xFFFFFFFF.

(** The message, the bit 1, zero bits, and the length in bits on eight
    octets, filling whole 64-octet blocks. *)
Definition pad (msg : bytes) : bytes :=
  let l := Z.of_nat (length msg) in
  msg ++ [x80] ++ replicate (Z.to_nat ((55 - l) mod 64)) x00
      ++ writeNumber (8 * l) 8.

Fixpoint words (fuel : nat) (b : bytes) : list Z :=
  match fuel, b with
  | S fuel, b0 :: b1 :: b2 :: b3 :: rest =>
      readNumber [b0; b1; b2; b3] :: words fuel rest
  | _, _ => []
  end.

Fixpoint blocks (fuel : nat) (ws : list Z) : list (list Z) :=
  match fuel, ws with
  | S fuel, _ :: _ => take 16 ws :: blocks fuel (drop 16 ws)
  | _, _ => []
  end.

Definition word_at (ws : list Z) (i : nat) : Z := default 0 (ws !! i).

Definition digest_bytes (hs : list Z) : bytes :=
  concat ((λ h, writeNumber h 4) <$> hs).

(** SHA-1. *)
Definition sha1_schedule (block : list Z) : list Z :=
  foldl (λ w t,
           w ++ [rotl 1 (Z.lxor (Z.lxor (word_at w (t - 3)) (word_at w (t - 8)))
                           (Z.lxor (word_at w (t - 14)) (word_at w (t - 16))))])
        block (seq 16 64).

Definition sha1_round (w : list Z) (st : Z * Z * Z * Z * Z) (t : nat)
  : Z * Z * Z * Z * Z :=
  let '(a, b, c, d, e) := st in
  let '(f, k) :=
    if (t <? 20)%nat then
      (Z.lor (Z.land b c) (Z.land (not32 b) d), 0x5A827999)
    else if (t <? 40)%nat then (Z.lxor (Z.lxor b c) d, 0x6ED9EBA1)
    else if (t <? 60)%nat then
      (Z.lor (Z.lor (Z.land b c) (Z.land b d)) (Z.land c d), 0x8F1BBCDC)
    else (Z.lxor (Z.lxor b c) d, 0xCA62C1D6) in
  let temp := add32 (add32 (add32 (rotl 5 a) f) (add32 e k)) (word_at w t) in
  (temp, a, rotl 30 b, c, d).

Definition sha1_block (hs : Z * Z * Z * Z * Z) (block : list Z)
  : Z * Z * Z * Z * Z :=
  let w := sha1_schedule block in
  let '(h0, h1, h2, h3, h4) := hs in
  let '(a, b, c, d, e) := foldl (sha1_round w) hs (seq 0 80) in
  (add32 h0 a, add32 h1 b, add32 h2 c, add32 h3 d, add32 h4 e).

Definition sha1 (msg : bytes) : bytes :=
  let padded := pad msg in
  let bs := blocks (length padded) (words (length padded) padded) in
  let '(h0, h1, h2, h3, h4) :=
    foldl sha1_block
      (0x67452301, 0xEFCDAB89, 0x98BADCFE, 0x10325476, 0xC3D2E1F0) bs in
  digest_bytes [h0; h1; h2; h3; h4].

(** SHA-256. *)
Definition is_prime (n : nat) : bool :=
  forallb (λ d, negb (n mod d =? 0)%nat) (seq 2 (n - 2)).

Definition primes (count : nat) : list Z :=
  Z.of_nat <$> take count (filter (λ n, is_prime n = true) (seq 2 400)).

(** The integer part of the cube root, one bit after the other. *)
Definition cube_root (bits : nat) (n : Z) : Z :=
  foldl (λ r i, let r' := r + 2 ^ Z.of_nat i in
                if r' * r' * r' <=? n then r' else r)
        0 (reverse (seq 0 bits)).

(** The round constants are the first 32 bits of the fractional parts of
    the cube roots of the first 64 primes, the initial hash value those of
    the square roots of the first 8 primes. *)
Definition sha256_k : list Z :=
  (λ p, mask32 (cube_root 36 (p * 2 ^ 96))) <$> primes 64.

Definition sha256_h0 : list Z :=
  (λ p, mask32 (Z.sqrt (p * 2 ^ 64))) <$> primes 8.

Definition sha256_schedule (block : list Z) : list Z :=
  foldl (λ w t,
           let w15 := word_at w (t - 15) in
           let w2 := word_at w (t - 2) in
           let s0 := Z.lxor (Z.lxor (rotr 7 w15) (rotr 18 w15))
                            (Z.shiftr w15 3) in
           let s1 := Z.lxor (Z.lxor (rotr 17 w2) (rotr 19 w2))
                            (Z.shiftr w2 10) in
           w ++ [add32 (add32 (word_at w (t - 16)) s0)
                       (add32 (word_at w (t - 7)) s1)])
        block (seq 16 48).

Definition sha256_round (w : list Z) (st : list Z) (t : nat) : list Z :=
  match st with
  | [a; b; c; d; e; f; g; h] =>
      let S1 := Z.lxor (Z.lxor (rotr 6 e) (rotr 11 e)) (rotr 25 e) in
      let ch := Z.lxor (Z.land e f) (Z.land (not32 e) g) in
      let temp1 :=
        add32 (add32 (add32 h S1) (add32 ch (word_at sha256_k t)))
              (word_at w t) in
      let S0 := Z.lxor (Z.lxor (rotr 2 a) (rotr 13 a)) (rotr 22 a) in
      let maj := Z.lxor (Z.lxor (Z.land a b) (Z.land a c)) (Z.land b c) in
      let temp2 := add32 S0 maj in
      [add32 temp1 temp2; a; b; c; add32 d temp1; e; f; g]
  | _ => st
  end.

Definition sha256_block (hs : list Z) (block : list Z) : list Z :=
  let w := sha256_schedule block in
  zip_with add32 hs (foldl (sha256_round w) hs (seq 0 64)).

Definition sha256 (msg : bytes) : bytes :=
  let padded := pad msg in
  let bs := blocks (length padded) (words (length padded) padded) in
  digest_bytes
    (foldl sha256_block sha256_h0 bs).

End Digest.

(** ** One-Pass Signature packet: verification *)

Module OnePassSignatureVerify.

(** What [verify] uses of the trailing Signature packet: the tag of its
    class, the four fields it compares, and the [hashed] slot it fills. *)
Record SignaturePacket (Hashed : Type) : Type := mkSignaturePacket {
  constructor_tag : Z;
  signatureType : jsval;
  hashAlgorithm : jsval;
  publicKeyAlgorithm : jsval;
  issuerKeyID : option KeyID.t;
  hashed : option Hashed
}.
Arguments mkSignaturePacket {Hashed}.
Arguments constructor_tag {Hashed}.
Arguments signatureType {Hashed}.
Arguments hashAlgorithm {Hashed}.
Arguments publicKeyAlgorithm {Hashed}.
Arguments issuerKeyID {Hashed}.
Arguments hashed {Hashed}.

(** [enums.packet.signature]. *)
Definition packet_signature : Z := 2.

Definition missing : error := Error "Corresponding signature packet missing".
Definition mismatch : error :=
  Error "Corresponding signature packet does not match one-pass signature packet".

(** Modelled from the spec: [type/keyid.js] is not under src/; two key
    identifiers are equal when their octets are, and [a.equals(b)] throws
    when either is [null]. *)
Definition keyID_equals (a b : option KeyID.t) : result bool :=
  match a, b with
  | Some a, Some b => Ok (bool_decide (KeyID.bytes_of a = KeyID.bytes_of b))
  | _, _ => Throw (TypeError "Cannot read properties of null")
  end.

Section WithSignature.

Variables Hashed Args Verdict : Type.

(** [SignaturePacket.prototype.verify], applied to the trailing packet. *)
Variable signature_verify : SignaturePacket Hashed → Args → result Verdict.

(** [verify(...arguments)]: the one-pass packet, its accumulated [hashed]
    stream and the packet its [correspondingSig] resolves to.  Returns
    the trailing packet as the call leaves it and the verdict. *)
Definition verify (this : OnePassSignature.packet) (this_hashed : option Hashed)
    (correspondingSig : option (SignaturePacket Hashed)) (arguments : Args)
  : option (SignaturePacket Hashed) * result Verdict :=
  match correspondingSig with
  | None => (correspondingSig, Throw missing)
  | Some sig =>
      if bool_decide (constructor_tag sig ≠ packet_signature)
      then (correspondingSig, Throw missing)
      else if bool_decide
                (signatureType sig ≠ OnePassSignature.signatureType this)
      then (correspondingSig, Throw mismatch)
      else if bool_decide
                (hashAlgorithm sig ≠ OnePassSignature.hashAlgorithm this)
      then (correspondingSig, Throw mismatch)
      else if bool_decide
                (publicKeyAlgorithm sig
                 ≠ OnePassSignature.publicKeyAlgorithm this)
      then (correspondingSig, Throw mismatch)
      else
        match keyID_equals (issuerKeyID sig)
                (OnePassSignature.issuerKeyID this) with
        | Throw e => (correspondingSig, Throw e)
        | Ok false => (correspondingSig, Throw mismatch)
        | Ok true =>
            let sig :=
              mkSignaturePacket (constructor_tag sig) (signatureType sig)
                (hashAlgorithm sig) (publicKeyAlgorithm sig)
                (issuerKeyID sig) this_hashed in
            (Some sig, signature_verify sig arguments)
        end
  end.

End WithSignature.

End OnePassSignatureVerify.

(** ** Packet list: the array operations *)

Module PacketListOps.

Section WithFields.

(** What a packet holds besides the tag of its class and its [packets]
    field. *)
Variable Fields : Type.

(** A packet object; its [packets] field is a packet list or is missing. *)
#[warnings="-register-all"]
Inductive packet : Type :=
| Packet (tag : Z) (fields : Fields) (packets : option (list packet)).

Definition tag (p : packet) : Z :=
  match p with Packet t _ _ => t end.

Definition packets (p : packet) : option (list packet) :=
  match p with Packet _ _ ps => ps end.

(** [packet.packets = packet.packets || new PacketList()]. *)
Definition with_packets (p : packet) : packet :=
  match p with Packet t f ps => Packet t f (Some (default [] ps)) end.

(** The packet has a [packets] list. *)
Definition has_packets (p : packet) : Prop := is_Some (packets p).

(** [push(packet)]: nothing is added for [null] or [undefined].  The
    [packets] field is assigned on the packet object itself; a list here
    holds the values of its packets, so the assignment shows in the list
    that receives the packet. *)
Definition push (p : option packet) (this : list packet) : list packet :=
  match p with
  | None => this
  | Some p => this ++ [with_packets p]
  end.

(** [args.some(handle(tag))] with [handle = tag => packetType => tag ===
    packetType]. *)
Definition handle (tag packetType : Z) : bool := bool_decide (tag = packetType).
Definition some (f : Z → bool) (args : list Z) : bool := existsb f args.

(** The loop of [filterByTag], from the element at hand on. *)
Fixpoint filterByTag_from (args : list Z) (rest filtered : list packet)
  : list packet :=
  match rest with
  | [] => filtered
  | p :: rest =>
      filterByTag_from args rest
        (if some (handle (tag p)) args then push (Some p) filtered
         else filtered)
  end.

(** [filterByTag(...args)]. *)
Definition filterByTag (args : list Z) (this : list packet) : list packet :=
  filterByTag_from args this [].

(** [findPacket(type)]: the first packet of the type, or [undefined]. *)
Definition findPacket (type : Z) (this : list packet) : option packet :=
  List.find (λ p, bool_decide (tag p = type)) this.

(** The loop of [indexOfTag], from index [i] on. *)
Fixpoint indexOfTag_from (args : list Z) (rest : list packet) (i : nat)
    (tagIndex : list nat) : list nat :=
  match rest with
  | [] => tagIndex
  | p :: rest =>
      indexOfTag_from args rest (S i)
        (if some (handle (tag p)) args then tagIndex ++ [i] else tagIndex)
  end.

(** [indexOfTag(...args)]. *)
Definition indexOfTag (args : list Z) (this : list packet) : list nat :=
  indexOfTag_from args this 0 [].

(** [concat(packetlist)]: the argument may be missing, and its elements
    may be [null]. *)
Definition concat (packetlist : option (list (option packet)))
    (this : list packet) : list packet :=
  match packetlist with
  | None => this
  | Some l => foldl (λ this p, push p this) this l
  end.

End WithFields.

Arguments Packet {Fields}.
Arguments tag {Fields}.
Arguments packets {Fields}.
Arguments with_packets {Fields}.
Arguments has_packets {Fields}.
Arguments push {Fields}.
Arguments filterByTag {Fields}.
Arguments filterByTag_from {Fields}.
Arguments findPacket {Fields}.
Arguments indexOfTag {Fields}.
Arguments indexOfTag_from {Fields}.
Arguments concat {Fields}.

End PacketListOps.

(** ** Packet list: the packets and the errors of a token list *)

Module PacketListTokens.

Section WithClasses.

Variable P : Type.
Variable allowedPackets : gmap Z (body → PacketList.config → result P).
Variable disallowed : Z → error.

(** The packets of the tokens whose read returns, and the errors of the
    tokens whose read throws, both in the order of the tokens. *)
Definition delivered (cfg : PacketList.config)
    (input : list PacketList.framed) : list P :=
  omap (λ tok,
          match tok with
          | PacketList.Token tag packet =>
              match PacketList.read_packet P allowedPackets disallowed
                      cfg tag packet with
              | Ok p => Some p
              | Throw _ => None
              end
          | PacketList.Malformed _ => None
          end) input.

Definition skipped (cfg : PacketList.config)
    (input : list PacketList.framed) : list error :=
  omap (λ tok,
          match tok with
          | PacketList.Token tag packet =>
              match PacketList.read_packet P allowedPackets disallowed
                      cfg tag packet with
              | Ok _ => None
              | Throw e => Some e
              end
          | PacketList.Malformed _ => None
          end) input.

End WithClasses.

End PacketListTokens.

(** ** ECDSA: verifying and validating *)

Module EcdsaVerify.

Import Ecdsa.

(** A hash algorithm argument that may be [undefined]. *)
Definition enums_read_optional (type : enum) (e : option Z) : result string :=
  match e with
  | Some code => enums_read type code
  | None => Throw invalid_enum
  end.

Section WithBackends.

Variable Oid : Type.
Variable Curve_new : Oid → result Curve.

(** [curve.keyType], and the codes [enums.publicKey.ecdsa] and
    [enums.hash.sha256]. *)
Variable keyType : Curve → Z.
Variables publicKey_ecdsa hash_sha256 : Z.

Variables enums_hash enums_webHash : enum.
Variable CryptoKey : Type.
Variable webCrypto_importKey : Curve → string → keyPair → result CryptoKey.
Variable webCrypto_sign : Curve → string → CryptoKey → bytes → result bytes.
Variable nodeCrypto_sign : Curve → string → bytes → keyPair → result (Z * Z).
Variable IndutnyCurve : Type.
Variable getIndutnyCurve : string → result IndutnyCurve.
Variable indutny_sign : IndutnyCurve → bytes → option bytes → result (Z * Z).
Variable toArrayLike : Z → bytes.

(** The public half of the Web Crypto API with the key in JWK form
    ([rawPublicToJWK]), the verifier of Node.js with the encoders of
    asn1.js, and the verification of the curve library ([keyFromPublic]
    and [key.verify]). *)
Variable Jwk : Type.
Variable rawPublicToJWK : Curve → bytes → result Jwk.
Variable webCrypto_importPublicKey : Curve → string → Jwk → result CryptoKey.
Variable webCrypto_verify :
  Curve → string → CryptoKey → bytes → bytes → result bool.
Variable NodeVerify : Type.
Variable nodeCrypto_createVerify : string → bytes → result NodeVerify.
Variable encode_publicKey : Curve → bytes → result bytes.
Variable encode_signature : signature → result bytes.
Variable nodeCrypto_verify : NodeVerify → bytes → bytes → result bool.
Variable indutny_verify :
  IndutnyCurve → bytes → option body → signature → result bool.

(** [getRandomBytes], [hash.digest] and [validateStandardParams]. *)
Variable hash_digest : Z → bytes → result bytes.
Variable validateStandardParams : Z → Oid → bytes → bytes → result bool.

(** [ellipticVerify(curve, signature, digest, publicKey)]. *)
Definition ellipticVerify (curve : Curve) (sig : signature)
    (digest : option body) (publicKey : bytes) : traced bool :=
  indutnyCurve ← external (Indutny "getIndutnyCurve")
                   (getIndutnyCurve (name curve)) ;
  external (Indutny "verify")
    (indutny_verify indutnyCurve publicKey digest sig).

(** [webVerify(curve, hashAlgo, { r, s }, message, publicKey)]. *)
Definition webVerify (curve : Curve) (hashAlgo : option Z) (sig : signature)
    (message publicKey : bytes) : traced bool :=
  jwk ← internal (rawPublicToJWK curve publicKey) ;
  curveHash ← internal (enums_read enums_webHash (hash curve)) ;
  key ← external (WebCrypto "importKey")
          (webCrypto_importPublicKey curve curveHash jwk) ;
  let sigBytes := concatUint8Array [r sig; s sig] in
  messageHash ← internal (enums_read_optional enums_webHash hashAlgo) ;
  external (WebCrypto "verify")
    (webCrypto_verify curve messageHash key sigBytes message).

(** [nodeVerify(curve, hashAlgo, { r, s }, message, publicKey)]: only what
    [verify.verify] throws is turned into [false]. *)
Definition nodeVerify (curve : Curve) (hashAlgo : option Z) (sig : signature)
    (message publicKey : bytes) : traced bool :=
  hashName ← internal (enums_read_optional enums_hash hashAlgo) ;
  verify ← external (NodeCrypto "createVerify")
             (nodeCrypto_createVerify hashName message) ;
  key ← internal (encode_publicKey curve publicKey) ;
  der ← internal (encode_signature sig) ;
  match nodeCrypto_verify verify key der with
  | Ok valid => ([NodeCrypto "verify"], Ok valid)
  | Throw _ => ([NodeCrypto "verify"], Ok false)
  end.

(** [verify(oid, hashAlgo, signature, message, publicKey, hashed)]. *)
Definition verify (oid : Oid) (hashAlgo : option Z) (sig : signature)
    (message : option body) (publicKey : bytes) (hashed : option bytes)
  : traced bool :=
  curve ← internal (Curve_new oid) ;
  let digest : option body :=
    match hashAlgo with
    | None => message
    | Some _ => Bytes <$> hashed
    end in
  match message return traced bool with
  | Some (Bytes message_bytes) =>
      if bool_decide (type curve = JStr "web") then
        match webVerify curve hashAlgo sig message_bytes publicKey with
        | (calls, Ok valid) => (calls, Ok valid)
        | (calls, Throw err) =>
            if bool_decide (name curve ≠ "p521")
               && (bool_decide (err_name err = "DataError")
                   || bool_decide (err_name err = "OperationError"))
            then (calls, Throw err)
            else
              let '(calls', res) :=
                ellipticVerify curve sig digest publicKey in
              (calls
                 ++ [DebugError ("Browser did not support verifying: "
                                   +:+ err_message err)]
                 ++ calls', res)
        end
      else if bool_decide (type curve = JStr "node") then
        nodeVerify curve hashAlgo sig message_bytes publicKey
      else ellipticVerify curve sig digest publicKey
  | _ => ellipticVerify curve sig digest publicKey
  end.

Definition sign :=
  Ecdsa.sign Oid Curve_new enums_hash enums_webHash CryptoKey
    webCrypto_importKey webCrypto_sign nodeCrypto_sign IndutnyCurve
    getIndutnyCurve indutny_sign toArrayLike.

(** [validateParams(oid, Q, d)], with the outcome of [getRandomBytes(8)]. *)
Definition validateParams (random : result bytes) (oid : Oid) (Q d : bytes)
  : traced bool :=
  curve ← internal (Curve_new oid) ;
  if bool_decide (keyType curve ≠ publicKey_ecdsa) then mret false
  else if bool_decide (type curve = JStr "web")
          || bool_decide (type curve = JStr "node") then
    message ← internal random ;
    let hashAlgo := hash_sha256 in
    hashed ← internal (hash_digest hashAlgo message) ;
    let attempt : traced bool :=
      sig ← sign oid hashAlgo (Some (Bytes message)) Q d (Some hashed) ;
      verify oid (Some hashAlgo) sig (Some (Bytes message)) Q (Some hashed) in
    match attempt with
    | (calls, Ok valid) => (calls, Ok valid)
    | (calls, Throw _) => (calls, Ok false)
    end
  else internal (validateStandardParams publicKey_ecdsa oid Q d).

End WithBackends.

End EcdsaVerify.

(** ** Secret-Key packet: [encrypt] and [validate] *)

Module SecretKeyProtect.

Import SecretKey.

(** The fields of the configuration [encrypt] and [makeDummy] read. *)
Record config : Type := mkConfig {
  aeadProtect : bool;
  s2kIterationCountByte : Z
}.

(** [!passphrase] for a passphrase that is a string or [undefined]. *)
Definition no_passphrase (passphrase : option string) : bool :=
  match passphrase with
  | None => true
  | Some s => bool_decide (s = "")
  end.

Section Fields.

Context {Params : Type}.

Definition set_s2kUsage (v : jsval) (this : packet Params) : packet Params :=
  mkPacket (pub this) (keyMaterial this) (isEncrypted this) v (s2k this)
    (symmetric this) (aead this) (privateParams this) (iv this).

Definition set_s2k (v : option S2K.t) (this : packet Params)
  : packet Params :=
  mkPacket (pub this) (keyMaterial this) (isEncrypted this) (s2kUsage this)
    v (symmetric this) (aead this) (privateParams this) (iv this).

Definition set_symmetric (v : jsval) (this : packet Params)
  : packet Params :=
  mkPacket (pub this) (keyMaterial this) (isEncrypted this) (s2kUsage this)
    (s2k this) v (aead this) (privateParams this) (iv this).

Definition set_aead (v : jsval) (this : packet Params) : packet Params :=
  mkPacket (pub this) (keyMaterial this) (isEncrypted this) (s2kUsage this)
    (s2k this) (symmetric this) v (privateParams this) (iv this).

Definition set_iv (v : option bytes) (this : packet Params)
  : packet Params :=
  mkPacket (pub this) (keyMaterial this) (isEncrypted this) (s2kUsage this)
    (s2k this) (symmetric this) (aead this) (privateParams this) v.

Definition set_keyMaterial (v : option bytes) (this : packet Params)
  : packet Params :=
  mkPacket (pub this) v (isEncrypted this) (s2kUsage this) (s2k this)
    (symmetric this) (aead this) (privateParams this) (iv this).

End Fields.

Section WithCrypto.

Variable Params : Type.
Variable Rng : Type.
Variable getRandomBytes : nat → Rng → Rng * result bytes.
Variable enums_publicKey : enum.
Variable serializePrivateParams : Z → gmap string bytes → result bytes.
Variable cipher : string → option cipher_info.
Variable crypto_mode : string → option aead_mode.
Variable cfb_encrypt : jsval → bytes → bytes → bytes → result bytes.
Variable hash_sha1 : bytes → bytes.
Variable produceKey : S2K.t → string → nat → result bytes.
Variable validateParams :
  Z → option Params → option (gmap string bytes) → result bool.

(** [crypto.serializeParams(algo, this.privateParams)] with the algorithm
    code written first. *)
Definition cleartext_of (h : heap) (this : packet Params) : result bytes :=
  algo ← enums_write enums_publicKey (PublicKey.algorithm (pub this)) ;
  match privateParams this ≫= deref h with
  | None => Throw (TypeError "Cannot convert null to object")
  | Some pp => serializePrivateParams algo pp
  end.

(** The two ways of sealing the cleartext once key and IV are there; the
    usage octet, and the AEAD mode, are stored before the cipher runs. *)
Definition seal (config : config) (key cleartext v : bytes)
    (this : packet Params) : packet Params * result unit :=
  if aeadProtect config then
    let this := set_aead (JStr "eax") (set_s2kUsage (JNum 253) this) in
    let sealed : result bytes :=
      match at_name crypto_mode (aead this) with
      | None => Throw (TypeError "mode is not a function")
      | Some mode =>
          modeInstance ← instantiate mode (symmetric this) key ;
          aead_encrypt modeInstance cleartext
            (subarray 0 (ivLength mode) v) []
      end in
    match sealed with
    | Throw e => (this, Throw e)
    | Ok km => (set_keyMaterial (Some km) this, Ok ())
    end
  else
    let this := set_s2kUsage (JNum 254) this in
    match cfb_encrypt (symmetric this) key
            (concatUint8Array [cleartext; hash_sha1 cleartext]) v with
    | Throw e => (this, Throw e)
    | Ok km => (set_keyMaterial (Some km) this, Ok ())
    end.

(** [encrypt(passphrase, config)]: the random source and the packet as the
    call leaves them, and nothing or the exception.  The fields are
    assigned one after the other, so a call that throws leaves those
    assigned before the throw. *)
Definition encrypt (passphrase : option string) (config : config)
    (h : heap) (rng : Rng) (this : packet Params)
  : Rng * packet Params * result unit :=
  if isDummy this then (rng, this, Ok ())
  else if negb (isDecrypted this) then
    (rng, this, Throw (Error "Key packet is already encrypted"))
  else if isDecrypted this && no_passphrase passphrase then
    (rng, set_s2kUsage (JNum 0) this, Ok ())
  else if no_passphrase passphrase then
    (rng, this,
     Throw (Error "The key must be decrypted before removing passphrase protection."))
  else
    let passphrase := default "" passphrase in
    let s := S2K.new (s2kIterationCountByte config) in
    let this := set_s2k (Some s) this in
    let '(rng, drawn) := getRandomBytes 8 rng in
    match drawn with
    | Throw e => (rng, this, Throw e)
    | Ok salt =>
    let s := S2K.mk (S2K.type s) (S2K.algorithm s) (S2K.c s) (Some salt) in
    let this := set_s2k (Some s) this in
    match cleartext_of h this with
    | Throw e => (rng, this, Throw e)
    | Ok cleartext =>
    let this := set_symmetric (JStr "aes256") this in
    match produceEncryptionKey cipher produceKey (s2k this) passphrase
            (symmetric this) with
    | Throw e => (rng, this, Throw e)
    | Ok key =>
    match at_name cipher (symmetric this) with
    | None => (rng, this, Throw (TypeError "Cannot read properties of undefined"))
    | Some ci =>
    let '(rng, drawn) := getRandomBytes (blockSize ci) rng in
    match drawn with
    | Throw e => (rng, this, Throw e)
    | Ok v =>
    let this := set_iv (Some v) this in
    let '(this, res) := seal config key cleartext v this in
    (rng, this, res)
    end
    end
    end
    end
    end.

(** [validate()]: what [crypto.validateParams] throws counts as an
    invalid key; what [enums.write] throws is thrown. *)
Definition validate (h : heap) (this : packet Params) : result unit :=
  if isDummy this then Ok ()
  else if negb (isDecrypted this) then Throw (Error "Key is not decrypted")
  else
    algo ← enums_write enums_publicKey (PublicKey.algorithm (pub this)) ;
    let validParams :=
      match validateParams algo (PublicKey.publicParams (pub this))
              (privateParams this ≫= deref h) with
      | Ok valid => valid
      | Throw _ => false
      end in
    if negb validParams then Throw (Error "Key is invalid") else Ok ().

End WithCrypto.

End SecretKeyProtect.

(** ** Sample values *)

(** Excerpts of the tables of [enums.js], a small key and a one-pass
    signature body, for evaluating the definitions. *)
Module Sample.

Definition enums_publicKey : enum :=
  {[ "rsaEncryptSign" := 1; "dsa" := 17; "ecdsa" := 19; "eddsa" := 22 ]}.
Definition enums_signature : enum := {[ "binary" := 0; "text" := 1 ]}.
Definition enums_hash : enum := {[ "sha1" := 2; "sha256" := 8 ]}.
Definition enums_symmetric : enum := {[ "aes128" := 7; "aes256" := 9 ]}.
Definition enums_aead : enum := {[ "eax" := 1; "ocb" := 2 ]}.

(** A one-pass signature body that announces version 4. *)
Definition ops_body_v4 : bytes :=
  [x04; x00; x08; x13; x01; x02; x03; x04; x05; x06; x07; x08; x01].

Definition ops_packet : OnePassSignature.packet :=
  OnePassSignature.mkPacket (JNum 4) (JNum 0) (JNum 8) (JStr "ecdsa")
    (Some (KeyID.mk [x01; x02; x03; x04; x05; x06; x07; x08])) (JNum 1).

(** Public parameters in the order of the wire, serialised as
    multiprecision integers: a two-octet bit count and the octets. *)
Definition params : Type := list (string * bytes).

Definition uint8ArrayToMPI (bin : bytes) : bytes :=
  let n := readNumber bin in
  writeNumber (if n =? 0 then 0 else Z.log2 n + 1) 2 ++ bin.

Definition serializeParams (algo : Z) (pp : option params) : result bytes :=
  match pp with
  | Some l => Ok (concat ((λ kv, uint8ArrayToMPI kv.2) <$> l))
  | None => Throw (TypeError "Cannot convert undefined or null to object")
  end.

(** A version 4 RSA key created at 0x4D3C5C10, and a later date. *)
Definition rsa_public : params :=
  [("n", [xc1; x5f; x0b; x9d]); ("e", [x01; x00; x01])].

Definition rsa_key : PublicKey.packet params :=
  PublicKey.mkPacket (JNum 4) (1295801360 * 1000) (JStr "rsaEncryptSign")
    (Some rsa_public) 0 None None.

Definition later_date : Z := 1295801361 * 1000.

(** The octets [write()] gives for the key, and its fingerprint. *)
Definition rsa_key_bytes : bytes :=
  [x04; x4d; x3c; x5c; x10; x01; x00; x20; xc1; x5f; x0b; x9d;
   x00; x11; x01; x00; x01].

Definition rsa_fingerprint : bytes :=
  hexToUint8Array "f1417d76967aa2b60fefd37eea9a2cddddc428c2".

(** The same key in version 5. *)
Definition rsa_key_v5 : PublicKey.packet params :=
  PublicKey.set_version (JNum 5) rsa_key.

Definition getFingerprintBytes :=
  PublicKey.getFingerprintBytes params enums_publicKey serializeParams
    Digest.sha1 Digest.sha256.

Definition getKeyID :=
  PublicKey.getKeyID params enums_publicKey serializeParams
    Digest.sha1 Digest.sha256.

(** Stand-ins for the symmetric collaborators.  The key is the SHA-256 of
    the salt and the passphrase; the cipher xors every octet with the
    first octet of the key; the AEAD mode appends that octet as its tag. *)
Definition cipher (name : string) : option SecretKey.cipher_info :=
  if bool_decide (name = "aes256") then Some (SecretKey.mkCipher 16 32)
  else if bool_decide (name = "aes128") then Some (SecretKey.mkCipher 16 16)
  else None.

Definition produceKey (s : S2K.t) (passphrase : string) (n : nat)
  : result bytes :=
  if bool_decide (S2K.type s = "gnu-dummy")
  then Throw (Error "Cannot use GNU S2K dummy")
  else Ok (take n (Digest.sha256 (default [] (S2K.salt s)
                                    ++ String.list_byte_of_string passphrase))).

Definition xor_octet (k b : byte) : byte :=
  u8 (Z.lxor (byte_val k) (byte_val b)).

Definition key_octet (key : bytes) : byte := default x00 (head key).

Definition cfb (symmetric : jsval) (key : bytes) (data iv : option bytes)
  : result bytes :=
  match data with
  | Some d => Ok (xor_octet (key_octet key) <$> d)
  | None => Throw (TypeError "Cannot read properties of null")
  end.

Definition eax_instance (key : bytes) : SecretKey.aead_instance :=
  SecretKey.mkInstance
    (λ pt iv ad, Ok ((xor_octet (key_octet key) <$> pt) ++ [key_octet key]))
    (λ ct iv ad,
       match ct with
       | Some c =>
           if bool_decide (subarray_last 1 c = [key_octet key])
           then Ok (xor_octet (key_octet key) <$> subarray_drop_last 1 c)
           else Throw (Error "Authentication tag mismatch")
       | None => Throw (TypeError "Cannot read properties of null")
       end).

Definition crypto_mode (name : string) : option SecretKey.aead_mode :=
  if bool_decide (name = "eax")
  then Some (SecretKey.mkMode 16 (λ symmetric key, Ok (eax_instance key)))
  else None.

(** Private parameters: one multiprecision integer, the exponent [d]. *)
Definition serializePrivateParams (algo : Z) (pp : gmap string bytes)
  : result bytes :=
  Ok (concat (uint8ArrayToMPI <$> (map_to_list pp).*2)).

Definition parsePrivateKeyParams (algo : Z) (cleartext : bytes)
    (publicParams : option params) : result (gmap string bytes) :=
  if bool_decide (2 < length cleartext)%nat
  then Ok {[ "d" := subarray_from 2 cleartext ]}
  else Throw (Error "Error reading MPI @ 0").

Definition s2k_write (s : S2K.t) : bytes :=
  [x03; x08] ++ default [] (S2K.salt s) ++ [u8 (S2K.c s)].

Definition secret_d : bytes := [x5e; xc2; x17; x9a].

(** The store holds the array of [d] at location 1 and the parameter
    object at location 1. *)
Definition store : heap :=
  mkHeap {[ 1%nat := secret_d ]} {[ 1%nat := {[ "d" := 1%nat ]} ]}.

(** The key with its private parameters in the clear. *)
Definition unlocked : SecretKey.packet params :=
  SecretKey.mkPacket rsa_key None (Some false) (JNum 0) None JNull JNull
    (Some 1%nat) None.

Definition salted : S2K.t :=
  S2K.mk "iterated" (JStr "sha256") 224
    (Some [x41; x42; x43; x44; x45; x46; x47; x48]).

Definition right_key : bytes :=
  default [] (match produceKey salted "correct horse" 32 with
              | Ok k => Some k
              | Throw _ => None
              end).

Definition cleartext_d : bytes := uint8ArrayToMPI secret_d.

(** The key protected with the passphrase "correct horse", with the
    SHA-1 check (usage 254) and with the AEAD mode (usage 253). *)
Definition locked_254 : SecretKey.packet params :=
  SecretKey.mkPacket rsa_key
    (Some (xor_octet (key_octet right_key)
             <$> (cleartext_d ++ Digest.sha1 cleartext_d)))
    (Some true) (JNum 254) (Some salted) (JStr "aes256") JNull None
    (Some (replicate 16 x00)).

Definition locked_253 : SecretKey.packet params :=
  SecretKey.mkPacket rsa_key
    (Some ((xor_octet (key_octet right_key) <$> cleartext_d)
             ++ [key_octet right_key]))
    (Some true) (JNum 253) (Some salted) (JStr "aes256") (JStr "eax") None
    (Some (replicate 16 x00)).

Definition decrypt :=
  SecretKey.decrypt params enums_publicKey parsePrivateKeyParams cipher
    crypto_mode cfb Digest.sha1 produceKey.

Definition write_secret :=
  SecretKey.write params enums_publicKey enums_symmetric enums_aead
    serializeParams serializePrivateParams s2k_write.

(** The tags that may use partial lengths, and a streamed body of 600
    octets that arrives in two chunks. *)
Definition supportsStreaming (tag : Z) : bool :=
  bool_decide (tag ∈ [8; 9; 11; 18; 20]).

Definition streamed_body : list bytes :=
  [replicate 300 x61; replicate 300 x62].

(** Packet classes for reading: a key packet wants version 4 and at least
    six octets, a user ID takes any body, literal data takes a stream. *)
Definition value_of (b : body) : bytes :=
  match b with
  | Bytes b => b
  | Stream chunks => concat chunks
  end.

Definition read_key (b : body) (cfg : PacketList.config)
  : result (Z * bytes) :=
  match value_of b with
  | x04 :: rest =>
      if bool_decide (5 <= length rest)%nat then Ok (6, value_of b)
      else Throw (Error "Error reading MPIs")
  | _ => Throw (Error "Version of the key packet is unsupported.")
  end.

Definition allowedPackets
  : gmap Z (body → PacketList.config → result (Z * bytes)) :=
  {[ 6 := read_key;
     13 := λ b cfg, Ok (13, value_of b);
     11 := λ b cfg, Ok (11, value_of b) ]}.

Definition disallowed (tag : Z) : error :=
  Error "Packet not allowed in this context".

Definition good_key : PacketList.framed := PacketList.Token 6 (Bytes rsa_key_bytes).
Definition bad_key : body := Bytes [x04; x4d; x3c].
Definition user_id : PacketList.framed :=
  PacketList.Token 13 (Bytes [x61; x6c; x69; x63; x65]).

Definition pump :=
  PacketList.pump (Z * bytes) supportsStreaming allowedPackets disallowed.

Definition read_list :=
  PacketList.read (Z * bytes) fst supportsStreaming allowedPackets disallowed.

Definition output :=
  PacketList.output (Z * bytes) supportsStreaming allowedPackets disallowed.

(** Curves and back-ends for signing: [p256] is a Web Crypto curve,
    [p384] a Node.js one, [secp256k1] has the software tier only. *)
Definition Curve_new (oid : string) : result Ecdsa.Curve :=
  if bool_decide (oid = "p256")
  then Ok (Ecdsa.mkCurve "p256" (JStr "web") 8 32)
  else if bool_decide (oid = "p384")
  then Ok (Ecdsa.mkCurve "p384" (JStr "node") 9 48)
  else if bool_decide (oid = "secp256k1")
  then Ok (Ecdsa.mkCurve "secp256k1" JUndefined 8 32)
  else Throw (Error "Not valid curve").

Definition enums_webHash : enum := {[ "SHA-1" := 2; "SHA-256" := 8 ]}.

Definition sign :=
  Ecdsa.sign string Curve_new enums_hash enums_webHash unit
    (λ curve h kp, Ok ())
    (λ curve h key message, Ok (replicate 64 x2a))
    (λ curve h message kp, Ok (1, 2))
    string (λ name, Ok name)
    (λ curve privateKey hashed,
       Ok (readNumber privateKey, readNumber (default [] hashed)))
    (λ n, writeNumber n 4).

Definition ellipticSign :=
  Ecdsa.ellipticSign string (λ name, Ok name)
    (λ curve privateKey hashed,
       Ok (readNumber privateKey, readNumber (default [] hashed)))
    (λ n, writeNumber n 4).

End Sample.

(** ** Further sample values *)

Module Cases.

(** A reader of multiprecision integers, and the parser of the RSA public
    parameters built on it. *)
Definition readMPI (b : bytes) : option (bytes * nat) :=
  match b with
  | hi :: lo :: rest =>
      let n := Z.to_nat ((readNumber [hi; lo] + 7) / 8) in
      if bool_decide (n ≤ length rest)%nat
      then Some (take n rest, (2 + n)%nat) else None
  | _ => None
  end.

Definition parsePublicKeyParams (algo : Z) (b : bytes)
  : result (nat * Sample.params) :=
  match readMPI b with
  | Some (n, read_n) =>
      match readMPI (drop read_n b) with
      | Some (e, read_e) => Ok ((read_n + read_e)%nat, [("n", n); ("e", e)])
      | None => Throw (Error "Error reading MPIs")
      end
  | None => Throw (Error "Error reading MPIs")
  end.

Definition read :=
  PublicKey.read Sample.params Sample.enums_publicKey parsePublicKeyParams.

Definition write :=
  PublicKey.write Sample.params Sample.enums_publicKey Sample.serializeParams.

Definition empty_body : bytes := [].

(** The sample key with its algorithm given by code, with its fingerprint
    already requested, and in a version that is not supported. *)
Definition rsa_key_by_code : PublicKey.packet Sample.params :=
  PublicKey.mkPacket (JNum 4) (1295801360 * 1000) (JNum 1)
    (Some Sample.rsa_public) 0 None None.

Definition rsa_key_requested : PublicKey.packet Sample.params :=
  PublicKey.mkPacket (JNum 4) (1295801360 * 1000) (JStr "rsaEncryptSign")
    (Some Sample.rsa_public) 0 (Some Sample.rsa_fingerprint) None.

Definition rsa_key_v3 : PublicKey.packet Sample.params :=
  PublicKey.set_version (JNum 3) Sample.rsa_key.

(** A packet fresh from the constructor: it has no algorithm yet. *)
Definition blank_key : PublicKey.packet Sample.params :=
  PublicKey.new Sample.params 1295801360000 false.

(** One-pass signature bodies of version 3: one well formed, one whose
    hash octet is no code. *)
Definition key_id : bytes := [x01; x02; x03; x04; x05; x06; x07; x08].

Definition ops_body_v3 : bytes :=
  [x03; x00; x08; x13] ++ key_id ++ [x01].

Definition ops_body_unknown_hash : bytes :=
  [x03; x00; x63; x13] ++ key_id ++ [x01].

Definition ops_write :=
  OnePassSignature.write Sample.enums_signature Sample.enums_hash
    Sample.enums_publicKey.

(** A trailing signature packet that matches [Sample.ops_packet], and a
    verifier that accepts when the hashed stream is there. *)
Definition trailing_signature
  : OnePassSignatureVerify.SignaturePacket (list bytes) :=
  OnePassSignatureVerify.mkSignaturePacket 2 (JNum 0) (JNum 8) (JStr "ecdsa")
    (Some (KeyID.mk key_id)) None.

Definition signature_verify
    (sig : OnePassSignatureVerify.SignaturePacket (list bytes)) (args : unit)
  : result bool :=
  Ok (bool_decide (is_Some (OnePassSignatureVerify.hashed sig))).

Definition ops_verify :=
  OnePassSignatureVerify.verify (list bytes) unit bool signature_verify.

(** A short streamed body, and three tokens of tags that do not stream,
    the second with a body its class rejects. *)
Definition short_body : list bytes := [[x68; x65]; [x6c; x6c; x6f]].

Definition tolerant_config : PacketList.config := PacketList.mkConfig true.

Definition three_tokens : list PacketList.framed :=
  [Sample.good_key; PacketList.Token 6 Sample.bad_key; Sample.user_id].

(** Back-ends for ECDSA: a browser that does not know the curve, a
    Node.js that signs and refuses every signature, the software tier of
    [Sample.sign]. *)
Definition unsupported : error := mkError "NotSupportedError" "Unrecognized name.".

Definition indutny_sign (curve : string) (privateKey : bytes)
    (hashed : option bytes) : result (Z * Z) :=
  Ok (readNumber privateKey, readNumber (default [] hashed)).

Definition indutny_verify (curve : string) (publicKey : bytes)
    (digest : option body) (sig : Ecdsa.signature) : result bool :=
  Ok (bool_decide (Ecdsa.s sig
                   = writeNumber
                       (readNumber
                          (match digest with
                           | Some (Bytes d) => d
                           | _ => []
                           end)) 4)).

Definition sign :=
  Ecdsa.sign string Sample.Curve_new Sample.enums_hash Sample.enums_webHash
    unit
    (λ curve h kp, Throw unsupported)
    (λ curve h key message, Ok (replicate 64 x2a))
    (λ curve h message kp, Ok (1, 2))
    string (λ name, Ok name) indutny_sign (λ n, writeNumber n 4).

Definition webSign :=
  Ecdsa.webSign Sample.enums_webHash unit
    (λ curve h kp, Throw unsupported)
    (λ curve h key message, Ok (replicate 64 x2a)).

Definition nodeSign :=
  Ecdsa.nodeSign Sample.enums_hash (λ curve h message kp, Ok (1, 2)).

Definition ellipticSign :=
  Ecdsa.ellipticSign string (λ name, Ok name) indutny_sign
    (λ n, writeNumber n 4).

Definition refused : error := Error "error:0D07207B:asn1 encoding routines".

Definition verify :=
  EcdsaVerify.verify string Sample.Curve_new Sample.enums_hash
    Sample.enums_webHash unit string (λ name, Ok name)
    bytes (λ curve publicKey, Ok publicKey)
    (λ curve h jwk, Throw unsupported)
    (λ curve h key signature message, Ok true)
    unit
    (λ h message, Ok ())
    (λ curve publicKey, Ok publicKey)
    (λ sig, Ok (Ecdsa.r sig ++ Ecdsa.s sig))
    (λ v key der, Throw refused)
    indutny_verify.

Definition validateParams :=
  EcdsaVerify.validateParams string Sample.Curve_new (λ curve, 19) 19 8
    Sample.enums_hash Sample.enums_webHash unit
    (λ curve h kp, Throw unsupported)
    (λ curve h key message, Ok (replicate 64 x2a))
    (λ curve h message kp, Ok (1, 2))
    string (λ name, Ok name) indutny_sign (λ n, writeNumber n 4)
    bytes (λ curve publicKey, Ok publicKey)
    (λ curve h jwk, Throw unsupported)
    (λ curve h key signature message, Ok true)
    unit
    (λ h message, Ok ())
    (λ curve publicKey, Ok publicKey)
    (λ sig, Ok (Ecdsa.r sig ++ Ecdsa.s sig))
    (λ v key der, Throw refused)
    indutny_verify
    (λ algo message, Ok (Digest.sha256 message))
    (λ algo oid Q d, Ok true).

(** Collaborators of [encrypt] and [validate]: random octets are drawn
    from a list, the cipher is the one of [Sample.cfb]. *)
Definition getRandomBytes (n : nat) (rng : list bytes)
  : list bytes * result bytes :=
  match rng with
  | drawn :: rest => (rest, Ok (take n drawn))
  | [] => ([], Throw (Error "No secure random number generator available."))
  end.

Definition entropy : list bytes :=
  [[x41; x42; x43; x44; x45; x46; x47; x48]; replicate 16 x00].

Definition cfb_encrypt (symmetric : jsval) (key plaintext iv : bytes)
  : result bytes :=
  Ok (Sample.xor_octet (Sample.key_octet key) <$> plaintext).

Definition protect_config : SecretKeyProtect.config :=
  SecretKeyProtect.mkConfig false 224.

Definition encrypt :=
  SecretKeyProtect.encrypt Sample.params (list bytes) getRandomBytes
    Sample.enums_publicKey Sample.serializePrivateParams Sample.cipher
    Sample.crypto_mode cfb_encrypt Digest.sha1 Sample.produceKey.

Definition crypto_validateParams (algo : Z) (pub : option Sample.params)
    (priv : option (gmap string bytes)) : result bool :=
  Ok (bool_decide (is_Some pub ∧ is_Some priv)).

Definition validate :=
  SecretKeyProtect.validate Sample.params Sample.enums_publicKey
    crypto_validateParams.

Definition clearPrivateParams := SecretKey.clearPrivateParams Sample.params.

Definition makeDummy := SecretKey.makeDummy Sample.params.

(** The protected key with the usage octet of the two-octet checksum. *)
Definition locked_255 : SecretKey.packet Sample.params :=
  SecretKeyProtect.set_s2kUsage (JNum 255) Sample.locked_254.

(** What [Sample.decrypt] leaves for the right passphrase, and what
    [makeDummy] leaves of the key in the clear. *)
Definition opened_store : heap :=
  (Sample.decrypt "correct horse" Sample.store Sample.locked_254).1.1.

Definition opened : SecretKey.packet Sample.params :=
  (Sample.decrypt "correct horse" Sample.store Sample.locked_254).1.2.

Definition dummy_store : heap :=
  (makeDummy 224 Sample.store Sample.unlocked).1.1.

Definition dummy : SecretKey.packet Sample.params :=
  (makeDummy 224 Sample.store Sample.unlocked).1.2.

End Cases.

(** * Properties *)

(** ** Bytes, hex strings and enumerations *)

Lemma byte_val_range (b : byte) : 0 <= byte_val b < 256.
Proof.
  unfold byte_val. pose proof (Byte.to_N_bounded b) as H. lia.
Qed.

Lemma u8_byte_val (b : byte) : u8 (byte_val b) = b.
Proof.
  unfold u8. rewrite Z.mod_small by apply byte_val_range.
  unfold byte_val. rewrite N2Z.id, Byte.of_to_N. reflexivity.
Qed.

Lemma hex_byte_roundtrip (b : byte) :
  u8 (16 * hex_value (hex_digit (byte_val b / 16))
      + hex_value (hex_digit (byte_val b mod 16))) = b.
Proof. destruct b; vm_compute; reflexivity. Qed.

Lemma hex_roundtrip (a : bytes) : hexToUint8Array (uint8ArrayToHex a) = a.
Proof.
  induction a as [|b a IH]; simpl; [reflexivity|].
  rewrite hex_byte_roundtrip, IH. reflexivity.
Qed.

(** The reverse table only holds entries of the enumeration, and has one
    for every code of the enumeration. *)
Lemma byValue_sound (type : enum) (code : Z) (name : string) :
  byValue type !! code = Some name → type !! name = Some code.
Proof.
  unfold byValue.
  assert (H : ∀ kv, kv ∈ map_to_list type → type !! kv.1 = Some kv.2).
  { intros [k v] Hin. by apply elem_of_map_to_list. }
  revert H. generalize (map_to_list type) as l.
  induction l as [|[k v] l IH]; simpl; intros H Hl.
  - by rewrite lookup_empty in Hl.
  - destruct (decide (v = code)) as [->|Hne].
    + rewrite lookup_insert_eq in Hl. injection Hl as <-.
      apply (H (k, code)). left.
    + rewrite lookup_insert_ne in Hl by done.
      apply IH; [|done]. intros kv Hin. apply H. by right.
Qed.

Lemma byValue_complete (type : enum) (code : Z) (name : string) :
  type !! name = Some code → is_Some (byValue type !! code).
Proof.
  intros H. apply elem_of_map_to_list in H. unfold byValue.
  revert H. generalize (map_to_list type) as l.
  induction l as [|[k v] l IH]; simpl; intros Hin.
  - by apply elem_of_nil in Hin.
  - destruct (decide (v = code)) as [->|Hne].
    + rewrite lookup_insert_eq. eauto.
    + rewrite lookup_insert_ne by done. apply IH.
      apply elem_of_cons in Hin as [Heq|Hin]; [congruence|done].
Qed.

Lemma enums_write_denotes (type : enum) (field : jsval) (code : Z) :
  denotes type field code = true → enums_write type field = Ok code.
Proof.
  destruct field as [| |n|name]; simpl; try done.
  - intros [Hn Hrev]%andb_prop.
    apply bool_decide_eq_true in Hn as ->.
    apply bool_decide_eq_true in Hrev as [name Hrev].
    unfold enums_write, enums_read. rewrite Hrev. simpl.
    by rewrite (byValue_sound _ _ _ Hrev).
  - intros H%bool_decide_eq_true. unfold enums_write. simpl. by rewrite H.
Qed.

(** ** One-pass signature packets *)

Section OnePassSignatureFacts.

Import OnePassSignature.

Variables enums_signature enums_hash enums_publicKey : enum.

(** C8, as the code has it: [read] checks no version.  For every body,
    whatever its first octet, it returns the packet, whose version is that
    octet ([undefined] for an empty body); it never throws. *)
Theorem ops_read_accepts_every_version (b : bytes) (this : packet) :
  ∃ p, read b this = Ok p
       ∧ version p = index b 0
       ∧ signatureType p = index b 1
       ∧ hashAlgorithm p = index b 2
       ∧ publicKeyAlgorithm p = index b 3
       ∧ issuerKeyID p = Some (KeyID.read (subarray 4 12 b))
       ∧ flags p = index b 12.
Proof. eexists. split; [reflexivity|]. simpl. repeat split. Qed.

(** C10: for a packet whose three algorithm fields denote codes of their
    enumerations and whose issuer key identifier has eight octets,
    [write()] returns thirteen octets: the constant 3, whatever the
    [version] field holds, then the signature type, the hash algorithm,
    the public-key algorithm, the key identifier and the flags. *)
Theorem ops_write_thirteen_octets (this : packet) (st ha pka : Z)
    (kid : KeyID.t) :
  denotes enums_signature (signatureType this) st = true →
  denotes enums_hash (hashAlgorithm this) ha = true →
  denotes enums_publicKey (publicKeyAlgorithm this) pka = true →
  issuerKeyID this = Some kid →
  length (KeyID.write kid) = 8%nat →
  ∃ out,
    write enums_signature enums_hash enums_publicKey this = Ok out
    ∧ length out = 13%nat
    ∧ out = [x03; u8 st; u8 ha; u8 pka] ++ KeyID.write kid
              ++ [to_u8 (flags this)]
    ∧ ∀ v, write enums_signature enums_hash enums_publicKey
             (mkPacket v (signatureType this) (hashAlgorithm this)
                (publicKeyAlgorithm this) (issuerKeyID this) (flags this))
           = Ok out.
Proof.
  intros Hst Hha Hpka Hkid Hlen.
  apply enums_write_denotes in Hst, Hha, Hpka.
  assert (Hw : ∀ v, write enums_signature enums_hash enums_publicKey
             (mkPacket v (signatureType this) (hashAlgorithm this)
                (publicKeyAlgorithm this) (issuerKeyID this) (flags this))
           = Ok ([x03; u8 st; u8 ha; u8 pka] ++ KeyID.write kid
                   ++ [to_u8 (flags this)])).
  { intros v. unfold write. simpl. rewrite Hst, Hha, Hpka, Hkid. simpl.
    unfold concatUint8Array. simpl. reflexivity. }
  eexists. split; [|split; [|split; [reflexivity|exact Hw]]].
  - specialize (Hw (version this)). by destruct this.
  - simpl. rewrite length_app, Hlen. simpl. lia.
Qed.

End OnePassSignatureFacts.

(** C8, witness against the claim: a body whose version octet is 4 is
    read without an exception, and the packet holds version 4. *)
Lemma ops_read_version_4_is_accepted :
  index Sample.ops_body_v4 0 = JNum 4
  ∧ JNum 4 ≠ JNum 3
  ∧ OnePassSignature.read Sample.ops_body_v4 OnePassSignature.new
    = Ok (OnePassSignature.mkPacket (JNum 4) (JNum 0) (JNum 8) (JNum 19)
            (Some (KeyID.mk [x01; x02; x03; x04; x05; x06; x07; x08]))
            (JNum 1)).
Proof. split; [reflexivity|]. split; [discriminate|]. reflexivity. Qed.

Lemma ops_write_thirteen_octets_witness :
  ∃ out,
    OnePassSignature.write Sample.enums_signature Sample.enums_hash
      Sample.enums_publicKey Sample.ops_packet = Ok out
    ∧ length out = 13%nat
    ∧ out = [x03; u8 0; u8 8; u8 19]
              ++ [x01; x02; x03; x04; x05; x06; x07; x08] ++ [to_u8 (JNum 1)]
    ∧ ∀ v, OnePassSignature.write Sample.enums_signature Sample.enums_hash
             Sample.enums_publicKey
             (OnePassSignature.mkPacket v (JNum 0) (JNum 8) (JStr "ecdsa")
                (Some (KeyID.mk [x01; x02; x03; x04; x05; x06; x07; x08]))
                (JNum 1))
           = Ok out.
Proof.
  apply (ops_write_thirteen_octets Sample.enums_signature Sample.enums_hash
           Sample.enums_publicKey Sample.ops_packet 0 8 19
           (KeyID.mk [x01; x02; x03; x04; x05; x06; x07; x08]));
    vm_compute; reflexivity.
Defined.

(** ** Public-key packets *)

Section PublicKeyFacts.

Import PublicKey.

Context {Params : Type}.
Variable enums_publicKey : enum.
Variable serializeParams : Z → option Params → result bytes.
Variables Sha1 Sha256 : bytes → bytes.

Local Abbreviation write := (PublicKey.write Params enums_publicKey serializeParams).
Local Abbreviation writeForHash :=
  (PublicKey.writeForHash Params enums_publicKey serializeParams).
Local Abbreviation getFingerprintBytes :=
  (PublicKey.getFingerprintBytes Params enums_publicKey serializeParams
     Sha1 Sha256).
Local Abbreviation getFingerprint :=
  (PublicKey.getFingerprint Params enums_publicKey serializeParams
     Sha1 Sha256).
Local Abbreviation getKeyID :=
  (PublicKey.getKeyID Params enums_publicKey serializeParams Sha1 Sha256).

(** The bytes that are hashed, for each of the two versions. *)
Lemma writeForHash_v4 (p : packet Params) (pk : bytes) :
  write p = Ok pk →
  writeForHash (JNum 4) p
  = Ok (x99 :: writeNumber (Z.of_nat (length pk)) 2 ++ pk).
Proof.
  intros Hw. unfold PublicKey.writeForHash, writePublicKey.
  rewrite Hw. simpl. unfold concatUint8Array. simpl.
  by rewrite app_nil_r.
Qed.

Lemma writeForHash_v5 (p : packet Params) (pk : bytes) :
  write p = Ok pk →
  writeForHash (JNum 5) p
  = Ok (x9a :: writeNumber (Z.of_nat (length pk)) 4 ++ pk).
Proof.
  intros Hw. unfold PublicKey.writeForHash, writePublicKey.
  rewrite Hw. simpl. unfold concatUint8Array. simpl.
  by rewrite app_nil_r.
Qed.

(** A cached fingerprint is returned as it is. *)
Lemma getFingerprintBytes_cached (p : packet Params) (fp : bytes) :
  fingerprint p = Some fp → getFingerprintBytes p = (p, Ok (Some fp)).
Proof. intros H. unfold PublicKey.getFingerprintBytes. by rewrite H. Qed.

(** C1: on the first request ([fingerprint] still [null]) for a packet
    that [write()] serialises to [pk], [getFingerprintBytes()] returns the
    SHA-1 of [0x99 || uint16be(len) || pk] when the version is 4 and the
    SHA-256 of [0x9A || uint32be(len) || pk] when it is 5; the digest is
    stored in the [fingerprint] field, nothing else changes, and the next
    request returns the stored digest. *)
Theorem getFingerprintBytes_first_request (p : packet Params) (pk : bytes) :
  fingerprint p = None →
  write p = Ok pk →
  version p = JNum 4 ∨ version p = JNum 5 →
  let len := Z.of_nat (length pk) in
  let fp :=
    if bool_decide (version p = JNum 4)
    then Sha1 (x99 :: writeNumber len 2 ++ pk)
    else Sha256 (x9a :: writeNumber len 4 ++ pk) in
  getFingerprintBytes p = (set_fingerprint (Some fp) p, Ok (Some fp))
  ∧ getFingerprintBytes (set_fingerprint (Some fp) p)
    = (set_fingerprint (Some fp) p, Ok (Some fp)).
Proof.
  intros Hnone Hw Hv len fp. split.
  - unfold PublicKey.getFingerprintBytes. rewrite Hnone.
    destruct Hv as [Hv|Hv]; rewrite Hv.
    + rewrite (writeForHash_v4 _ _ Hw).
      subst fp. rewrite Hv. reflexivity.
    + rewrite (writeForHash_v5 _ _ Hw).
      subst fp. rewrite Hv. reflexivity.
  - by apply getFingerprintBytes_cached.
Qed.

(** Setting the key identifier and asking for the fingerprint commute. *)
Lemma getFingerprintBytes_set_keyID (p : packet Params) (k : option KeyID.t) :
  getFingerprintBytes (set_keyID k p)
  = (set_keyID k (getFingerprintBytes p).1, (getFingerprintBytes p).2).
Proof.
  unfold PublicKey.getFingerprintBytes. simpl.
  destruct (fingerprint p); [reflexivity|].
  replace (writeForHash (version p) (set_keyID k p))
    with (writeForHash (version p) p) by reflexivity.
  destruct (writeForHash (version p) p); [|reflexivity].
  simpl. repeat case_bool_decide; reflexivity.
Qed.



(** [read] fills the four hashed fields and leaves both caches alone,
    whether it returns or throws. *)
Lemma read_keeps_caches
    (parsePublicKeyParams : Z → bytes → result (nat * Params))
    (b : bytes) (p : packet Params) :
  let p' := (PublicKey.read Params enums_publicKey parsePublicKeyParams b p).1 in
  fingerprint p' = fingerprint p ∧ keyID p' = keyID p.
Proof.
  unfold PublicKey.read. simpl.
  case_bool_decide; [|done].
  destruct (index b 5) as [| |code|]; try done.
  destruct (enums_read enums_publicKey code) as [name|e]; [|done].
  simpl.
  destruct (enums_write enums_publicKey (JStr name)) as [algo|e]; [|done].
  destruct (parsePublicKeyParams algo _) as [[k pp]|e]; done.
Qed.

(** A write to one of the four hashed fields leaves the cache alone. *)
Lemma mutate_fingerprint (m : mutation Params) (p : packet Params) :
  fingerprint (mutate m p) = fingerprint p.
Proof. by destruct m. Qed.

(** C7, as the code has it: the fingerprint is a function of the version,
    the creation time, the algorithm and the public parameters as they
    are on the first request, so two packets that agree on them get the
    same fingerprint; nothing invalidates the cache, and after a write to
    any of the four fields [getFingerprintBytes()] still returns the
    digest stored by the first request. *)
Theorem fingerprint_fixed_by_first_request (p q p' : packet Params)
    (fp : bytes) (m : mutation Params) :
  fingerprint p = None →
  fingerprint q = None →
  version q = version p →
  created q = created p →
  algorithm q = algorithm p →
  publicParams q = publicParams p →
  getFingerprintBytes p = (p', Ok (Some fp)) →
  (getFingerprintBytes q).2 = Ok (Some fp)
  ∧ getFingerprintBytes (mutate m p') = (mutate m p', Ok (Some fp)).
Proof.
  intros Hp Hq Hv Hc Ha Hpp Hfp. split.
  - assert (Hw : ∀ v, writeForHash v q = writeForHash v p).
    { intros v. unfold PublicKey.writeForHash, writePublicKey, PublicKey.write.
      by rewrite Hv, Hc, Ha, Hpp. }
    revert Hfp. unfold PublicKey.getFingerprintBytes.
    rewrite Hp, Hq, Hv, Hw.
    destruct (writeForHash (version p) p) as [toHash|e]; [|by intros [=]].
    destruct (bool_decide (version p = JNum 5));
      [|destruct (bool_decide (version p = JNum 4))];
      simpl; intros [= _ Hres]; [by rewrite Hres..|congruence].
  - apply getFingerprintBytes_cached. rewrite mutate_fingerprint.
    revert Hfp. unfold PublicKey.getFingerprintBytes. rewrite Hp.
    destruct (writeForHash (version p) p) as [toHash|e]; [|by intros [=]].
    destruct (bool_decide (version p = JNum 5));
      [|destruct (bool_decide (version p = JNum 4))];
      simpl; intros [= <- Hres]; [by rewrite Hres..|congruence].
Qed.

End PublicKeyFacts.

Lemma getFingerprintBytes_first_request_witness :
  PublicKey.fingerprint Sample.rsa_key = None
  ∧ PublicKey.write Sample.params Sample.enums_publicKey
      Sample.serializeParams Sample.rsa_key = Ok Sample.rsa_key_bytes
  ∧ (let len := Z.of_nat (length Sample.rsa_key_bytes) in
     let fp :=
       if bool_decide (PublicKey.version Sample.rsa_key = JNum 4)
       then Digest.sha1 (x99 :: writeNumber len 2 ++ Sample.rsa_key_bytes)
       else Digest.sha256 (x9a :: writeNumber len 4 ++ Sample.rsa_key_bytes) in
     Sample.getFingerprintBytes Sample.rsa_key
     = (PublicKey.set_fingerprint (Some fp) Sample.rsa_key, Ok (Some fp))
     ∧ Sample.getFingerprintBytes
         (PublicKey.set_fingerprint (Some fp) Sample.rsa_key)
       = (PublicKey.set_fingerprint (Some fp) Sample.rsa_key, Ok (Some fp))).
Proof.
  split; [reflexivity|]. split; [vm_compute; reflexivity|].
  exact (getFingerprintBytes_first_request Sample.enums_publicKey
           Sample.serializeParams Digest.sha1 Digest.sha256
           Sample.rsa_key Sample.rsa_key_bytes eq_refl
           ltac:(vm_compute; reflexivity) (or_introl eq_refl)).
Defined.

(** The fingerprints of the sample key, in both versions, are those the
    reference digests give. *)
Example rsa_key_fingerprint_v4 :
  (Sample.getFingerprintBytes Sample.rsa_key).2
  = Ok (Some Sample.rsa_fingerprint).
Proof. vm_compute. reflexivity. Qed.

Example rsa_key_fingerprint_v5 :
  (Sample.getFingerprintBytes Sample.rsa_key_v5).2
  = Ok (Some (hexToUint8Array
      "595bab5abd9ba544dead99661554aeade727439411c67886d407cd91ebb1b4a5")).
Proof. vm_compute. reflexivity. Qed.


Example rsa_key_id :
  (Sample.getKeyID Sample.rsa_key).2
  = Ok (KeyID.mk (hexToUint8Array "ea9a2cddddc428c2")).
Proof. vm_compute. reflexivity. Qed.


(** C7, witness against the claim: the sample key is fingerprinted, then
    its creation time is set one second later.  [getFingerprintBytes()]
    still returns the first digest, which is not the digest of the packet
    as it now is (the one a packet with the same four fields and an empty
    cache gets). *)
Lemma fingerprint_cache_survives_mutation :
  let p1 := (Sample.getFingerprintBytes Sample.rsa_key).1 in
  let p2 := PublicKey.mutate (PublicKey.SetCreated Sample.later_date) p1 in
  (Sample.getFingerprintBytes p2).2
  = Ok (Some (hexToUint8Array "f1417d76967aa2b60fefd37eea9a2cddddc428c2"))
  ∧ (Sample.getFingerprintBytes (PublicKey.set_fingerprint None p2)).2
    = Ok (Some (hexToUint8Array "4f8b36b51be16482510430b1bb7a4099544b4889"))
  ∧ (Sample.getFingerprintBytes p2).2
    ≠ (Sample.getFingerprintBytes (PublicKey.set_fingerprint None p2)).2.
Proof.
  split; [vm_compute; reflexivity|].
  split; [vm_compute; reflexivity|].
  vm_compute. discriminate.
Qed.

Lemma fingerprint_fixed_by_first_request_witness :
  PublicKey.fingerprint Sample.rsa_key = None
  ∧ Sample.getFingerprintBytes Sample.rsa_key
    = (PublicKey.set_fingerprint (Some Sample.rsa_fingerprint) Sample.rsa_key,
       Ok (Some Sample.rsa_fingerprint))
  ∧ (Sample.getFingerprintBytes Sample.rsa_key).2
    = Ok (Some Sample.rsa_fingerprint)
  ∧ Sample.getFingerprintBytes
      (PublicKey.mutate (PublicKey.SetCreated Sample.later_date)
         (PublicKey.set_fingerprint (Some Sample.rsa_fingerprint)
            Sample.rsa_key))
    = (PublicKey.mutate (PublicKey.SetCreated Sample.later_date)
         (PublicKey.set_fingerprint (Some Sample.rsa_fingerprint)
            Sample.rsa_key),
       Ok (Some Sample.rsa_fingerprint)).
Proof.
  split; [reflexivity|]. split; [vm_compute; reflexivity|].
  exact (fingerprint_fixed_by_first_request Sample.enums_publicKey
           Sample.serializeParams Digest.sha1 Digest.sha256
           Sample.rsa_key Sample.rsa_key
           (PublicKey.set_fingerprint (Some Sample.rsa_fingerprint)
              Sample.rsa_key)
           Sample.rsa_fingerprint (PublicKey.SetCreated Sample.later_date)
           eq_refl eq_refl eq_refl eq_refl eq_refl eq_refl
           ltac:(vm_compute; reflexivity)).
Defined.

(** ** ECDSA signing *)

Section EcdsaFacts.

Import Ecdsa.

Context {Oid CryptoKey IndutnyCurve : Type}.
Variable Curve_new : Oid → result Curve.
Variables enums_hash enums_webHash : enum.
Variable webCrypto_importKey : Curve → string → keyPair → result CryptoKey.
Variable webCrypto_sign : Curve → string → CryptoKey → bytes → result bytes.
Variable nodeCrypto_sign : Curve → string → bytes → keyPair → result (Z * Z).
Variable getIndutnyCurve : string → result IndutnyCurve.
Variable indutny_sign : IndutnyCurve → bytes → option bytes → result (Z * Z).
Variable toArrayLike : Z → bytes.

Local Abbreviation ellipticSign :=
  (Ecdsa.ellipticSign IndutnyCurve getIndutnyCurve indutny_sign toArrayLike).
Local Abbreviation sign :=
  (Ecdsa.sign Oid Curve_new enums_hash enums_webHash CryptoKey
     webCrypto_importKey webCrypto_sign nodeCrypto_sign IndutnyCurve
     getIndutnyCurve indutny_sign toArrayLike).



End EcdsaFacts.

(** ** Packet list: partial-length framing *)

Section WriteFacts.

Import PacketList.

Lemma chunk_power_bounds (n : Z) :
  512 <= n →
  let p := Z.min (Z.log2 n) 30 in
  9 <= p <= 30 ∧ 2 ^ p <= n ∧ (p = 30 ∨ n < 2 ^ (p + 1)).
Proof.
  intros Hn p.
  assert (H9 : 9 <= Z.log2 n).
  { change 9 with (Z.log2 512). by apply Z.log2_le_mono. }
  destruct (Z.log2_spec n) as [Hlo Hhi]; [lia|].
  split; [lia|]. split.
  - transitivity (2 ^ Z.log2 n); [|done].
    apply Z.pow_le_mono_r; lia.
  - destruct (decide (Z.log2 n <= 30)) as [Hle|Hgt].
    + right. subst p. rewrite Z.min_l by done.
      by rewrite <- Z.add_1_r in Hhi.
    + left. lia.
Qed.

(** The code follows the framing of the specification: with the buffer
    holding [buffered], the streamed branch emits the rendering of the
    segments of the specification. *)
Lemma transform_spec_frame (input : list bytes) :
  ∀ (st : chunker) (buffered : bytes),
    concat (buffer st) = buffered →
    bufferLength st = Z.of_nat (length buffered) →
    transform process finish st input
    = Ok (render <$> spec_frame buffered input).
Proof.
  induction input as [|value rest IH]; intros st buffered Hbuf Hlen.
  - simpl. unfold finish, concatUint8Array. simpl.
    by rewrite Hbuf, Hlen.
  - cbn [transform spec_frame]. unfold process.
    assert (Hn : bufferLength st + Z.of_nat (length value)
                 = Z.of_nat (length (buffered ++ value))).
    { rewrite length_app. lia. }
    rewrite Hn. unfold minLength, log2_floor.
    set (n := Z.of_nat (length (buffered ++ value))).
    destruct (512 <=? n) eqn:Hge.
    + apply Z.leb_le in Hge.
      destruct (chunk_power_bounds n Hge) as [Hp [Hpow _]].
      set (p := Z.min (Z.log2 n) 30) in *.
      unfold writePartialLength.
      replace ((p <? 0) || (30 <? p)) with false
        by (symmetry; apply orb_false_intro; apply Z.ltb_ge; lia).
      cbn [mbind result_bind].
      assert (Hcat : concatUint8Array ([[u8 (224 + p)]] ++ (buffer st ++ [value]))
                     = u8 (224 + p) :: (buffered ++ value)).
      { unfold concatUint8Array. rewrite concat_app. simpl.
        rewrite concat_app, Hbuf. simpl. by rewrite app_nil_r. }
      rewrite Hcat.
      assert (Hsucc : Z.to_nat (1 + 2 ^ p) = S (Z.to_nat (2 ^ p))).
      { assert (0 < 2 ^ p) by (apply Z.pow_pos_nonneg; lia). lia. }
      rewrite Hsucc. unfold subarray_from, subarray.
      rewrite Nat.sub_0_r, drop_0. cbn [drop take].
      rewrite (IH _ (drop (Z.to_nat (2 ^ p)) (buffered ++ value))).
      * reflexivity.
      * simpl. by rewrite app_nil_r.
      * reflexivity.
    + cbn [mbind result_bind].
      rewrite (IH _ (buffered ++ value)).
      * reflexivity.
      * simpl. rewrite concat_app, Hbuf. simpl. by rewrite app_nil_r.
      * reflexivity.
Qed.




Variable supportsStreaming : Z → bool.


End WriteFacts.

(** ** Packet list: reading with parse errors *)

Section ReadFacts.

Import PacketList.

Context {P : Type}.
Variable tag_of : P → Z.
Variable supportsStreaming : Z → bool.
Variable allowedPackets : gmap Z (body → config → result P).
Variable disallowed : Z → error.

Local Abbreviation read_packet :=
  (PacketList.read_packet P allowedPackets disallowed).
Local Abbreviation on_token :=
  (PacketList.on_token P supportsStreaming allowedPackets disallowed).
Local Abbreviation pump :=
  (PacketList.pump P supportsStreaming allowedPackets disallowed).
Local Abbreviation pump_array :=
  (PacketList.pump_array P supportsStreaming allowedPackets disallowed).
Local Abbreviation output :=
  (PacketList.output P supportsStreaming allowedPackets disallowed).
Local Abbreviation drain := (PacketList.drain P tag_of supportsStreaming).
Local Abbreviation read :=
  (PacketList.read P tag_of supportsStreaming allowedPackets disallowed).

(** The debug log has no influence on the packets that are written nor on
    how the stream ends. *)
Lemma pump_log_irrelevant (cfg : config) (input : list framed) :
  ∀ (w : list P) (s : writer) (l1 l2 : list error),
    written (pump cfg input (mkPipe w s l1))
    = written (pump cfg input (mkPipe w s l2))
    ∧ status (pump cfg input (mkPipe w s l1))
      = status (pump cfg input (mkPipe w s l2)).
Proof.
  induction input as [|tok rest IH]; intros w s l1 l2.
  - destruct s; simpl; done.
  - destruct s; simpl; try done.
    destruct tok as [tag packet|e]; [|done].
    unfold PacketList.on_token. simpl.
    destruct (read_packet cfg tag packet); simpl; apply IH.
Qed.

(** The log only grows. *)
Lemma pump_log_prefix (cfg : config) (input : list framed) :
  ∀ st : pipe P, log st `prefix_of` log (pump cfg input st).
Proof.
  induction input as [|tok rest IH]; intros [w s l].
  - destruct s; simpl; done.
  - destruct s; simpl; try done.
    destruct tok as [tag packet|e]; [|done].
    etrans; [|apply IH].
    unfold PacketList.on_token. simpl.
    destruct (read_packet cfg tag packet); simpl; [done|].
    by apply prefix_app_r.
Qed.





End ReadFacts.

(** ** Secret-key packets *)

Section SecretKeyFacts.

Import SecretKey.

Context {Params : Type}.
Variables enums_publicKey enums_symmetric enums_aead : enum.
Variable serializeParams : Z → option Params → result bytes.
Variable serializePrivateParams : Z → gmap string bytes → result bytes.
Variable parsePrivateKeyParams :
  Z → bytes → option Params → result (gmap string bytes).
Variable cipher : string → option cipher_info.
Variable crypto_mode : string → option aead_mode.
Variable cfb_decrypt : jsval → bytes → option bytes → option bytes → result bytes.
Variable hash_sha1 : bytes → bytes.
Variable produceKey : S2K.t → string → nat → result bytes.

Local Abbreviation decrypt :=
  (SecretKey.decrypt Params enums_publicKey parsePrivateKeyParams cipher
     crypto_mode cfb_decrypt hash_sha1 produceKey).
Local Abbreviation produceEncryptionKey :=
  (SecretKey.produceEncryptionKey cipher produceKey).

(** C5: the packet is protected (no dummy, not decrypted), its usage
    octet is 253 or 254 and the key derived from the passphrase does not
    decrypt the material: for 253 the AEAD decryption throws
    "Authentication tag mismatch", for 254 the last twenty octets of the
    CFB decryption are not the SHA-1 of the octets before them.  Then
    [decrypt] throws an error whose message starts with "Incorrect key
    passphrase", and leaves the packet, all its fields, and the store as
    they were. *)
Theorem decrypt_wrong_passphrase (passphrase : string) (h : heap)
    (this : packet Params) (key : bytes) :
  isDummy this = false →
  isDecrypted this = false →
  produceEncryptionKey (s2k this) passphrase (symmetric this) = Ok key →
  (s2kUsage this = JNum 253
   ∧ ∃ mode inst v err,
       at_name crypto_mode (aead this) = Some mode
       ∧ instantiate mode (symmetric this) key = Ok inst
       ∧ iv this = Some v
       ∧ aead_decrypt inst (keyMaterial this) (subarray 0 (ivLength mode) v) []
         = Throw err
       ∧ err_message err = "Authentication tag mismatch")
  ∨ (s2kUsage this = JNum 254
     ∧ ∃ cleartextWithHash,
         cfb_decrypt (symmetric this) key (keyMaterial this) (iv this)
         = Ok cleartextWithHash
         ∧ hash_sha1 (subarray_drop_last 20 cleartextWithHash)
           ≠ subarray_last 20 cleartextWithHash) →
  ∃ e,
    decrypt passphrase h this = (h, this, Throw e)
    ∧ incorrect_passphrase e = true.
Proof.
  intros Hdummy Hdec Hkey Hwrong.
  unfold SecretKey.decrypt. rewrite Hdummy, Hdec.
  destruct Hwrong as [[Hu (mode & inst & v & err & Hm & Hi & Hiv & Hd & Hmsg)]
                     |[Hu (cwh & Hcfb & Hne)]];
    rewrite Hu; simpl; rewrite Hkey.
  - unfold aead_cleartext. rewrite Hm, Hi. simpl. rewrite Hiv, Hd, Hmsg.
    simpl. eexists. split; reflexivity.
  - rewrite Hcfb. simpl. unfold equalsUint8Array.
    rewrite bool_decide_false by done. simpl.
    eexists. split; reflexivity.
Qed.

(** *** Clearing the private parameters *)

(** Zero-filling a list of arrays, one after the other. *)
Lemma lookup_foldl_fill (ls : list loc) :
  ∀ (m : gmap loc bytes) (l : loc),
    foldl (λ m l, alter zeroed l m) m ls !! l
    = if decide (l ∈ ls) then zeroed <$> m !! l else m !! l.
Proof.
  induction ls as [|l0 ls IH]; intros m l; simpl; [done|].
  rewrite IH.
  assert (Hidem : ∀ o : option bytes, zeroed <$> (zeroed <$> o) = zeroed <$> o).
  { intros [a|]; simpl; [|done]. unfold zeroed. by rewrite length_replicate. }
  destruct (decide (l = l0)) as [->|Hne].
  - rewrite lookup_alter_eq. rewrite Hidem.
    rewrite (decide_True (P := l0 ∈ l0 :: ls)) by left.
    by destruct (decide (l0 ∈ ls)).
  - rewrite lookup_alter_ne by done.
    destruct (decide (l ∈ ls)) as [Hin|Hnin].
    + by rewrite decide_True by (by right).
    + rewrite decide_False; [done|].
      intros [?|?]%elem_of_cons; done.
Qed.

(** Deleting a list of properties, one after the other. *)
Lemma lookup_foldl_delete (keys : list string) :
  ∀ (obj : gmap string loc) (k : string),
    foldl (λ obj k, delete k obj) obj keys !! k
    = if decide (k ∈ keys) then None else obj !! k.
Proof.
  induction keys as [|k0 keys IH]; intros obj k; simpl; [done|].
  rewrite IH.
  destruct (decide (k = k0)) as [->|Hne].
  - rewrite lookup_delete_eq.
    rewrite (decide_True (P := k0 ∈ k0 :: keys)) by left.
    by destruct (decide (k0 ∈ keys)).
  - rewrite lookup_delete_ne by done.
    destruct (decide (k ∈ keys)) as [Hin|Hnin].
    + by rewrite decide_True by (by right).
    + rewrite decide_False; [done|].
      intros [?|?]%elem_of_cons; done.
Qed.

(** The loop of [clearPrivateParams] over the entries of the object. *)
Lemma foldl_clear_param (o : loc) (kvs : list (string * loc)) :
  ∀ (h : heap) (obj : gmap string loc),
    NoDup kvs.*1 →
    (∀ k l, (k, l) ∈ kvs → obj !! k = Some l) →
    objects h !! o = Some obj →
    foldl (clear_param o) h kvs.*1
    = mkHeap (foldl (λ m l, alter zeroed l m) (arrays h) kvs.*2)
        (<[o := foldl (λ obj k, delete k obj) obj kvs.*1]> (objects h)).
Proof.
  induction kvs as [|[k l] kvs IH]; intros h obj Hnd Hin Hobj; simpl.
  - destruct h as [a os]. simpl in *. by rewrite insert_id.
  - apply NoDup_cons in Hnd as [Hk Hnd].
    assert (Hstep : clear_param o h k
                    = mkHeap (alter zeroed l (arrays h))
                        (<[o := delete k obj]> (objects h))).
    { unfold clear_param. rewrite Hobj. simpl.
      rewrite (Hin k l) by left.
      unfold delete_property, fill_zero. simpl. f_equal.
      apply map_eq. intros o'. destruct (decide (o' = o)) as [->|Hne].
      - by rewrite lookup_alter_eq, lookup_insert_eq, Hobj.
      - by rewrite lookup_alter_ne, lookup_insert_ne. }
    rewrite Hstep.
    rewrite (IH _ (delete k obj)); simpl.
    + by rewrite insert_insert_eq.
    + done.
    + intros k' l' Hin'. rewrite lookup_delete_ne.
      * apply Hin. by right.
      * intros ->. apply Hk. apply list_elem_of_fmap. by exists (k', l').
    + by rewrite lookup_insert_eq.
Qed.

Local Abbreviation clearPrivateParams := (SecretKey.clearPrivateParams Params).

(** C6, as the code has it: for a packet that is no dummy and whose
    private parameters are the object [obj], [clearPrivateParams] fills
    every array of [obj] with zeros, deletes every property of [obj], and
    sets [privateParams] to [null] and [isEncrypted] to [true].  Every
    retained reference to one of the arrays sees zeros only, and no other
    array is touched.  The other fields are left as they are, [keyMaterial]
    among them. *)
Theorem clearPrivateParams_zeroes_arrays (h : heap) (this : packet Params)
    (o : loc) (obj : gmap string loc) :
  isDummy this = false →
  privateParams this = Some o →
  objects h !! o = Some obj →
  ∃ h',
    clearPrivateParams h this
    = (h',
       mkPacket (pub this) (keyMaterial this) (Some true) (s2kUsage this)
         (s2k this) (symmetric this) (aead this) None (iv this),
       Ok ())
    ∧ (∀ name l, obj !! name = Some l →
         arrays h' !! l = zeroed <$> arrays h !! l)
    ∧ (∀ l, (∀ name, obj !! name ≠ Some l) →
         arrays h' !! l = arrays h !! l)
    ∧ objects h' !! o = Some ∅.
Proof.
  intros Hdummy Hpp Hobj.
  unfold SecretKey.clearPrivateParams. rewrite Hdummy, Hpp. simpl.
  rewrite Hobj. simpl.
  eexists. split; [reflexivity|].
  rewrite (foldl_clear_param o (map_to_list obj) h obj).
  - simpl. split; [|split].
    + intros name l Hl. rewrite lookup_foldl_fill.
      rewrite decide_True; [done|].
      apply list_elem_of_fmap. exists (name, l).
      split; [done|]. by apply elem_of_map_to_list.
    + intros l Hl. rewrite lookup_foldl_fill.
      rewrite decide_False; [done|].
      intros [[name l'] [-> Hin]]%list_elem_of_fmap.
      apply elem_of_map_to_list in Hin. by apply (Hl name).
    + rewrite lookup_insert_eq. f_equal. apply map_eq. intros k.
      rewrite lookup_foldl_delete, lookup_empty.
      destruct (decide (k ∈ (map_to_list obj).*1)) as [|Hnin]; [done|].
      destruct (obj !! k) as [l|] eqn:Hk; [|done].
      exfalso. apply Hnin. apply list_elem_of_fmap. exists (k, l).
      split; [done|]. by apply elem_of_map_to_list.
  - apply NoDup_fst_map_to_list.
  - intros k l Hin. by apply elem_of_map_to_list.
  - done.
Qed.

End SecretKeyFacts.

(** ** The properties at the sample values *)


(** The same request with the message as an array goes to the platform. *)
Example sign_array_uses_platform_tier :
  (Sample.sign "p256" 8 (Some (Bytes [x68; x69])) [x04] [x07] (Some [x09])).1
  = [Ecdsa.WebCrypto "importKey"; Ecdsa.WebCrypto "sign"]
  ∧ (Sample.sign "p384" 8 (Some (Bytes [x68; x69])) [x04] [x07]
       (Some [x09])).1
    = [Ecdsa.NodeCrypto "sign"]
  ∧ (Sample.sign "p384" 8 (Some (Stream [[x68; x69]])) [x04] [x07]
       (Some [x09])).1
    = [Ecdsa.Indutny "getIndutnyCurve"; Ecdsa.Indutny "sign"].
Proof. vm_compute. done. Qed.


(** A body of 600 octets in two chunks of 300: nothing is emitted for the
    first chunk, a segment of 512 octets for the second, and the residue
    of 88 octets at the end. *)
Example write_streamed_600 :
  PacketList.write_packet Sample.supportsStreaming 11
    (Stream Sample.streamed_body)
  = Ok [[xcb];
        xe9 :: replicate 300 x61 ++ replicate 212 x62;
        x58 :: replicate 88 x62].
Proof. vm_compute. reflexivity. Qed.

(** A body of 4096 octets in one chunk: one segment of 2^12 octets and an
    empty residue. *)
Example write_streamed_4096 :
  PacketList.write_streamed [replicate 4096 x61]
  = Ok [xec :: replicate 4096 x61; [x00]].
Proof. vm_compute. reflexivity. Qed.


(** Three packets, the second with a key body cut short.  A tolerant read
    yields the first and the third and logs the error, from an array and
    from a stream; a strict read fails with the error. *)
Example tolerant_read_skips_bad_packet :
  (∀ bytes,
     Sample.read_list bytes (PacketList.mkConfig true)
       [Sample.good_key; PacketList.Token 6 Sample.bad_key; Sample.user_id]
     = Ok ([(6, Sample.rsa_key_bytes); (13, [x61; x6c; x69; x63; x65])],
           None))
  ∧ PacketList.log
      (Sample.pump (PacketList.mkConfig true)
         [Sample.good_key; PacketList.Token 6 Sample.bad_key; Sample.user_id]
         (PacketList.mkPipe [] PacketList.Open []))
    = [Error "Error reading MPIs"].
Proof. split; [intros [|]|]; vm_compute; reflexivity. Qed.

Example strict_read_fails_on_bad_packet :
  ∀ bytes,
    Sample.read_list bytes (PacketList.mkConfig false)
      [Sample.good_key; PacketList.Token 6 Sample.bad_key; Sample.user_id]
    = Throw (Error "Error reading MPIs").
Proof. intros [|]; vm_compute; reflexivity. Qed.

(** A literal data packet, which streams, and then the key body cut
    short.  Read from a stream, the list holds the literal data and the
    error is what its [stream] field ends in; read from an array, the
    list read throws the error. *)
Example strict_read_after_streaming_packet :
  Sample.read_list PacketList.OfStream (PacketList.mkConfig false)
    [PacketList.Token 11 (Stream [[x68; x69]]);
     PacketList.Token 6 Sample.bad_key]
  = Ok ([(11, [x68; x69])],
        Some ([], PacketList.Errored (Error "Error reading MPIs")))
  ∧ Sample.read_list PacketList.OfArray (PacketList.mkConfig false)
      [PacketList.Token 11 (Stream [[x68; x69]]);
       PacketList.Token 6 Sample.bad_key]
    = Throw (Error "Error reading MPIs").
Proof. split; vm_compute; reflexivity. Qed.

Lemma decrypt_wrong_passphrase_witness :
  let key :=
    take 32 (Digest.sha256 ([x41; x42; x43; x44; x45; x46; x47; x48]
                              ++ String.list_byte_of_string "wrong")) in
  SecretKey.isDummy Sample.locked_254 = false
  ∧ SecretKey.isDecrypted Sample.locked_254 = false
  ∧ SecretKey.produceEncryptionKey Sample.cipher Sample.produceKey
      (SecretKey.s2k Sample.locked_254) "wrong"
      (SecretKey.symmetric Sample.locked_254) = Ok key
  ∧ SecretKey.s2kUsage Sample.locked_254 = JNum 254
  ∧ (∃ cleartextWithHash,
       Sample.cfb (SecretKey.symmetric Sample.locked_254) key
         (SecretKey.keyMaterial Sample.locked_254)
         (SecretKey.iv Sample.locked_254) = Ok cleartextWithHash
       ∧ Digest.sha1 (subarray_drop_last 20 cleartextWithHash)
         ≠ subarray_last 20 cleartextWithHash)
  ∧ ∃ e,
      Sample.decrypt "wrong" Sample.store Sample.locked_254
      = (Sample.store, Sample.locked_254, Throw e)
      ∧ incorrect_passphrase e = true.
Proof.
  intros key.
  assert (Hkey : SecretKey.produceEncryptionKey Sample.cipher
                   Sample.produceKey (SecretKey.s2k Sample.locked_254)
                   "wrong" (SecretKey.symmetric Sample.locked_254) = Ok key).
  { reflexivity. }
  assert (Hcfb : ∃ cleartextWithHash,
             Sample.cfb (SecretKey.symmetric Sample.locked_254) key
               (SecretKey.keyMaterial Sample.locked_254)
               (SecretKey.iv Sample.locked_254) = Ok cleartextWithHash
             ∧ Digest.sha1 (subarray_drop_last 20 cleartextWithHash)
               ≠ subarray_last 20 cleartextWithHash).
  { eexists. split; [reflexivity|]. vm_compute. discriminate. }
  split; [reflexivity|]. split; [reflexivity|]. split; [exact Hkey|].
  split; [reflexivity|]. split; [exact Hcfb|].
  exact (decrypt_wrong_passphrase Sample.enums_publicKey
           Sample.parsePrivateKeyParams Sample.cipher Sample.crypto_mode
           Sample.cfb Digest.sha1 Sample.produceKey "wrong" Sample.store
           Sample.locked_254 key eq_refl eq_refl Hkey
           (or_intror (conj eq_refl Hcfb))).
Defined.

(** With the right passphrase both protections open and the parameter [d]
    is back; with a wrong one the AEAD protection rejects as well. *)
Example decrypt_right_passphrase :
  (Sample.decrypt "correct horse" Sample.store Sample.locked_254).2 = Ok None
  ∧ (let '(h, p, _) :=
       Sample.decrypt "correct horse" Sample.store Sample.locked_254 in
     SecretKey.privateParams p ≫= deref h)
    = Some {[ "d" := Sample.secret_d ]}
  ∧ (Sample.decrypt "correct horse" Sample.store Sample.locked_253).2
    = Ok None.
Proof. vm_compute. done. Qed.

Example decrypt_wrong_passphrase_aead :
  Sample.decrypt "wrong" Sample.store Sample.locked_253
  = (Sample.store, Sample.locked_253,
     Throw (Error "Incorrect key passphrase: Authentication tag mismatch")).
Proof. vm_compute. reflexivity. Qed.

(** C6, witness against the claim: the sample key holds its private
    parameter [d] in the clear.  [write()] serialises it into
    [keyMaterial]; [clearPrivateParams()] then zeroes the array of [d]
    and drops [privateParams], but [keyMaterial] still holds the octets
    of [d] after their two-octet bit count. *)
Lemma clearPrivateParams_keeps_keyMaterial :
  let written := (Sample.write_secret Sample.store Sample.unlocked).1 in
  let cleared :=
    SecretKey.clearPrivateParams Sample.params Sample.store written in
  SecretKey.isDummy written = false
  ∧ SecretKey.isDecrypted written = true
  ∧ SecretKey.privateParams written ≫= deref Sample.store
    = Some {[ "d" := Sample.secret_d ]}
  ∧ cleared.2 = Ok ()
  ∧ SecretKey.privateParams cleared.1.2 = None
  ∧ arrays cleared.1.1 !! 1%nat = Some [x00; x00; x00; x00]
  ∧ SecretKey.keyMaterial cleared.1.2 = Some ([x00; x1f] ++ Sample.secret_d)
  ∧ Sample.secret_d = [x5e; xc2; x17; x9a].
Proof. vm_compute. repeat split; reflexivity. Qed.

Lemma clearPrivateParams_zeroes_arrays_witness :
  SecretKey.isDummy Sample.unlocked = false
  ∧ SecretKey.privateParams Sample.unlocked = Some 1%nat
  ∧ objects Sample.store !! 1%nat = Some {[ "d" := 1%nat ]}
  ∧ ∃ h',
      SecretKey.clearPrivateParams Sample.params Sample.store Sample.unlocked
      = (h',
         SecretKey.mkPacket (SecretKey.pub Sample.unlocked)
           (SecretKey.keyMaterial Sample.unlocked) (Some true)
           (SecretKey.s2kUsage Sample.unlocked)
           (SecretKey.s2k Sample.unlocked)
           (SecretKey.symmetric Sample.unlocked)
           (SecretKey.aead Sample.unlocked) None
           (SecretKey.iv Sample.unlocked),
         Ok ())
      ∧ (∀ name l, ({[ "d" := 1%nat ]} : gmap string loc) !! name = Some l →
           arrays h' !! l = zeroed <$> arrays Sample.store !! l)
      ∧ (∀ l, (∀ name, ({[ "d" := 1%nat ]} : gmap string loc) !! name
                       ≠ Some l) →
           arrays h' !! l = arrays Sample.store !! l)
      ∧ objects h' !! 1%nat = Some ∅.
Proof.
  assert (Hobj : objects Sample.store !! 1%nat = Some {[ "d" := 1%nat ]}).
  { vm_compute. reflexivity. }
  split; [reflexivity|]. split; [reflexivity|]. split; [exact Hobj|].
  exact (clearPrivateParams_zeroes_arrays Sample.store Sample.unlocked
           1%nat {[ "d" := 1%nat ]} eq_refl eq_refl Hobj).
Defined.

(** The array of [d] after the call, seen through a retained reference. *)
Example clearPrivateParams_retained_view :
  arrays (SecretKey.clearPrivateParams Sample.params Sample.store
            Sample.unlocked).1.1 !! 1%nat
  = Some [x00; x00; x00; x00].
Proof. vm_compute. reflexivity. Qed.

(** The reference digests on the test vectors of FIPS 180. *)
Example sha1_abc :
  uint8ArrayToHex (Digest.sha1 ["a"; "b"; "c"]%byte)
  = "a9993e364706816aba3e25717850c26c9cd0d89d".
Proof. vm_compute. reflexivity. Qed.

Example sha1_two_blocks :
  uint8ArrayToHex
    (Digest.sha1
       (String.list_byte_of_string
          "abcdbcdecdefdefgefghfghighijhijkijkljklmklmnlmnomnopnopq"))
  = "84983e441c3bd26ebaae4aa1f95129e5e54670f1".
Proof. vm_compute. reflexivity. Qed.

Example sha256_abc :
  uint8ArrayToHex (Digest.sha256 ["a"; "b"; "c"]%byte)
  = "ba7816bf8f01cfea414140de5dae2223b00361a396177a9cb410ff61f20015ad".
Proof. vm_compute. reflexivity. Qed.

Example sha256_two_blocks :
  uint8ArrayToHex
    (Digest.sha256
       (String.list_byte_of_string
          "abcdbcdecdefdefgefghfghighijhijkijkljklmklmnlmnomnopnopq"))
  = "248d6a61d20638b8e5c026930c3e6039a33ce45964ff2167f6ecedd419db06c1".
Proof. vm_compute. reflexivity. Qed.

(** * Further properties of the code *)

(** ** Numbers on the wire *)

Lemma byte_val_u8 (z : Z) : byte_val (u8 z) = z mod 256.
Proof.
  unfold u8, byte_val.
  assert (Hr : 0 <= z mod 256 < 256) by (apply Z.mod_pos_bound; lia).
  destruct (Byte.of_N (Z.to_N (z mod 256))) as [b|] eqn:Hb.
  - apply Byte.to_of_N in Hb. rewrite Hb. lia.
  - apply Byte.of_N_None_iff in Hb. lia.
Qed.

(** A four-octet number is read back as it was written. *)
Lemma readNumber_writeNumber_4 (n : Z) :
  0 <= n < 2 ^ 32 → readNumber (writeNumber n 4) = n.
Proof.
  intros Hn. unfold writeNumber, readNumber. simpl.
  rewrite !byte_val_u8, !Z.shiftr_div_pow2 by lia.
  change (2 ^ 24) with 16777216. change (2 ^ 16) with 65536.
  change (2 ^ 8) with 256. change (2 ^ 0) with 1.
  change (2 ^ 32) with 4294967296 in Hn.
  rewrite Z.div_1_r.
  Z.to_euclidean_division_equations. lia.
Qed.

Lemma length_writeNumber (n : Z) (k : nat) : length (writeNumber n k) = k.
Proof. unfold writeNumber. by rewrite length_fmap, length_seq. Qed.

(** ** Public-key packets: reading, comparing, identifying *)

Section PublicKeyCodecFacts.

Import PublicKey.

Context {Params : Type}.
Variable enums_publicKey : enum.
Variable parsePublicKeyParams : Z → bytes → result (nat * Params).
Variable serializeParams : Z → option Params → result bytes.
Variables Sha1 Sha256 : bytes → bytes.

Local Abbreviation read :=
  (PublicKey.read Params enums_publicKey parsePublicKeyParams).
Local Abbreviation write := (PublicKey.write Params enums_publicKey serializeParams).
Local Abbreviation writeForHash :=
  (PublicKey.writeForHash Params enums_publicKey serializeParams).
Local Abbreviation hasSameFingerprintAs :=
  (PublicKey.hasSameFingerprintAs Params enums_publicKey serializeParams).
Local Abbreviation getFingerprintBytes :=
  (PublicKey.getFingerprintBytes Params enums_publicKey serializeParams
     Sha1 Sha256).
Local Abbreviation getFingerprint :=
  (PublicKey.getFingerprint Params enums_publicKey serializeParams
     Sha1 Sha256).
Local Abbreviation getKeyID :=
  (PublicKey.getKeyID Params enums_publicKey serializeParams Sha1 Sha256).

(** X1: [read] accepts versions 4 and 5 only.  For a body whose first
    octet is neither, the empty body included, it throws "Version N of
    the key packet is unsupported." with N the octet ([undefined] for the
    empty body); the [version] field has been overwritten by then and no
    other field has changed. *)
Theorem read_rejects_other_versions (b : bytes) (this : packet Params) :
  index b 0 ≠ JNum 4 →
  index b 0 ≠ JNum 5 →
  read b this
  = (set_version (index b 0) this,
     Throw (Error ("Version " +:+ js_to_string (index b 0)
                     +:+ " of the key packet is unsupported.")))
  ∧ (b = [] →
     (read b this).2
     = Throw (Error "Version undefined of the key packet is unsupported.")).
Proof.
  intros H4 H5.
  assert (Hr : read b this
               = (set_version (index b 0) this,
                  Throw (Error ("Version " +:+ js_to_string (index b 0)
                                  +:+ " of the key packet is unsupported.")))).
  { unfold PublicKey.read. simpl.
    rewrite bool_decide_false; [done|]. intros [?|?]; done. }
  split; [exact Hr|]. intros ->. by rewrite Hr.
Qed.

(** X2: what [write] emits, [read] reads back.  For a packet of version 4
    or 5 whose creation time is a whole number of seconds that fits four
    octets, whose algorithm has a code that fits one octet, and whose
    parameters the codec parses back from their serialisation, [read] on
    the octets of [write()] consumes all of them, restores the version,
    the creation time and the parameters, stores a name of the same
    algorithm code, and a second [write()] gives the same octets. *)
Theorem read_write_roundtrip (p q : packet Params) (pk params : bytes)
    (secs algo : Z) (pp : Params) :
  version p = JNum 4 ∨ version p = JNum 5 →
  created p = secs * 1000 →
  0 <= secs < 2 ^ 32 →
  0 <= algo < 256 →
  enums_write enums_publicKey (algorithm p) = Ok algo →
  publicParams p = Some pp →
  serializeParams algo (Some pp) = Ok params →
  parsePublicKeyParams algo params = Ok (length params, pp) →
  write p = Ok pk →
  ∃ q',
    read pk q = (q', Ok (length pk))
    ∧ version q' = version p
    ∧ created q' = created p
    ∧ enums_write enums_publicKey (algorithm q') = Ok algo
    ∧ publicParams q' = Some pp
    ∧ write q' = Ok pk.
Proof.
  intros Hv Hc Hsecs Halgo Henum Hpp Hser Hparse Hw.
  assert (Hname : ∃ name, enums_read enums_publicKey algo = Ok name
                          ∧ enums_write enums_publicKey (JStr name) = Ok algo).
  { unfold enums_write in Henum.
    assert (Hin : ∃ name0, enums_publicKey !! name0 = Some algo).
    { destruct (algorithm p) as [| |n|s]; simpl in Henum.
      - destruct (enums_publicKey !! "undefined") eqn:E; [|done].
        injection Henum as ->. eauto.
      - destruct (enums_publicKey !! "null") eqn:E; [|done].
        injection Henum as ->. eauto.
      - destruct (enums_read enums_publicKey n) as [nm|]; [|done].
        simpl in Henum.
        destruct (enums_publicKey !! nm) eqn:E; [|done].
        injection Henum as ->. eauto.
      - destruct (enums_publicKey !! s) eqn:E; [|done].
        injection Henum as ->. eauto. }
    destruct Hin as [name0 Hin].
    destruct (byValue_complete _ _ _ Hin) as [name Hrev].
    exists name. unfold enums_read, enums_write. rewrite Hrev. simpl.
    split; [done|]. by rewrite (byValue_sound _ _ _ Hrev). }
  destruct Hname as (name & Hread & Hwrite).
  assert (Hdate : readDate (writeDate (created p)) = created p).
  { unfold readDate, writeDate. rewrite Hc, Z.div_mul by lia.
    by rewrite readNumber_writeNumber_4. }
  assert (Hcode : byte_val (u8 algo) = algo).
  { rewrite byte_val_u8. apply Z.mod_small. lia. }
  unfold PublicKey.write in Hw. rewrite Henum in Hw. simpl in Hw.
  rewrite Hpp, Hser in Hw. simpl in Hw.
  destruct Hv as [Hv|Hv]; rewrite Hv in Hw; simpl in Hw;
    injection Hw as <-.
  - eexists. split; [|split; [|split; [|split; [|split]]]].
    + unfold PublicKey.read. simpl.
      unfold index. simpl. rewrite Hcode, Hread. simpl.
      rewrite Hwrite. simpl. unfold subarray_from. simpl.
      rewrite app_nil_r, Hparse. simpl. reflexivity.
    + simpl. by rewrite Hv.
    + simpl. etrans; [|exact Hdate]. reflexivity.
    + simpl. exact Hwrite.
    + done.
    + unfold PublicKey.write. simpl. rewrite Hwrite. simpl.
      rewrite Hser. simpl.
      repeat f_equal; try (etrans; [|exact Hdate]; reflexivity).
      all: f_equal; etrans; [|exact Hdate]; reflexivity.
  - eexists. split; [|split; [|split; [|split; [|split]]]].
    + unfold PublicKey.read. simpl.
      unfold index. simpl. rewrite Hcode, Hread. simpl.
      rewrite Hwrite. simpl. unfold subarray_from. simpl.
      rewrite app_nil_r, Hparse. simpl. reflexivity.
    + simpl. by rewrite Hv.
    + simpl. etrans; [|exact Hdate]. reflexivity.
    + simpl. exact Hwrite.
    + done.
    + unfold PublicKey.write. simpl. rewrite Hwrite. simpl.
      rewrite Hser. simpl.
      repeat f_equal; try (etrans; [|exact Hdate]; reflexivity).
      all: f_equal; etrans; [|exact Hdate]; reflexivity.
Qed.

End PublicKeyCodecFacts.

Section PublicKeyIdentityFacts.

Import PublicKey.

Context {Params : Type}.
Variable enums_publicKey : enum.
Variable parsePublicKeyParams : Z → bytes → result (nat * Params).
Variable serializeParams : Z → option Params → result bytes.
Variables Sha1 Sha256 : bytes → bytes.

Local Abbreviation read :=
  (PublicKey.read Params enums_publicKey parsePublicKeyParams).
Local Abbreviation write := (PublicKey.write Params enums_publicKey serializeParams).
Local Abbreviation writeForHash :=
  (PublicKey.writeForHash Params enums_publicKey serializeParams).
Local Abbreviation hasSameFingerprintAs :=
  (PublicKey.hasSameFingerprintAs Params enums_publicKey serializeParams).
Local Abbreviation getFingerprintBytes :=
  (PublicKey.getFingerprintBytes Params enums_publicKey serializeParams
     Sha1 Sha256).
Local Abbreviation getFingerprint :=
  (PublicKey.getFingerprint Params enums_publicKey serializeParams
     Sha1 Sha256).
Local Abbreviation getKeyID :=
  (PublicKey.getKeyID Params enums_publicKey serializeParams Sha1 Sha256).

(** The value [getFingerprintBytes] returns on a first request is fixed
    by the version and by what [writeForHash] gives. *)
Lemma getFingerprintBytes_result (p q : packet Params) :
  fingerprint p = None →
  fingerprint q = None →
  version p = version q →
  writeForHash (version p) p = writeForHash (version q) q →
  (getFingerprintBytes p).2 = (getFingerprintBytes q).2.
Proof.
  intros Hp Hq Hv Hw. unfold PublicKey.getFingerprintBytes.
  rewrite Hp, Hq, Hw, Hv.
  destruct (writeForHash (version q) q); [|done].
  repeat case_bool_decide; simpl; try done.
  by rewrite Hp, Hq.
Qed.

(** The value [getKeyID] returns on a first request is fixed by the
    version and by what [getFingerprintBytes] returns. *)
Lemma getKeyID_result (p q : packet Params) :
  keyID p = None →
  keyID q = None →
  version p = version q →
  (getFingerprintBytes p).2 = (getFingerprintBytes q).2 →
  (getKeyID p).2 = (getKeyID q).2.
Proof.
  intros Hp Hq Hv Hfp. unfold PublicKey.getKeyID.
  rewrite Hp, Hq. cbn [version set_keyID]. rewrite Hv.
  unfold PublicKey.getFingerprint.
  rewrite !getFingerprintBytes_set_keyID.
  destruct (getFingerprintBytes p) as [p1 r1].
  destruct (getFingerprintBytes q) as [q1 r2].
  simpl in Hfp. subst r2. simpl.
  repeat case_bool_decide; try done; by destruct r1 as [[fp|]|e].
Qed.

(** X3: [hasSameFingerprintAs] is sound.  When it answers [true] for two
    packets whose caches are empty, [getFingerprintBytes()] returns the
    same for both, and so does [getKeyID()]: no digest has to be computed
    to know that the fingerprints agree. *)
Theorem hasSameFingerprintAs_sound (p q : packet Params) :
  hasSameFingerprintAs p q = Ok true →
  fingerprint p = None → keyID p = None →
  fingerprint q = None → keyID q = None →
  (getFingerprintBytes p).2 = (getFingerprintBytes q).2
  ∧ (getKeyID p).2 = (getKeyID q).2.
Proof.
  intros Hsame Hfp Hkp Hfq Hkq.
  unfold PublicKey.hasSameFingerprintAs in Hsame.
  case_bool_decide as Hv; [|done].
  unfold writePublicKey in Hsame.
  destruct (write p) as [a|] eqn:Ha; [|done].
  destruct (write q) as [b|] eqn:Hb; [|done].
  simpl in Hsame. injection Hsame as Heq.
  apply bool_decide_eq_true in Heq. subst b.
  assert (Hfpr : (getFingerprintBytes p).2 = (getFingerprintBytes q).2).
  { apply getFingerprintBytes_result; try done.
    unfold PublicKey.writeForHash, writePublicKey. by rewrite Ha, Hb, Hv. }
  split; [exact Hfpr|]. by apply getKeyID_result.
Qed.

(** X4: [read] resets neither cache.  A packet that has answered
    [getFingerprintBytes()] and is then read again from other octets
    still answers with the fingerprint of the key it held before, whether
    the second [read] returns or throws. *)
Theorem reread_keeps_fingerprint (b : bytes) (p : packet Params)
    (fp : bytes) :
  fingerprint p = Some fp →
  getFingerprintBytes (read b p).1 = ((read b p).1, Ok (Some fp)).
Proof.
  intros Hfp. apply getFingerprintBytes_cached.
  destruct (read_keeps_caches enums_publicKey parsePublicKeyParams b p)
    as [Hkeep _].
  by rewrite Hkeep.
Qed.

(** X5: a failed [getKeyID()] leaves an empty identifier behind.  The
    fresh [KeyID] is stored before the fingerprint is computed; when that
    throws (the packet cannot be written yet), [getKeyID()] throws too,
    and every later [getKeyID()] returns the empty identifier, also once
    the fields have been set by [read]. *)
Theorem getKeyID_failure_is_cached (p : packet Params) (e : error)
    (b : bytes) :
  keyID p = None →
  fingerprint p = None →
  version p = JNum 4 ∨ version p = JNum 5 →
  write p = Throw e →
  getKeyID p = (set_keyID (Some KeyID.new) p, Throw e)
  ∧ (getKeyID (set_keyID (Some KeyID.new) p)).2 = Ok KeyID.new
  ∧ (getKeyID (read b (set_keyID (Some KeyID.new) p)).1).2 = Ok KeyID.new.
Proof.
  intros Hk Hf Hv Hw.
  assert (Hfp : getFingerprintBytes p = (p, Throw e)).
  { unfold PublicKey.getFingerprintBytes, PublicKey.writeForHash,
      writePublicKey. by rewrite Hf, Hw. }
  split; [|split].
  - unfold PublicKey.getKeyID. rewrite Hk. cbn [version set_keyID].
    unfold PublicKey.getFingerprint.
    rewrite getFingerprintBytes_set_keyID, Hfp. simpl.
    destruct Hv as [-> | ->]; simpl; by destruct p.
  - reflexivity.
  - destruct (read_keeps_caches enums_publicKey parsePublicKeyParams b
                (set_keyID (Some KeyID.new) p)) as [_ Hkeep].
    unfold PublicKey.getKeyID. by rewrite Hkeep.
Qed.

(** X6: for a version other than 4 and 5 no fingerprint is computed:
    [getFingerprintBytes()] returns [null] and leaves the cache empty,
    and [getKeyID()] returns an empty identifier. *)
Theorem unsupported_version_has_no_fingerprint (p : packet Params)
    (pk : bytes) :
  version p ≠ JNum 4 →
  version p ≠ JNum 5 →
  fingerprint p = None →
  keyID p = None →
  write p = Ok pk →
  getFingerprintBytes p = (p, Ok None)
  ∧ getKeyID p = (set_keyID (Some KeyID.new) p, Ok KeyID.new).
Proof.
  intros H4 H5 Hf Hk Hw. split.
  - unfold PublicKey.getFingerprintBytes, PublicKey.writeForHash,
      writePublicKey. rewrite Hf, Hw. simpl.
    repeat case_bool_decide; try done; simpl; by rewrite ?Hf.
  - unfold PublicKey.getKeyID. rewrite Hk. cbn [version set_keyID].
    repeat case_bool_decide; done.
Qed.

(** X7: the key identifier has eight octets.  With digests of the
    lengths of SHA-1 and SHA-256, the identifier [getKeyID()] computes
    for a version 4 or 5 packet is eight octets long. *)
Theorem getKeyID_eight_octets (p p' : packet Params) (k : KeyID.t) :
  (∀ m, length (Sha1 m) = 20%nat) →
  (∀ m, length (Sha256 m) = 32%nat) →
  keyID p = None →
  fingerprint p = None →
  version p = JNum 4 ∨ version p = JNum 5 →
  getKeyID p = (p', Ok k) →
  length (KeyID.write k) = 8%nat.
Proof.
  intros H1 H256 Hk Hf Hv Hres.
  revert Hres. unfold PublicKey.getKeyID. rewrite Hk.
  cbn [version set_keyID]. unfold PublicKey.getFingerprint.
  rewrite getFingerprintBytes_set_keyID.
  unfold PublicKey.getFingerprintBytes. rewrite Hf.
  destruct (writeForHash (version p) p) as [toHash|e0];
    destruct Hv as [Hv|Hv]; rewrite Hv; simpl; try done;
    rewrite hex_roundtrip; intros [= _ <-]; unfold KeyID.write; simpl;
    unfold subarray; repeat rewrite ?length_take, ?length_drop, ?H1, ?H256;
    lia.
Qed.

End PublicKeyIdentityFacts.

(** ** One-pass signature packets: round trip and verification *)

Section OnePassSignatureCodecFacts.

Import OnePassSignature.

Variables enums_signature enums_hash enums_publicKey : enum.

Local Abbreviation write :=
  (OnePassSignature.write enums_signature enums_hash enums_publicKey).

Lemma index_denotes (type : enum) (b : bytes) (i : nat) (x : byte) :
  b !! i = Some x →
  denotes type (index b i) (byte_val x)
  = bool_decide (is_Some (byValue type !! byte_val x)).
Proof.
  intros Hx. unfold index. rewrite Hx. simpl.
  by rewrite bool_decide_true by done.
Qed.

(** X8: what [read] takes from a thirteen-octet body, [write] emits
    again.  When the three algorithm octets are codes of their
    enumerations, [write()] after [read(b)] returns [b] with its first
    octet replaced by 3; it returns [b] itself exactly when the version
    octet of [b] is 3. *)
Theorem ops_write_read_roundtrip (b : bytes) (this : packet)
    (v st ha pka fl : byte) (kid : bytes) :
  b = [v; st; ha; pka] ++ kid ++ [fl] →
  length kid = 8%nat →
  is_Some (byValue enums_signature !! byte_val st) →
  is_Some (byValue enums_hash !! byte_val ha) →
  is_Some (byValue enums_publicKey !! byte_val pka) →
  ∃ p,
    read b this = Ok p
    ∧ write p = Ok ([x03; st; ha; pka] ++ kid ++ [fl])
    ∧ (write p = Ok b ↔ v = x03).
Proof.
  intros -> Hlen Hst Hha Hpka.
  assert (Hw : write
                 (mkPacket (index ([v; st; ha; pka] ++ kid ++ [fl]) 0)
                    (JNum (byte_val st)) (JNum (byte_val ha))
                    (JNum (byte_val pka)) (Some (KeyID.mk kid))
                    (JNum (byte_val fl)))
               = Ok ([x03; st; ha; pka] ++ kid ++ [fl])).
  { unfold OnePassSignature.write. simpl.
    rewrite !(enums_write_denotes _ _ _)
      by (simpl; rewrite bool_decide_true by done;
          by rewrite bool_decide_true).
    simpl. rewrite !u8_byte_val. unfold concatUint8Array. simpl.
    by rewrite ?app_nil_r. }
  assert (Hread : read ([v; st; ha; pka] ++ kid ++ [fl]) this
                  = Ok (mkPacket (index ([v; st; ha; pka] ++ kid ++ [fl]) 0)
                          (JNum (byte_val st)) (JNum (byte_val ha))
                          (JNum (byte_val pka)) (Some (KeyID.mk kid))
                          (JNum (byte_val fl)))).
  { unfold read. simpl. f_equal. f_equal.
    - f_equal. unfold KeyID.read, subarray. simpl. f_equal.
      rewrite !drop_0, take_take, take_app_length' by done.
      reflexivity.
    - unfold index.
      change ([v; st; ha; pka] ++ kid ++ [fl])
        with (v :: st :: ha :: pka :: (kid ++ [fl])).
      simpl. rewrite lookup_app_r by lia.
      by replace (8 - length kid)%nat with 0%nat by lia. }
  eexists. split; [exact Hread|]. split; [exact Hw|].
  rewrite Hw. split.
  - by intros [= ->].
  - by intros ->.
Qed.

(** X9: a packet read with an octet that is no code of its enumeration
    cannot be written: [read] stores the octet without looking it up, and
    [write()] then throws "Invalid enum value.". *)
Theorem ops_write_unknown_code (b : bytes) (this p : packet) (x : byte) :
  read b this = Ok p →
  (b !! 1%nat = Some x ∧ byValue enums_signature !! byte_val x = None)
  ∨ (b !! 2%nat = Some x ∧ byValue enums_hash !! byte_val x = None)
  ∨ (b !! 3%nat = Some x ∧ byValue enums_publicKey !! byte_val x = None) →
  write p = Throw invalid_enum.
Proof.
  intros [= <-] Hbad. unfold OnePassSignature.write. simpl.
  assert (Hw : ∀ type, byValue type !! byte_val x = None →
                       enums_write type (JNum (byte_val x))
                       = Throw invalid_enum).
  { intros type Hnone. unfold enums_write, enums_read. by rewrite Hnone. }
  assert (Hany : ∀ type v, (∃ c, enums_write type v = Ok c)
                           ∨ enums_write type v = Throw invalid_enum).
  { intros type v0. unfold enums_write, enums_read.
    destruct v0 as [| |n|s0]; simpl;
      repeat (match goal with
              | |- context [match ?m !! ?k with _ => _ end] =>
                  destruct (m !! k); simpl
              end); eauto. }
  destruct Hbad as [[Hx Hn]|[[Hx Hn]|[Hx Hn]]]; unfold index; rewrite ?Hx.
  - by rewrite (Hw _ Hn).
  - destruct (Hany enums_signature
                (match b !! 1%nat with
                 | Some b0 => JNum (byte_val b0) | None => JUndefined end))
      as [[c ->]| ->]; [|done]. simpl. by rewrite (Hw _ Hn).
  - destruct (Hany enums_signature
                (match b !! 1%nat with
                 | Some b0 => JNum (byte_val b0) | None => JUndefined end))
      as [[c ->]| ->]; [|done]. simpl.
    destruct (Hany enums_hash
                (match b !! 2%nat with
                 | Some b0 => JNum (byte_val b0) | None => JUndefined end))
      as [[c' ->]| ->]; [|done]. simpl. by rewrite (Hw _ Hn).
Qed.

End OnePassSignatureCodecFacts.

Section OnePassSignatureVerifyFacts.

Import OnePassSignatureVerify.

Context {Hashed Args Verdict : Type}.
Variable signature_verify : SignaturePacket Hashed → Args → result Verdict.

Local Abbreviation verify :=
  (OnePassSignatureVerify.verify Hashed Args Verdict signature_verify).

(** X10: [verify] hands over to the trailing signature only when it
    matches.  With both key identifiers present: when the trailing packet
    is a Signature packet whose signature type, hash algorithm,
    public-key algorithm and issuer key identifier equal those of the
    one-pass packet, the stream hashed so far is put into its [hashed]
    slot and the verdict is that of its own [verify]; when one of the
    four differs, "does not match" is thrown and the trailing packet is
    left alone; when there is no trailing packet, or it is of another
    class, "missing" is thrown. *)
Theorem ops_verify_binding (this : OnePassSignature.packet)
    (this_hashed : option Hashed) (sig : SignaturePacket Hashed)
    (arguments : Args) (k k' : KeyID.t) :
  OnePassSignature.issuerKeyID this = Some k →
  issuerKeyID sig = Some k' →
  let same :=
    signatureType sig = OnePassSignature.signatureType this
    ∧ hashAlgorithm sig = OnePassSignature.hashAlgorithm this
    ∧ publicKeyAlgorithm sig = OnePassSignature.publicKeyAlgorithm this
    ∧ KeyID.bytes_of k' = KeyID.bytes_of k in
  let bound :=
    mkSignaturePacket (constructor_tag sig) (signatureType sig)
      (hashAlgorithm sig) (publicKeyAlgorithm sig) (issuerKeyID sig)
      this_hashed in
  verify this this_hashed None arguments = (None, Throw missing)
  ∧ (constructor_tag sig ≠ packet_signature →
     verify this this_hashed (Some sig) arguments = (Some sig, Throw missing))
  ∧ (constructor_tag sig = packet_signature → same →
     verify this this_hashed (Some sig) arguments
     = (Some bound, signature_verify bound arguments))
  ∧ (constructor_tag sig = packet_signature → ¬ same →
     verify this this_hashed (Some sig) arguments
     = (Some sig, Throw mismatch)).
Proof.
  intros Hk Hk' same bound. unfold OnePassSignatureVerify.verify.
  split; [done|]. split; [|split].
  - intros Htag. by rewrite bool_decide_true.
  - intros Htag (H1 & H2 & H3 & H4).
    repeat (case_bool_decide; [congruence|]).
    unfold bound. rewrite Hk, Hk'. simpl.
    by rewrite bool_decide_true.
  - intros Htag Hne.
    case_bool_decide; [congruence|].
    destruct (decide (signatureType sig
                      = OnePassSignature.signatureType this)) as [H1|H1];
      [|by rewrite bool_decide_true].
    rewrite bool_decide_false by (by intros ?).
    destruct (decide (hashAlgorithm sig
                      = OnePassSignature.hashAlgorithm this)) as [H2|H2];
      [|by rewrite bool_decide_true].
    rewrite bool_decide_false by (by intros ?).
    destruct (decide (publicKeyAlgorithm sig
                      = OnePassSignature.publicKeyAlgorithm this))
      as [H3|H3]; [|by rewrite bool_decide_true].
    rewrite bool_decide_false by (by intros ?).
    rewrite Hk, Hk'. simpl. case_bool_decide as H4; [|done].
    exfalso. apply Hne. by repeat split.
Qed.

End OnePassSignatureVerifyFacts.

(** ** Packet list: the array operations *)

Section PacketListOpsFacts.

Import PacketListOps.

Context {Fields : Type}.

Implicit Types (this : list (packet Fields)) (args : list Z).

Lemma some_handle (t : Z) args : some (handle t) args = bool_decide (t ∈ args).
Proof.
  unfold some, handle. induction args as [|a args IH]; simpl.
  - done.
  - rewrite IH. destruct (decide (t = a)) as [->|Hne].
    + rewrite bool_decide_true by done. simpl. symmetry.
      apply bool_decide_eq_true. left.
    + rewrite (bool_decide_false (t = a)) by done. simpl.
      apply bool_decide_ext. rewrite elem_of_cons.
      split; [by right|]. by intros [?|?].
Qed.

Lemma filterByTag_from_spec args this :
  ∀ filtered,
    filterByTag_from args this filtered
    = filtered
        ++ (with_packets <$> filter (λ p, tag p ∈ args) this).
Proof.
  induction this as [|p this IH]; intros filtered; simpl.
  - by rewrite app_nil_r.
  - rewrite IH, some_handle, filter_cons.
    destruct (decide (tag p ∈ args)) as [Hin|Hnin].
    + rewrite bool_decide_true by done. simpl. by rewrite <- app_assoc.
    + by rewrite bool_decide_false by done.
Qed.

Lemma indexOfTag_from_elem args this :
  ∀ i tagIndex j,
    j ∈ indexOfTag_from args this i tagIndex
    ↔ j ∈ tagIndex
      ∨ (i ≤ j)%nat ∧ ∃ p, this !! (j - i)%nat = Some p ∧ tag p ∈ args.
Proof.
  induction this as [|p this IH]; intros i tagIndex j; simpl.
  - split; [by left|]. intros [?|(_ & p & Hp & _)]; done.
  - rewrite IH, some_handle. split.
    + intros [Hj|(Hle & q & Hq & Hin)].
      * case_bool_decide as Hp; [|by left].
        apply elem_of_app in Hj as [Hj|Hj%list_elem_of_singleton];
          [by left|subst j].
        right. split; [lia|]. exists p.
        by rewrite Nat.sub_diag.
      * right. split; [lia|]. exists q. split; [|done].
        by replace (j - i)%nat with (S (j - S i)) by lia.
    + intros [Hj|(Hle & q & Hq & Hin)].
      * left. case_bool_decide; [|done]. apply elem_of_app. by left.
      * destruct (decide (j = i)) as [->|Hne].
        -- rewrite Nat.sub_diag in Hq. injection Hq as ->.
           left. rewrite bool_decide_true by done.
           apply elem_of_app. right. by apply list_elem_of_singleton.
        -- right. split; [lia|]. exists q. split; [|done].
           by replace (j - i)%nat with (S (j - S i)) in Hq by lia.
Qed.

Lemma indexOfTag_from_sorted args this :
  ∀ i tagIndex,
    StronglySorted lt tagIndex →
    Forall (λ j, j < i)%nat tagIndex →
    StronglySorted lt (indexOfTag_from args this i tagIndex).
Proof.
  induction this as [|p this IH]; intros i tagIndex Hs Hlt; simpl; [done|].
  apply IH.
  - case_match; [|done].
    apply StronglySorted_app_2; [|done|repeat constructor].
    intros a b Ha ->%list_elem_of_singleton.
    by apply (proj1 (Forall_forall _ _) Hlt).
  - case_match.
    + apply Forall_app. split.
      * eapply Forall_impl; [exact Hlt|]. simpl. lia.
      * repeat constructor.
    + eapply Forall_impl; [exact Hlt|]. simpl. lia.
Qed.

Lemma indexOfTag_from_lookup args this :
  ∀ (pre : list (packet Fields)) tagIndex,
    omap (λ i, (pre ++ this) !! i)
      (indexOfTag_from args this (length pre) tagIndex)
    = omap (λ i, (pre ++ this) !! i) tagIndex
        ++ filter (λ p, tag p ∈ args) this.
Proof.
  induction this as [|p this IH]; intros pre tagIndex; simpl.
  - rewrite filter_nil. by rewrite (app_nil_r (omap _ _)).
  - specialize (IH (pre ++ [p])).
    rewrite <- app_assoc, length_app in IH. simpl in IH.
    rewrite Nat.add_1_r in IH. rewrite IH, some_handle, filter_cons.
    destruct (decide (tag p ∈ args)) as [Hin|Hnin].
    + rewrite bool_decide_true by done. rewrite omap_app. simpl.
      rewrite list_lookup_middle by done. simpl.
      by rewrite <- app_assoc.
    + by rewrite bool_decide_false by done.
Qed.

(** X11: [indexOfTag] returns the positions of the packets whose tag is
    among the arguments, all of them and nothing else, in increasing
    order. *)
Theorem indexOfTag_positions args this :
  (∀ i, i ∈ indexOfTag args this
        ↔ ∃ p, this !! i = Some p ∧ tag p ∈ args)
  ∧ StronglySorted lt (indexOfTag args this).
Proof.
  split.
  - intros i. unfold indexOfTag. rewrite indexOfTag_from_elem.
    rewrite Nat.sub_0_r. split.
    + intros [?%elem_of_nil|[_ H]]; done.
    + intros H. right. split; [lia|done].
  - apply indexOfTag_from_sorted; constructor.
Qed.

(** X12: [filterByTag] keeps the packets whose tag is among the
    arguments, in their order, and gives each a [packets] list; they are
    the packets at the positions [indexOfTag] returns, and [findPacket]
    returns the first of them. *)
Theorem filterByTag_selects args this (type : Z) :
  filterByTag args this
  = with_packets <$> filter (λ p, tag p ∈ args) this
  ∧ omap (λ i, this !! i) (indexOfTag args this)
    = filter (λ p, tag p ∈ args) this
  ∧ with_packets <$> findPacket type this = head (filterByTag [type] this).
Proof.
  split; [|split].
  - unfold filterByTag. by rewrite filterByTag_from_spec.
  - exact (indexOfTag_from_lookup args this [] []).
  - unfold filterByTag, findPacket. rewrite filterByTag_from_spec. simpl.
    induction this as [|p this IH]; simpl; [done|].
    rewrite filter_cons.
    case_bool_decide as Heq.
    + rewrite decide_True by (by apply list_elem_of_singleton). done.
    + rewrite decide_False; [done|].
      by intros ?%list_elem_of_singleton.
Qed.

Lemma with_packets_id (p : packet Fields) :
  has_packets p → with_packets p = p.
Proof. destruct p as [t f [ps|]]; [done|]. by intros [? ?]. Qed.


End PacketListOpsFacts.

(** ** Packet list: more on writing *)

Section WriteMoreFacts.

Import PacketList PacketListTokens.

Lemma spec_frame_short (input : list bytes) :
  ∀ buffered,
    (length (buffered ++ concat input) < 512)%nat →
    spec_frame buffered input = [Final (buffered ++ concat input)].
Proof.
  induction input as [|value rest IH]; intros buffered Hlt; simpl in *.
  - by rewrite app_nil_r.
  - rewrite app_assoc in Hlt.
    assert (Hv : (length (buffered ++ value) < 512)%nat).
    { rewrite length_app in Hlt. lia. }
    destruct (512 <=? _) eqn:Hge; [apply Z.leb_le in Hge; lia|].
    by rewrite IH, app_assoc.
Qed.

Lemma spec_frame_length (input : list bytes) :
  ∀ buffered,
    (0 < length (spec_frame buffered input) <= S (length input))%nat.
Proof.
  induction input as [|value rest IH]; intros buffered; simpl; [lia|].
  destruct (512 <=? _); simpl.
  - specialize (IH (drop (Z.to_nat
                   (2 ^ Z.min (Z.log2 (Z.of_nat (length (buffered ++ value))))
                          30)) (buffered ++ value))). lia.
  - specialize (IH (buffered ++ value)). lia.
Qed.

(** X14: a streamed body of less than 512 octets is not cut.  It is
    emitted as one segment under a simple-length header, when the stream
    ends; an empty stream gives the header of length zero alone. *)
Theorem write_streamed_short (chunks : list bytes) :
  (length (concat chunks) < 512)%nat →
  write_streamed chunks
  = Ok [writeSimpleLength (Z.of_nat (length (concat chunks)))
          ++ concat chunks]
  ∧ write_streamed [] = Ok [[x00]].
Proof.
  intros Hlt. unfold write_streamed. split.
  - rewrite (transform_spec_frame chunks _ []) by done.
    by rewrite spec_frame_short.
  - reflexivity.
Qed.

(** X15: the streamed branch never throws, whatever the chunks are: the
    power handed to [writePartialLength] is always one it accepts.  It
    emits at most one segment for each chunk of the body, and one more
    at the end. *)
Theorem write_streamed_returns (chunks : list bytes) :
  ∃ out,
    write_streamed chunks = Ok out
    ∧ (0 < length out <= S (length chunks))%nat.
Proof.
  unfold write_streamed.
  rewrite (transform_spec_frame chunks _ []) by done.
  eexists. split; [reflexivity|].
  rewrite length_fmap. apply spec_frame_length.
Qed.

Variable supportsStreaming : Z → bool.

Local Abbreviation write_packet := (PacketList.write_packet supportsStreaming).
Local Abbreviation write := (PacketList.write supportsStreaming).

Lemma foldl_total_length (chunks : list bytes) :
  ∀ n, foldl (λ n value, n + Z.of_nat (length value)) n chunks
       = n + Z.of_nat (length (concat chunks)).
Proof.
  induction chunks as [|c chunks IH]; intros n; simpl; [lia|].
  rewrite IH, length_app. lia.
Qed.

(** X16: for a tag that does not stream, a body given as a stream is
    written as the same octets as the body given as one array: the
    header announces the length of the whole stream, and the chunks
    follow unchanged. *)
Theorem write_packet_stream_as_array (tag : Z) (chunks : list bytes) :
  supportsStreaming tag = false →
  ∃ out out',
    write_packet tag (Stream chunks) = Ok out
    ∧ write_packet tag (Bytes (concat chunks)) = Ok out'
    ∧ concat out = concat out'
    ∧ concat out
      = writeHeader tag (Z.of_nat (length (concat chunks))) ++ concat chunks.
Proof.
  intros Htag. unfold PacketList.write_packet. rewrite Htag.
  eexists _, _. split; [reflexivity|]. split; [reflexivity|].
  rewrite foldl_total_length, Z.add_0_l. simpl.
  by rewrite !app_nil_r.
Qed.

End WriteMoreFacts.

(** ** Packet list: more on reading *)

Section ReadMoreFacts.

Import PacketList PacketListTokens.

Context {P : Type}.
Variable tag_of : P → Z.
Variable supportsStreaming : Z → bool.
Variable allowedPackets : gmap Z (body → config → result P).
Variable disallowed : Z → error.

Local Abbreviation read_packet :=
  (PacketList.read_packet P allowedPackets disallowed).
Local Abbreviation on_token :=
  (PacketList.on_token P supportsStreaming allowedPackets disallowed).
Local Abbreviation pump :=
  (PacketList.pump P supportsStreaming allowedPackets disallowed).
Local Abbreviation transformPair :=
  (PacketList.transformPair P supportsStreaming allowedPackets disallowed).
Local Abbreviation pump_array :=
  (PacketList.pump_array P supportsStreaming allowedPackets disallowed).
Local Abbreviation output :=
  (PacketList.output P supportsStreaming allowedPackets disallowed).
Local Abbreviation drain := (PacketList.drain P tag_of supportsStreaming).
Local Abbreviation read :=
  (PacketList.read P tag_of supportsStreaming allowedPackets disallowed).

Lemma drain_outcome (out : list P) (ending : writer) :
  ∀ held,
    match drain out ending held with
    | Throw e =>
        ending = Errored e
        ∧ Forall (λ p, supportsStreaming (tag_of p) = false) out
    | Ok (held', None) =>
        held' = held ++ out
        ∧ Forall (λ p, supportsStreaming (tag_of p) = false) out
        ∧ ∀ e, ending ≠ Errored e
    | Ok (held', Some (rest, ending')) =>
        ending' = ending
        ∧ ∃ pre p,
            out = pre ++ p :: rest
            ∧ held' = held ++ pre ++ [p]
            ∧ supportsStreaming (tag_of p) = true
            ∧ Forall (λ p, supportsStreaming (tag_of p) = false) pre
    end.
Proof.
  induction out as [|value out IH]; intros held; simpl.
  - destruct ending; simpl; rewrite ?app_nil_r; repeat split; try done.
  - destruct (supportsStreaming (tag_of value)) eqn:Hs.
    + split; [done|]. exists [], value. by repeat split.
    + specialize (IH (held ++ [value])).
      destruct (drain out ending (held ++ [value])) as [[held' [[rest e']|]]|e].
      * destruct IH as (-> & pre & p & -> & -> & Hp & Hpre).
        split; [done|]. exists (value :: pre), p.
        rewrite <- !app_assoc. repeat split; try done.
        by constructor.
      * destruct IH as (-> & Hall & Hend).
        rewrite <- app_assoc. repeat split; try done. by constructor.
      * destruct IH as (-> & Hall). split; [done|]. by constructor.
Qed.

(** An array stream is settled when the transform is done. *)
Lemma pump_array_settled (cfg : config) (input : list framed) :
  ∀ st : pipe P, status (pump_array cfg input st) ≠ Open.
Proof.
  induction input as [|tok rest IH]; intros [w s l]; simpl.
  - by destruct s.
  - destruct tok as [tag packet|e]; [apply IH|]. by destruct s.
Qed.

(** X18: what [read] holds when it returns.  The list is filled with the
    packets of the output stream up to and including the first one of a
    streaming tag, and the rest stays in the [stream] field; without
    such a packet the list holds them all and [stream] is [null].  Read
    from a [ReadableStream], [read] throws exactly when the stream is
    aborted before a packet of a streaming tag is delivered; read from a
    [Uint8Array], it throws exactly when the stream is aborted at all,
    so the stream it leaves behind is a closed one.  In both cases it
    throws the error of the abort. *)
Theorem read_eager_prefix (bytes : source) (cfg : config)
    (input : list framed) :
  let st := output bytes cfg input in
  match read bytes cfg input with
  | Throw e =>
      status st = Errored e
      ∧ (bytes = OfStream →
         Forall (λ p, supportsStreaming (tag_of p) = false) (written st))
  | Ok (held, None) =>
      held = written st
      ∧ Forall (λ p, supportsStreaming (tag_of p) = false) held
      ∧ ∀ e, status st ≠ Errored e
  | Ok (held, Some (rest, ending)) =>
      written st = held ++ rest
      ∧ ending = status st
      ∧ (bytes = OfArray → ending = Closed)
      ∧ ∃ pre p,
          held = pre ++ [p]
          ∧ supportsStreaming (tag_of p) = true
          ∧ Forall (λ p, supportsStreaming (tag_of p) = false) pre
  end.
Proof.
  intros st. unfold PacketList.read. fold st.
  assert (Hsettled : bytes = OfArray → status st ≠ Open).
  { intros ->. apply pump_array_settled. }
  pose proof (drain_outcome (written st) (status st) []) as H.
  destruct bytes.
  - destruct (status st) as [| |e0] eqn:Hs.
    + by destruct Hsettled.
    + destruct (drain (written st) Closed []) as [[held [[rest e']|]]|e].
      * destruct H as (-> & pre & p & -> & -> & Hp & Hpre). simpl.
        split; [by rewrite <- app_assoc|]. split; [done|]. split; [done|].
        by exists pre, p.
      * by destruct H as (-> & Hall & Hend).
      * by destruct H as [? _].
    + done.
  - assert (Hgoal :
      match drain (written st) (status st) [] with
      | Throw e =>
          status st = Errored e
          ∧ (OfStream = OfStream →
             Forall (λ p, supportsStreaming (tag_of p) = false) (written st))
      | Ok (held, None) =>
          held = written st
          ∧ Forall (λ p, supportsStreaming (tag_of p) = false) held
          ∧ ∀ e, status st ≠ Errored e
      | Ok (held, Some (rest, ending)) =>
          written st = held ++ rest
          ∧ ending = status st
          ∧ (OfStream = OfArray → ending = Closed)
          ∧ ∃ pre p,
              held = pre ++ [p]
              ∧ supportsStreaming (tag_of p) = true
              ∧ Forall (λ p, supportsStreaming (tag_of p) = false) pre
      end).
    { destruct (drain (written st) (status st) [])
        as [[held [[rest e']|]]|e].
      - destruct H as (-> & pre & p & -> & -> & Hp & Hpre). simpl.
        split; [by rewrite <- app_assoc|]. split; [done|]. split; [done|].
        by exists pre, p.
      - by destruct H as (-> & Hall & Hend).
      - destruct H as [-> Hall]. done. }
    by destruct (status st).
Qed.





End ReadMoreFacts.

(** ** ECDSA: choice of the tier, verification, validation *)

Section EcdsaTierFacts.

Import Ecdsa EcdsaVerify.

Context {Oid CryptoKey IndutnyCurve NodeVerify Jwk : Type}.
Variable Curve_new : Oid → result Curve.
Variable keyType : Curve → Z.
Variables publicKey_ecdsa hash_sha256 : Z.
Variables enums_hash enums_webHash : enum.
Variable webCrypto_importKey : Curve → string → keyPair → result CryptoKey.
Variable webCrypto_sign : Curve → string → CryptoKey → bytes → result bytes.
Variable nodeCrypto_sign : Curve → string → bytes → keyPair → result (Z * Z).
Variable getIndutnyCurve : string → result IndutnyCurve.
Variable indutny_sign : IndutnyCurve → bytes → option bytes → result (Z * Z).
Variable toArrayLike : Z → bytes.
Variable rawPublicToJWK : Curve → bytes → result Jwk.
Variable webCrypto_importPublicKey : Curve → string → Jwk → result CryptoKey.
Variable webCrypto_verify :
  Curve → string → CryptoKey → bytes → bytes → result bool.
Variable nodeCrypto_createVerify : string → bytes → result NodeVerify.
Variable encode_publicKey : Curve → bytes → result bytes.
Variable encode_signature : signature → result bytes.
Variable nodeCrypto_verify : NodeVerify → bytes → bytes → result bool.
Variable indutny_verify :
  IndutnyCurve → bytes → option body → signature → result bool.
Variable hash_digest : Z → bytes → result bytes.
Variable validateStandardParams : Z → Oid → bytes → bytes → result bool.

Local Abbreviation ellipticSign :=
  (Ecdsa.ellipticSign IndutnyCurve getIndutnyCurve indutny_sign toArrayLike).
Local Abbreviation webSign :=
  (Ecdsa.webSign enums_webHash CryptoKey webCrypto_importKey webCrypto_sign).
Local Abbreviation nodeSign := (Ecdsa.nodeSign enums_hash nodeCrypto_sign).
Local Abbreviation sign :=
  (Ecdsa.sign Oid Curve_new enums_hash enums_webHash CryptoKey
     webCrypto_importKey webCrypto_sign nodeCrypto_sign IndutnyCurve
     getIndutnyCurve indutny_sign toArrayLike).
Local Abbreviation ellipticVerify :=
  (EcdsaVerify.ellipticVerify IndutnyCurve getIndutnyCurve indutny_verify).
Local Abbreviation webVerify :=
  (EcdsaVerify.webVerify enums_webHash CryptoKey Jwk rawPublicToJWK
     webCrypto_importPublicKey webCrypto_verify).
Local Abbreviation nodeVerify :=
  (EcdsaVerify.nodeVerify enums_hash NodeVerify nodeCrypto_createVerify
     encode_publicKey encode_signature nodeCrypto_verify).
Local Abbreviation verify :=
  (EcdsaVerify.verify Oid Curve_new enums_hash enums_webHash CryptoKey
     IndutnyCurve getIndutnyCurve Jwk rawPublicToJWK
     webCrypto_importPublicKey webCrypto_verify NodeVerify
     nodeCrypto_createVerify encode_publicKey encode_signature
     nodeCrypto_verify indutny_verify).
Local Abbreviation validateParams :=
  (EcdsaVerify.validateParams Oid Curve_new keyType publicKey_ecdsa
     hash_sha256 enums_hash enums_webHash CryptoKey webCrypto_importKey
     webCrypto_sign nodeCrypto_sign IndutnyCurve getIndutnyCurve indutny_sign
     toArrayLike Jwk rawPublicToJWK webCrypto_importPublicKey
     webCrypto_verify NodeVerify nodeCrypto_createVerify encode_publicKey
     encode_signature nodeCrypto_verify indutny_verify hash_digest
     validateStandardParams).

Lemma internal_bind {A B} (a : A) (k : A → traced B) :
  (internal (Ok a) ≫= k) = k a.
Proof.
  unfold mbind, traced_bind, internal. by destruct (k a).
Qed.

(** X21: the fallback of [sign] on a Web Crypto curve.  For a message
    given as an array: what [webSign] returns is returned; what it throws
    is thrown again when it is a [DataError] or an [OperationError] and
    the curve is not p521; any other failure, and every failure on p521,
    is logged and the software tier signs the digest instead. *)
Theorem sign_web_fallback (oid : Oid) (curve : Curve) (hashAlgo : Z)
    (message publicKey privateKey : bytes) (hashed : option bytes) :
  Curve_new oid = Ok curve →
  type curve = JStr "web" →
  let platform :=
    webSign curve hashAlgo message (mkKeyPair publicKey privateKey) in
  let software := ellipticSign curve hashed privateKey in
  let result :=
    sign oid hashAlgo (Some (Bytes message)) publicKey privateKey hashed in
  (∀ sig, platform.2 = Ok sig → result = platform)
  ∧ (∀ err, platform.2 = Throw err →
       name curve ≠ "p521" →
       err_name err = "DataError" ∨ err_name err = "OperationError" →
       result = platform)
  ∧ (∀ err, platform.2 = Throw err →
       name curve = "p521"
       ∨ (err_name err ≠ "DataError" ∧ err_name err ≠ "OperationError") →
       result
       = (platform.1
            ++ [DebugError ("Browser did not support signing: "
                              +:+ err_message err)]
            ++ software.1,
          software.2)).
Proof.
  intros Hcurve Hweb platform software result.
  assert (Hres : result
    = match platform with
      | (calls, Ok sig) => (calls, Ok sig)
      | (calls, Throw err) =>
          if bool_decide (name curve ≠ "p521")
             && (bool_decide (err_name err = "DataError")
                 || bool_decide (err_name err = "OperationError"))
          then (calls, Throw err)
          else
            let '(calls', res) := software in
            (calls
               ++ [DebugError ("Browser did not support signing: "
                                 +:+ err_message err)]
               ++ calls', res)
      end).
  { subst result. unfold Ecdsa.sign. rewrite Hcurve, internal_bind.
    by rewrite bool_decide_true by done. }
  rewrite Hres. clear Hres.
  destruct platform as [calls [sig|err]]; simpl.
  - repeat split; intros; simplify_eq; done.
  - repeat split; intros e [= <-].
    + intros Hp Herr. rewrite (bool_decide_true _ Hp).
      destruct Herr as [He|He]; rewrite He; done.
    + intros Hcase.
      assert (Hcond : bool_decide (name curve ≠ "p521")
                      && (bool_decide (err_name err = "DataError")
                          || bool_decide (err_name err = "OperationError"))
                      = false).
      { destruct Hcase as [Hp|[H1 H2]].
        - rewrite bool_decide_false; [done|]. by intros ?.
        - rewrite (bool_decide_false _ H1), (bool_decide_false _ H2).
          apply andb_false_r. }
      rewrite Hcond. by destruct software.
Qed.

(** X22: which tier signs.  The software tier alone signs when there is
    no message, or when the curve is neither a Web Crypto nor a Node.js
    curve.  On a Node.js curve a message given as an array is signed by
    Node.js and nothing else is tried: what [nodeSign] throws is thrown,
    and the curve library is not called. *)
Theorem sign_tier_selection (oid : Oid) (curve : Curve) (hashAlgo : Z)
    (message publicKey privateKey : bytes) (hashed : option bytes) :
  Curve_new oid = Ok curve →
  sign oid hashAlgo None publicKey privateKey hashed
  = ellipticSign curve hashed privateKey
  ∧ (type curve ≠ JStr "web" → type curve ≠ JStr "node" →
     sign oid hashAlgo (Some (Bytes message)) publicKey privateKey hashed
     = ellipticSign curve hashed privateKey)
  ∧ (type curve = JStr "node" →
     let platform :=
       nodeSign curve hashAlgo message (mkKeyPair publicKey privateKey) in
     let result :=
       sign oid hashAlgo (Some (Bytes message)) publicKey privateKey hashed in
     result.1 = platform.1
     ∧ result.2
       = (sig ← platform.2 ;
          Ok (mkSignature (toArrayLike sig.1) (toArrayLike sig.2)))
     ∧ Forall (λ c, ∀ op, c ≠ Indutny op) result.1).
Proof.
  intros Hcurve. unfold Ecdsa.sign. rewrite Hcurve, !internal_bind.
  split; [done|]. split.
  - intros Hw Hn. by rewrite !bool_decide_false by done.
  - intros Hn. rewrite bool_decide_false by (by rewrite Hn).
    rewrite bool_decide_true by done. simpl.
    unfold Ecdsa.nodeSign, internal, external, mbind, traced_bind, mret,
      traced_ret.
    destruct (enums_read enums_hash hashAlgo) as [hashName|e]; simpl.
    + destruct (nodeCrypto_sign curve hashName message _) as [[r0 s0]|e];
        simpl; repeat split; repeat constructor; done.
    + repeat split; constructor.
Qed.

(** X23: verification on a Node.js curve never falls back and never
    throws for a signature Node.js refuses: with the verifier set up,
    what [verify.verify] throws becomes the answer [false]. *)
Theorem verify_node_refusal_is_false (oid : Oid) (curve : Curve)
    (hashAlgo : Z) (sig : signature) (message publicKey : bytes)
    (hashed : option bytes) (hashName : string) (v : NodeVerify)
    (key der : bytes) (e : error) :
  Curve_new oid = Ok curve →
  type curve = JStr "node" →
  enums_read enums_hash hashAlgo = Ok hashName →
  nodeCrypto_createVerify hashName message = Ok v →
  encode_publicKey curve publicKey = Ok key →
  encode_signature sig = Ok der →
  nodeCrypto_verify v key der = Throw e →
  verify oid (Some hashAlgo) sig (Some (Bytes message)) publicKey hashed
  = ([NodeCrypto "createVerify"; NodeCrypto "verify"], Ok false).
Proof.
  intros Hcurve Hn Hhash Hv Hkey Hder Hthrow.
  unfold EcdsaVerify.verify. rewrite Hcurve, internal_bind.
  rewrite bool_decide_false by (by rewrite Hn).
  rewrite bool_decide_true by done.
  unfold EcdsaVerify.nodeVerify, enums_read_optional.
  rewrite Hhash, internal_bind.
  unfold external, mbind at 1, traced_bind at 1. rewrite Hv.
  rewrite Hkey, internal_bind, Hder, internal_bind, Hthrow. done.
Qed.

(** X24: [validateParams] answers, it does not throw what signing or
    verifying throws.  For a curve that is no ECDSA curve the answer is
    [false] and no back-end is called.  For a Web Crypto or Node.js curve,
    once the random message and its digest are there, the answer is
    [true] exactly when [sign] returns a signature of the message and
    [verify] accepts it, and [false] in every other case. *)
Theorem validateParams_answers (oid : Oid) (curve : Curve) (Q d : bytes)
    (random : result bytes) (message hashed : bytes) :
  Curve_new oid = Ok curve →
  (keyType curve ≠ publicKey_ecdsa →
   validateParams random oid Q d = ([], Ok false))
  ∧ (keyType curve = publicKey_ecdsa →
     type curve = JStr "web" ∨ type curve = JStr "node" →
     random = Ok message →
     hash_digest hash_sha256 message = Ok hashed →
     ∃ valid,
       (validateParams random oid Q d).2 = Ok valid
       ∧ (valid = true
          ↔ ∃ sig,
              (sign oid hash_sha256 (Some (Bytes message)) Q d
                 (Some hashed)).2 = Ok sig
              ∧ (verify oid (Some hash_sha256) sig (Some (Bytes message)) Q
                   (Some hashed)).2 = Ok true)).
Proof.
  intros Hcurve. unfold EcdsaVerify.validateParams.
  rewrite Hcurve, internal_bind. split.
  - intros Hk. by rewrite bool_decide_true.
  - intros Hk Hty -> Hd. rewrite bool_decide_false by (by intros ?).
    assert (Hplat : bool_decide (type curve = JStr "web")
                    || bool_decide (type curve = JStr "node") = true).
    { destruct Hty as [-> | ->]; [done|]. apply orb_true_r. }
    rewrite Hplat, internal_bind, Hd, internal_bind.
    unfold EcdsaVerify.sign.
    destruct (sign oid hash_sha256 (Some (Bytes message)) Q d (Some hashed))
      as [calls [sig|e]]; simpl.
    + destruct (verify oid (Some hash_sha256) sig (Some (Bytes message)) Q
                  (Some hashed)) as [calls' [valid|e]] eqn:Hv; simpl.
      * exists valid. split; [done|]. split.
        -- intros ->. exists sig. by rewrite Hv.
        -- intros (sig' & [= <-] & Hv'). rewrite Hv in Hv'. simpl in Hv'. congruence.
      * exists false. split; [done|]. split; [done|].
        intros (sig' & [= <-] & Hv'). rewrite Hv in Hv'. discriminate Hv'.
    + exists false. split; [done|]. split; [done|]. intros (? & [=] & _).
Qed.

End EcdsaTierFacts.

(** ** Secret-key packets: the life cycle *)

Lemma alloc_entries (h : heap) (l : list (string * bytes)) :
  let res :=
    foldr (λ kv '(h, obj),
             let '(h, a) := alloc_array kv.2 h in (h, <[kv.1 := a]> obj))
          (h, (∅ : gmap string loc)) l in
  arrays h ⊆ arrays res.1
  ∧ objects res.1 = objects h
  ∧ (∀ k a, res.2 !! k = Some a → is_Some (arrays res.1 !! a))
  ∧ ∀ k, res.2 !! k ≫= (λ a : loc, arrays res.1 !! a)
         = (list_to_map l : gmap string bytes) !! k.
Proof.
  induction l as [|[k v] l IH]; simpl.
  - split; [done|]. split; [done|]. split.
    + intros k a. by rewrite lookup_empty.
    + intros k. by rewrite !lookup_empty.
  - destruct (foldr _ _ l) as [h1 obj1]. simpl in IH.
    destruct IH as (Hsub & Hobj & Hdom & Hval).
    unfold alloc_array. simpl.
    set (a := fresh (dom (arrays h1))).
    assert (Hfresh : arrays h1 !! a = None).
    { apply not_elem_of_dom. apply is_fresh. }
    split; [|split; [done|split]].
    + etrans; [exact Hsub|]. by apply insert_subseteq.
    + intros k' a'. destruct (decide (k = k')) as [->|Hne].
      * rewrite lookup_insert_eq. intros [= <-]. by rewrite lookup_insert_eq.
      * rewrite lookup_insert_ne by done. intros Hk'.
        destruct (Hdom _ _ Hk') as [x Hx].
        exists x. rewrite lookup_insert_ne; [done|]. congruence.
    + intros k'. destruct (decide (k = k')) as [->|Hne].
      * rewrite !lookup_insert_eq. simpl. by rewrite lookup_insert_eq.
      * rewrite !lookup_insert_ne by done. rewrite <- Hval.
        destruct (obj1 !! k') as [a'|] eqn:Hk'; [|done]. simpl.
        destruct (Hdom _ _ Hk') as [x Hx].
        rewrite lookup_insert_ne; [done|]. congruence.
Qed.

Lemma alloc_params_deref (pp : gmap string bytes) (h : heap) :
  deref (alloc_params pp h).1 (alloc_params pp h).2 = Some pp
  ∧ arrays h ⊆ arrays (alloc_params pp h).1
  ∧ objects h ⊆ objects (alloc_params pp h).1
  ∧ objects h !! (alloc_params pp h).2 = None.
Proof.
  unfold alloc_params.
  pose proof (alloc_entries h (map_to_list pp)) as H. simpl in H.
  destruct (foldr _ _ (map_to_list pp)) as [h1 obj1]. simpl in *.
  destruct H as (Hsub & Hobj & Hdom & Hval).
  assert (Hfresh : objects h1 !! fresh (dom (objects h1)) = None).
  { apply not_elem_of_dom. apply is_fresh. }
  split; [|split; [done|split]].
  - unfold deref. simpl. rewrite lookup_insert_eq. f_equal.
    apply map_eq. intros k. rewrite lookup_omap, Hval.
    by rewrite list_to_map_to_list.
  - rewrite <- Hobj. by apply insert_subseteq.
  - by rewrite <- Hobj.
Qed.

Section SecretKeyDecryptFacts.

Import SecretKey.

Context {Params : Type}.
Variable enums_publicKey : enum.
Variable parsePrivateKeyParams :
  Z → bytes → option Params → result (gmap string bytes).
Variable cipher : string → option cipher_info.
Variable crypto_mode : string → option aead_mode.
Variable cfb_decrypt : jsval → bytes → option bytes → option bytes → result bytes.
Variable hash_sha1 : bytes → bytes.
Variable produceKey : S2K.t → string → nat → result bytes.

Local Abbreviation decrypt :=
  (SecretKey.decrypt Params enums_publicKey parsePrivateKeyParams cipher
     crypto_mode cfb_decrypt hash_sha1 produceKey).

(** X25: [decrypt] changes the packet and the store only when it
    succeeds.  Whatever it throws (a refused protection, a wrong
    passphrase, a cipher failure, unreadable parameters), and when it
    answers [false] for a dummy key, every field and the store are as
    they were before the call. *)
Theorem decrypt_failure_changes_nothing (passphrase : string) (h : heap)
    (this : packet Params) :
  (decrypt passphrase h this).2 ≠ Ok None →
  (decrypt passphrase h this).1 = (h, this).
Proof.
  unfold SecretKey.decrypt.
  destruct (isDummy this); [done|].
  destruct (isDecrypted this); [done|].
  match goal with
  | |- context [match ?d with Ok _ => _ | Throw _ => _ end] =>
      destruct d as [key|e]; [|done]
  end.
  match goal with
  | |- context [match ?d with Ok _ => _ | Throw _ => _ end] =>
      destruct d as [cleartext|e]; [|done]
  end.
  match goal with
  | |- context [match ?d with Ok _ => _ | Throw _ => _ end] =>
      destruct d as [pp|e]; [|done]
  end.
  destruct (alloc_params pp h) as [h' o]. simpl. done.
Qed.

(** X26: what a successful [decrypt] leaves.  The packet counts as
    decrypted, its key material is dropped and its usage octet is 0; the
    private parameters are a new object of the store holding what
    [parsePrivateKeyParams] read, and nothing that was in the store has
    changed.  The protection was one of the two accepted ones (usage 253
    or 254), and a second [decrypt] is refused. *)
Theorem decrypt_success_unlocks (passphrase : string) (h h' : heap)
    (this this' : packet Params) :
  decrypt passphrase h this = (h', this', Ok None) →
  (s2kUsage this = JNum 253 ∨ s2kUsage this = JNum 254)
  ∧ isDecrypted this' = true
  ∧ keyMaterial this' = None
  ∧ s2kUsage this' = JNum 0
  ∧ pub this' = pub this
  ∧ (∃ o pp algo cleartext,
       privateParams this' = Some o
       ∧ objects h !! o = None
       ∧ deref h' o = Some pp
       ∧ enums_write enums_publicKey (PublicKey.algorithm (pub this))
         = Ok algo
       ∧ parsePrivateKeyParams algo cleartext
           (PublicKey.publicParams (pub this)) = Ok pp)
  ∧ arrays h ⊆ arrays h'
  ∧ objects h ⊆ objects h'
  ∧ ∀ again,
      decrypt again h' this'
      = (h', this', Throw (Error "Key packet is already decrypted.")).
Proof.
  unfold SecretKey.decrypt at 1.
  destruct (isDummy this) eqn:Hdummy; [done|].
  destruct (isDecrypted this); [done|].
  case_bool_decide as Husage.
  2:{ by case_bool_decide. }
  destruct (produceEncryptionKey _ _ _ _ _) as [key|e]; [|done].
  match goal with
  | |- context [match ?d with Ok _ => _ | Throw _ => _ end] =>
      destruct d as [cleartext|e]; [|done]
  end.
  destruct (enums_write enums_publicKey _) as [algo|e] eqn:Halgo; [|done].
  simpl.
  destruct (parsePrivateKeyParams algo cleartext _) as [pp|e] eqn:Hpp;
    [|done].
  pose proof (alloc_params_deref pp h) as (Hderef & Harr & Hobj & Hnew).
  destruct (alloc_params pp h) as [h1 o].
  simpl in Hderef, Harr, Hobj, Hnew |- *.
  intros [= <- <-]. simpl.
  split; [tauto|]. split; [done|]. split; [done|]. split; [done|].
  split; [done|]. split.
  { exists o, pp, algo, cleartext. done. }
  split; [done|]. split; [done|].
  intros again. unfold SecretKey.decrypt.
  unfold isDummy in Hdummy |- *. simpl. rewrite Hdummy. done.
Qed.

End SecretKeyDecryptFacts.

Section SecretKeyLifeCycle.

Import SecretKey SecretKeyProtect.

Context {Params Rng : Type}.
Variables enums_publicKey enums_symmetric enums_aead : enum.
Variable serializeParams : Z → option Params → result bytes.
Variable serializePrivateParams : Z → gmap string bytes → result bytes.
Variable parsePrivateKeyParams :
  Z → bytes → option Params → result (gmap string bytes).
Variable cipher : string → option cipher_info.
Variable crypto_mode : string → option aead_mode.
Variable cfb_decrypt : jsval → bytes → option bytes → option bytes → result bytes.
Variable cfb_encrypt : jsval → bytes → bytes → bytes → result bytes.
Variable hash_sha1 : bytes → bytes.
Variable produceKey : S2K.t → string → nat → result bytes.
Variable s2k_write : S2K.t → bytes.
Variable getRandomBytes : nat → Rng → Rng * result bytes.
Variable validateParams :
  Z → option Params → option (gmap string bytes) → result bool.

Local Abbreviation decrypt :=
  (SecretKey.decrypt Params enums_publicKey parsePrivateKeyParams cipher
     crypto_mode cfb_decrypt hash_sha1 produceKey).
Local Abbreviation encrypt :=
  (SecretKeyProtect.encrypt Params Rng getRandomBytes enums_publicKey
     serializePrivateParams cipher crypto_mode cfb_encrypt hash_sha1
     produceKey).
Local Abbreviation validate :=
  (SecretKeyProtect.validate Params enums_publicKey validateParams).
Local Abbreviation clearPrivateParams := (SecretKey.clearPrivateParams Params).
Local Abbreviation makeDummy := (SecretKey.makeDummy Params).
Local Abbreviation write :=
  (SecretKey.write Params enums_publicKey enums_symmetric enums_aead
     serializeParams serializePrivateParams s2k_write).

(** X27: [validate] in full.  It returns exactly for a dummy key, and for
    a decrypted key whose algorithm is known and whose parameters
    [crypto.validateParams] accepts.  What it throws is "Key is not
    decrypted", "Key is invalid" (also when [crypto.validateParams]
    itself throws), or the error of [enums.write]. *)
Theorem validate_outcomes (h : heap) (this : packet Params) :
  (validate h this = Ok ()
   ↔ isDummy this = true
     ∨ (isDecrypted this = true
        ∧ ∃ algo,
            enums_write enums_publicKey (PublicKey.algorithm (pub this))
            = Ok algo
            ∧ validateParams algo (PublicKey.publicParams (pub this))
                (privateParams this ≫= deref h) = Ok true))
  ∧ ∀ e, validate h this = Throw e →
      (e = Error "Key is not decrypted" ∧ isDecrypted this = false)
      ∨ e = Error "Key is invalid"
      ∨ enums_write enums_publicKey (PublicKey.algorithm (pub this))
        = Throw e.
Proof.
  unfold SecretKeyProtect.validate.
  destruct (isDummy this); [split; [split; [tauto|done]|done]|].
  destruct (isDecrypted this); simpl.
  2:{ split; [split; [done|]|].
      - intros [?|[? _]]; done.
      - intros e [= <-]. by left. }
  destruct (enums_write enums_publicKey _) as [algo|e0]; simpl.
  2:{ split; [split; [done|]|].
      - intros [?|[_ (algo & ? & _)]]; done.
      - intros e [= <-]. right. by right. }
  destruct (validateParams algo _ _) as [[|]|e0] eqn:Hvalid; simpl.
  - split; [split; [|done]|done].
    intros _. right. split; [done|]. by exists algo.
  - split; [split; [done|]|].
    + intros [?|[_ (algo' & [= <-] & Hv)]]; [done|]. congruence.
    + intros e [= <-]. right. by left.
  - split; [split; [done|]|].
    + intros [?|[_ (algo' & [= <-] & Hv)]]; [done|]. congruence.
    + intros e [= <-]. right. by left.
Qed.

(** X28: [encrypt] never locks the key.  Whatever the call does, the
    packet counts as decrypted exactly as before and still refers to the
    same private parameters, and the public part is as before; and a
    call that throws leaves the key material as it was, although the
    specifier, the cipher, the IV and the usage octet may already have
    been replaced. *)
Theorem encrypt_never_locks (passphrase : option string) (config : config)
    (h : heap) (rng : Rng) (this : packet Params) :
  let after := encrypt passphrase config h rng this in
  isEncrypted after.1.2 = isEncrypted this
  ∧ privateParams after.1.2 = privateParams this
  ∧ pub after.1.2 = pub this
  ∧ (after.2 ≠ Ok () → keyMaterial after.1.2 = keyMaterial this).
Proof.
  unfold SecretKeyProtect.encrypt.
  destruct (isDummy this); [done|].
  destruct (isDecrypted this); simpl; [|done].
  destruct (no_passphrase passphrase); [done|].
  destruct (getRandomBytes 8 rng) as [rng1 [salt|e]]; [|done].
  destruct (cleartext_of _ _ _ _ _) as [cleartext|e]; [|done].
  unfold produceEncryptionKey. simpl.
  destruct (cipher "aes256") as [ci|]; [|done].
  destruct (produceKey _ _ _) as [key|e]; [|done].
  destruct (getRandomBytes (blockSize ci) rng1) as [rng2 [v|e]]; [|done].
  unfold seal. destruct (aeadProtect config); simpl.
  - destruct (crypto_mode "eax") as [mode|]; [|done].
    destruct (instantiate mode _ key) as [inst|e]; [|done]. simpl.
    destruct (aead_encrypt inst _ _ _) as [km|e]; done.
  - destruct (cfb_encrypt _ _ _ _) as [km|e]; done.
Qed.

Lemma subarray_hash_split (cleartext hash : bytes) :
  length hash = 20%nat →
  subarray_drop_last 20 (concatUint8Array [cleartext; hash]) = cleartext
  ∧ subarray_last 20 (concatUint8Array [cleartext; hash]) = hash.
Proof.
  intros Hlen. unfold subarray_drop_last, subarray_last, concatUint8Array.
  simpl. rewrite app_nil_r, length_app, Hlen.
  replace (length cleartext + 20 - 20)%nat with (length cleartext) by lia.
  split; [by rewrite take_app_length|by rewrite drop_app_length].
Qed.

(** X29: protecting a key and opening it again.  [encrypt] with a
    passphrase seals the serialised private parameters under the key
    derived from a fresh specifier, with AEAD (usage 253) or with CFB and
    a SHA-1 tail (usage 254) as the configuration asks.  The packet still
    counts as decrypted, so [decrypt] is refused at this point.  Once
    [clearPrivateParams] has locked the packet, [decrypt] with the same
    passphrase gives the private parameters back, provided the cipher
    opens what it sealed and the parser reads what the serialiser
    wrote. *)
Theorem encrypt_clear_decrypt (pw : string) (config : config) (h : heap)
    (rng rng1 rng2 : Rng) (this : packet Params) (o : loc)
    (pp : gmap string bytes) (algo : Z) (salt cleartext key v km : bytes)
    (ci : cipher_info) :
  isDummy this = false →
  isDecrypted this = true →
  pw ≠ "" →
  privateParams this = Some o →
  deref h o = Some pp →
  enums_write enums_publicKey (PublicKey.algorithm (pub this)) = Ok algo →
  serializePrivateParams algo pp = Ok cleartext →
  parsePrivateKeyParams algo cleartext (PublicKey.publicParams (pub this))
  = Ok pp →
  getRandomBytes 8 rng = (rng1, Ok salt) →
  cipher "aes256" = Some ci →
  produceKey
    (S2K.mk "iterated" (JStr "sha256") (s2kIterationCountByte config)
       (Some salt)) pw (keySize ci) = Ok key →
  getRandomBytes (blockSize ci) rng1 = (rng2, Ok v) →
  (aeadProtect config = true
   ∧ ∃ mode inst,
       crypto_mode "eax" = Some mode
       ∧ instantiate mode (JStr "aes256") key = Ok inst
       ∧ aead_encrypt inst cleartext (subarray 0 (ivLength mode) v) []
         = Ok km
       ∧ aead_decrypt inst (Some km) (subarray 0 (ivLength mode) v) []
         = Ok cleartext)
  ∨ (aeadProtect config = false
     ∧ length (hash_sha1 cleartext) = 20%nat
     ∧ cfb_encrypt (JStr "aes256") key
         (concatUint8Array [cleartext; hash_sha1 cleartext]) v = Ok km
     ∧ cfb_decrypt (JStr "aes256") key (Some km) (Some v)
       = Ok (concatUint8Array [cleartext; hash_sha1 cleartext])) →
  ∃ locked,
    encrypt (Some pw) config h rng this = (rng2, locked, Ok ())
    ∧ keyMaterial locked = Some km
    ∧ s2kUsage locked = JNum (if aeadProtect config then 253 else 254)
    ∧ isDecrypted locked = true
    ∧ decrypt pw h locked
      = (h, locked, Throw (Error "Key packet is already decrypted."))
    ∧ ∃ h1 cleared h2 opened o',
        clearPrivateParams h locked = (h1, cleared, Ok ())
        ∧ decrypt pw h1 cleared = (h2, opened, Ok None)
        ∧ privateParams opened = Some o'
        ∧ deref h2 o' = Some pp.
Proof.
  intros Hdummy Hdec Hpw Ho Hderef Halgo Hser Hparse Hsalt Hci Hkey Hiv Hmode.
  assert (Hobj : ∃ obj, objects h !! o = Some obj).
  { unfold deref in Hderef. destruct (objects h !! o) as [obj|]; [|done].
    by exists obj. }
  destruct Hobj as [obj Hobj].
  assert (Hpass : no_passphrase (Some pw) = false).
  { simpl. by rewrite bool_decide_false. }
  assert (Hclear : ∀ q : packet Params, pub q = pub this →
            privateParams q = Some o →
            cleartext_of Params enums_publicKey serializePrivateParams h q
            = Ok cleartext).
  { intros q Hq Hqo. unfold cleartext_of.
    rewrite Hq, Halgo, Hqo. simpl. by rewrite Hderef. }
  unfold SecretKeyProtect.encrypt.
  rewrite Hdummy, Hdec, Hpass. simpl. rewrite Hsalt.
  rewrite Hclear by done.
  unfold produceEncryptionKey. simpl. rewrite Hci, Hkey, Hiv.
  unfold seal.
  destruct Hmode as [[Haead (mode & inst & Hm & Hi & Henc & Hopen)]
                    |[Haead (Hlen & Henc & Hopen)]];
    rewrite Haead; simpl.
  - rewrite Hm. simpl. rewrite Hi. simpl. rewrite Henc.
    eexists. split; [reflexivity|].
    split; [done|]. split; [done|]. split; [exact Hdec|]. split.
    { unfold SecretKey.decrypt, isDummy, isDecrypted in Hdummy, Hdec |- *. simpl.
      by rewrite Hdec. }
    unfold SecretKey.clearPrivateParams, isDummy. simpl.
    rewrite Ho. simpl. rewrite Hobj. simpl.
    pose proof (alloc_params_deref pp
                  (foldl (clear_param o) h (map_to_list obj).*1))
      as (Hd & _).
    destruct (alloc_params pp _) as [h2 o'] eqn:Halloc.
    eexists _, _, h2, _, o'. split; [reflexivity|].
    unfold SecretKey.decrypt, isDummy, isDecrypted. simpl.
    rewrite Hci, Hkey. unfold aead_cleartext. simpl.
    rewrite Hm, Hi. simpl. rewrite Hopen, Halgo. simpl.
    rewrite Hparse, Halloc. done.
  - pose proof (subarray_hash_split cleartext (hash_sha1 cleartext) Hlen)
      as [Hhead Htail].
    unfold concatUint8Array in Henc, Hopen, Hhead, Htail.
    simpl in Henc, Hopen, Hhead, Htail. rewrite Henc.
    eexists. split; [reflexivity|].
    split; [done|]. split; [done|]. split; [exact Hdec|]. split.
    { unfold SecretKey.decrypt, isDummy, isDecrypted in Hdummy, Hdec |- *. simpl.
      by rewrite Hdec. }
    unfold SecretKey.clearPrivateParams, isDummy. simpl.
    rewrite Ho. simpl. rewrite Hobj. simpl.
    pose proof (alloc_params_deref pp
                  (foldl (clear_param o) h (map_to_list obj).*1))
      as (Hd & _).
    destruct (alloc_params pp _) as [h2 o'] eqn:Halloc.
    eexists _, _, h2, _, o'. split; [reflexivity|].
    unfold SecretKey.decrypt, isDummy, isDecrypted. simpl.
    rewrite Hci, Hkey, Hopen. simpl.
    rewrite Hhead, Htail. unfold equalsUint8Array.
    rewrite bool_decide_true by done. simpl.
    rewrite Halgo. simpl. rewrite Hparse, Halloc. done.
Qed.

(** X30: a dummy key is inert.  After [makeDummy] the packet is a
    gnu-dummy key with the public part it had; [decrypt] answers
    [false], and [encrypt], [validate], [clearPrivateParams] and a second
    [makeDummy] return without touching the packet or the store.  When
    the key was not a dummy before, it no longer counts as decrypted and
    holds no key material, and what [write] gives is the public key, the
    usage octet 254, the cipher octet and the specifier, with the count
    octet before them in version 5: no IV and no key material. *)
Theorem makeDummy_key_is_inert (c : Z) (h h' : heap)
    (this this' : packet Params) :
  makeDummy c h this = (h', this', Ok ()) →
  isDummy this' = true
  ∧ pub this' = pub this
  ∧ (∀ passphrase, decrypt passphrase h' this' = (h', this', Ok (Some false)))
  ∧ (∀ passphrase config rng,
       encrypt passphrase config h' rng this' = (rng, this', Ok ()))
  ∧ validate h' this' = Ok ()
  ∧ clearPrivateParams h' this' = (h', this', Ok ())
  ∧ (∀ c', makeDummy c' h' this' = (h', this', Ok ()))
  ∧ (isDummy this = false →
     isDecrypted this' = false
     ∧ keyMaterial this' = None
     ∧ ∀ pk sym s,
         PublicKey.writePublicKey Params enums_publicKey serializeParams
           (pub this) = Ok pk →
         enums_write enums_symmetric (JStr "aes256") = Ok sym →
         s2k this' = Some s →
         write h' this'
         = (this',
            Ok (pk ++ [to_u8 (JNum 254)]
                  ++ (if bool_decide (PublicKey.version (pub this) = JNum 5)
                      then [u8 (Z.of_nat (S (length (s2k_write s))))]
                      else [])
                  ++ [u8 sym] ++ s2k_write s))).
Proof.
  intros Hmake.
  assert (Hinert : isDummy this' = true →
    (∀ passphrase, decrypt passphrase h' this' = (h', this', Ok (Some false)))
    ∧ (∀ passphrase config rng,
         encrypt passphrase config h' rng this' = (rng, this', Ok ()))
    ∧ validate h' this' = Ok ()
    ∧ clearPrivateParams h' this' = (h', this', Ok ())
    ∧ (∀ c', makeDummy c' h' this' = (h', this', Ok ()))).
  { intros Hd.
    unfold SecretKey.decrypt, SecretKeyProtect.encrypt,
      SecretKeyProtect.validate, SecretKey.clearPrivateParams,
      SecretKey.makeDummy.
    rewrite Hd. done. }
  revert Hmake. unfold SecretKey.makeDummy.
  destruct (isDummy this) eqn:Hdummy.
  { intros [= <- <-]. split; [done|]. split; [done|].
    destruct (Hinert Hdummy) as (? & ? & ? & ? & ?).
    do 5 (split; [done|]). done. }
  assert (Hcleared : ∃ h0 this0 res,
            (if isDecrypted this then clearPrivateParams h this
             else (h, this, Ok ())) = (h0, this0, res)
            ∧ pub this0 = pub this).
  { destruct (isDecrypted this); [|by eexists _, _, _].
    unfold SecretKey.clearPrivateParams. rewrite Hdummy.
    destruct (privateParams this ≫= _) as [[o obj]|]; by eexists _, _, _. }
  destruct Hcleared as (h0 & this0 & res & -> & Hpub).
  destruct res as [[]|e]; [|done].
  intros [= <- <-].
  assert (Hd : isDummy
                 (mkPacket (pub this0) None None (JNum 254)
                    (Some (S2K.mk "gnu-dummy" (JNum 0) 0
                             (S2K.salt (S2K.new c))))
                    (JStr "aes256") (aead this0) (privateParams this0)
                    (iv this0)) = true) by done.
  split; [exact Hd|]. split; [exact Hpub|].
  destruct (Hinert Hd) as (? & ? & ? & ? & ?).
  do 5 (split; [done|]).
  intros _. split; [done|]. split; [done|].
  intros pk sym s Hpk Hsym [= Hs]. subst s.
  unfold SecretKey.write. simpl. rewrite Hpub, Hpk. simpl.
  rewrite Hsym. simpl.
  unfold concatUint8Array.
  case_bool_decide; simpl; rewrite ?app_nil_r; done.
Qed.

End SecretKeyLifeCycle.

(** ** The further properties at the sample values *)

Lemma digest_bytes_length (hs : list Z) :
  length (Digest.digest_bytes hs) = (4 * length hs)%nat.
Proof.
  unfold Digest.digest_bytes. induction hs as [|h hs IH]; [done|].
  rewrite fmap_cons, concat_cons, length_app, length_writeNumber, IH.
  rewrite length_cons. lia.
Qed.

Lemma sha1_length (m : bytes) : length (Digest.sha1 m) = 20%nat.
Proof.
  unfold Digest.sha1.
  destruct (foldl Digest.sha1_block _ _) as [[[[h0 h1] h2] h3] h4].
  by rewrite digest_bytes_length.
Qed.

Lemma sha256_block_length (hs block : list Z) :
  length hs = 8%nat → length (Digest.sha256_block hs block) = 8%nat.
Proof.
  intros Hlen. unfold Digest.sha256_block.
  rewrite length_zip_with, Hlen.
  assert (Hround : ∀ ts st, length st = 8%nat →
            length (foldl (Digest.sha256_round
                             (Digest.sha256_schedule block)) st ts) = 8%nat).
  { induction ts as [|t ts IH]; intros st Hst; simpl; [done|].
    apply IH. unfold Digest.sha256_round.
    do 9 (destruct st as [|? st]; try done). }
  rewrite Hround by done. done.
Qed.

Lemma sha256_length (m : bytes) : length (Digest.sha256 m) = 32%nat.
Proof.
  unfold Digest.sha256. rewrite digest_bytes_length.
  assert (Hfold : ∀ bs hs, length hs = 8%nat →
            length (foldl Digest.sha256_block hs bs) = 8%nat).
  { induction bs as [|b bs IH]; intros hs Hhs; simpl; [done|].
    apply IH. by apply sha256_block_length. }
  rewrite Hfold; [done|]. vm_compute. reflexivity.
Qed.

(** X1 at the empty body, read into the sample key. *)
Lemma read_rejects_other_versions_witness :
  Cases.read Cases.empty_body Sample.rsa_key
  = (PublicKey.set_version (index Cases.empty_body 0) Sample.rsa_key,
     Throw (Error ("Version " +:+ js_to_string (index Cases.empty_body 0)
                     +:+ " of the key packet is unsupported.")))
  ∧ (Cases.empty_body = [] →
     (Cases.read Cases.empty_body Sample.rsa_key).2
     = Throw (Error "Version undefined of the key packet is unsupported.")).
Proof.
  exact (read_rejects_other_versions Sample.enums_publicKey
           Cases.parsePublicKeyParams Cases.empty_body Sample.rsa_key
           ltac:(discriminate) ltac:(discriminate)).
Defined.

(** X2 at the sample key: its seventeen octets are read back into a
    packet fresh from the constructor. *)
Lemma read_write_roundtrip_witness :
  ∃ q',
    Cases.read Sample.rsa_key_bytes Cases.blank_key
    = (q', Ok (length Sample.rsa_key_bytes))
    ∧ PublicKey.version q' = PublicKey.version Sample.rsa_key
    ∧ PublicKey.created q' = PublicKey.created Sample.rsa_key
    ∧ enums_write Sample.enums_publicKey (PublicKey.algorithm q') = Ok 1
    ∧ PublicKey.publicParams q' = Some Sample.rsa_public
    ∧ Cases.write q' = Ok Sample.rsa_key_bytes.
Proof.
  exact (read_write_roundtrip Sample.enums_publicKey
           Cases.parsePublicKeyParams Sample.serializeParams
           Sample.rsa_key Cases.blank_key Sample.rsa_key_bytes
           (drop 6 Sample.rsa_key_bytes) 1295801360 1 Sample.rsa_public
           (or_introl eq_refl) eq_refl
           ltac:(split; [lia|reflexivity]) ltac:(lia)
           ltac:(vm_compute; reflexivity) eq_refl
           ltac:(vm_compute; reflexivity) ltac:(vm_compute; reflexivity)
           ltac:(vm_compute; reflexivity)).
Defined.

(** X3 at the sample key and the same key with its algorithm given by
    code. *)
Lemma hasSameFingerprintAs_sound_witness :
  (Sample.getFingerprintBytes Sample.rsa_key).2
  = (Sample.getFingerprintBytes Cases.rsa_key_by_code).2
  ∧ (Sample.getKeyID Sample.rsa_key).2
    = (Sample.getKeyID Cases.rsa_key_by_code).2.
Proof.
  exact (hasSameFingerprintAs_sound Sample.enums_publicKey
           Sample.serializeParams Digest.sha1 Digest.sha256
           Sample.rsa_key Cases.rsa_key_by_code
           ltac:(vm_compute; reflexivity) eq_refl eq_refl eq_refl eq_refl).
Defined.

(** X4 at the sample key with its fingerprint requested, read again from
    a body of version 5 that is too short. *)
Lemma reread_keeps_fingerprint_witness :
  Sample.getFingerprintBytes
    (Cases.read [x05; x00] Cases.rsa_key_requested).1
  = ((Cases.read [x05; x00] Cases.rsa_key_requested).1,
     Ok (Some Sample.rsa_fingerprint)).
Proof.
  exact (reread_keeps_fingerprint Sample.enums_publicKey
           Cases.parsePublicKeyParams Sample.serializeParams Digest.sha1
           Digest.sha256 [x05; x00] Cases.rsa_key_requested
           Sample.rsa_fingerprint eq_refl).
Defined.

(** X5 at a packet fresh from the constructor, which has no algorithm
    yet, read afterwards from the octets of the sample key. *)
Lemma getKeyID_failure_is_cached_witness :
  Sample.getKeyID Cases.blank_key
  = (PublicKey.set_keyID (Some KeyID.new) Cases.blank_key,
     Throw invalid_enum)
  ∧ (Sample.getKeyID
       (PublicKey.set_keyID (Some KeyID.new) Cases.blank_key)).2
    = Ok KeyID.new
  ∧ (Sample.getKeyID
       (Cases.read Sample.rsa_key_bytes
          (PublicKey.set_keyID (Some KeyID.new) Cases.blank_key)).1).2
    = Ok KeyID.new.
Proof.
  exact (getKeyID_failure_is_cached Sample.enums_publicKey
           Cases.parsePublicKeyParams Sample.serializeParams Digest.sha1
           Digest.sha256 Cases.blank_key invalid_enum Sample.rsa_key_bytes
           eq_refl eq_refl (or_introl eq_refl)
           ltac:(vm_compute; reflexivity)).
Defined.

(** X6 at the sample key turned into version 3. *)
Lemma unsupported_version_has_no_fingerprint_witness :
  Sample.getFingerprintBytes Cases.rsa_key_v3 = (Cases.rsa_key_v3, Ok None)
  ∧ Sample.getKeyID Cases.rsa_key_v3
    = (PublicKey.set_keyID (Some KeyID.new) Cases.rsa_key_v3, Ok KeyID.new).
Proof.
  exact (unsupported_version_has_no_fingerprint Sample.enums_publicKey
           Sample.serializeParams Digest.sha1 Digest.sha256
           Cases.rsa_key_v3 (x03 :: drop 1 Sample.rsa_key_bytes)
           ltac:(discriminate) ltac:(discriminate) eq_refl eq_refl
           ltac:(vm_compute; reflexivity)).
Defined.

(** X7 at the sample key, with SHA-1 and SHA-256 themselves. *)
Lemma getKeyID_eight_octets_witness :
  length (KeyID.write (KeyID.mk (drop 12 Sample.rsa_fingerprint))) = 8%nat.
Proof.
  exact (getKeyID_eight_octets Sample.enums_publicKey
           Sample.serializeParams Digest.sha1 Digest.sha256 Sample.rsa_key
           (Sample.getKeyID Sample.rsa_key).1
           (KeyID.mk (drop 12 Sample.rsa_fingerprint))
           sha1_length sha256_length eq_refl eq_refl (or_introl eq_refl)
           ltac:(vm_compute; reflexivity)).
Defined.

(** X8 at the sample body that announces version 4. *)
Lemma ops_write_read_roundtrip_witness :
  ∃ p,
    OnePassSignature.read Sample.ops_body_v4 OnePassSignature.new = Ok p
    ∧ Cases.ops_write p = Ok ([x03; x00; x08; x13] ++ Cases.key_id ++ [x01])
    ∧ (Cases.ops_write p = Ok Sample.ops_body_v4 ↔ x04 = x03).
Proof.
  exact (ops_write_read_roundtrip Sample.enums_signature Sample.enums_hash
           Sample.enums_publicKey Sample.ops_body_v4 OnePassSignature.new
           x04 x00 x08 x13 x01 Cases.key_id eq_refl eq_refl
           ltac:(exists "binary"; vm_compute; reflexivity)
           ltac:(exists "sha256"; vm_compute; reflexivity)
           ltac:(exists "ecdsa"; vm_compute; reflexivity)).
Defined.

(** X9 at a body whose hash octet, 0x63, is no code. *)
Lemma ops_write_unknown_code_witness :
  OnePassSignature.read Cases.ops_body_unknown_hash OnePassSignature.new
  = Ok (OnePassSignature.mkPacket (JNum 3) (JNum 0) (JNum 99) (JNum 19)
          (Some (KeyID.mk Cases.key_id)) (JNum 1))
  ∧ Cases.ops_write
      (OnePassSignature.mkPacket (JNum 3) (JNum 0) (JNum 99) (JNum 19)
         (Some (KeyID.mk Cases.key_id)) (JNum 1))
    = Throw invalid_enum.
Proof.
  assert (Hread :
    OnePassSignature.read Cases.ops_body_unknown_hash OnePassSignature.new
    = Ok (OnePassSignature.mkPacket (JNum 3) (JNum 0) (JNum 99) (JNum 19)
            (Some (KeyID.mk Cases.key_id)) (JNum 1))).
  { vm_compute. reflexivity. }
  assert (Hcode : byValue Sample.enums_hash !! byte_val x63 = None).
  { vm_compute. reflexivity. }
  split; [exact Hread|].
  exact (ops_write_unknown_code Sample.enums_signature Sample.enums_hash
           Sample.enums_publicKey Cases.ops_body_unknown_hash
           OnePassSignature.new
           (OnePassSignature.mkPacket (JNum 3) (JNum 0) (JNum 99) (JNum 19)
              (Some (KeyID.mk Cases.key_id)) (JNum 1))
           x63 Hread
           (or_intror (or_introl (conj eq_refl Hcode)))).
Defined.

(** X10 at the sample one-pass packet and a trailing signature with the
    same four fields. *)
Lemma ops_verify_binding_witness :
  let same :=
    OnePassSignatureVerify.signatureType Cases.trailing_signature
    = OnePassSignature.signatureType Sample.ops_packet
    ∧ OnePassSignatureVerify.hashAlgorithm Cases.trailing_signature
      = OnePassSignature.hashAlgorithm Sample.ops_packet
    ∧ OnePassSignatureVerify.publicKeyAlgorithm Cases.trailing_signature
      = OnePassSignature.publicKeyAlgorithm Sample.ops_packet
    ∧ KeyID.bytes_of (KeyID.mk Cases.key_id)
      = KeyID.bytes_of (KeyID.mk Cases.key_id) in
  let bound :=
    OnePassSignatureVerify.mkSignaturePacket
      (OnePassSignatureVerify.constructor_tag Cases.trailing_signature)
      (OnePassSignatureVerify.signatureType Cases.trailing_signature)
      (OnePassSignatureVerify.hashAlgorithm Cases.trailing_signature)
      (OnePassSignatureVerify.publicKeyAlgorithm Cases.trailing_signature)
      (OnePassSignatureVerify.issuerKeyID Cases.trailing_signature)
      (Some Cases.short_body) in
  Cases.ops_verify Sample.ops_packet (Some Cases.short_body) None tt
  = (None, Throw OnePassSignatureVerify.missing)
  ∧ (OnePassSignatureVerify.constructor_tag Cases.trailing_signature
     ≠ OnePassSignatureVerify.packet_signature →
     Cases.ops_verify Sample.ops_packet (Some Cases.short_body)
       (Some Cases.trailing_signature) tt
     = (Some Cases.trailing_signature,
        Throw OnePassSignatureVerify.missing))
  ∧ (OnePassSignatureVerify.constructor_tag Cases.trailing_signature
     = OnePassSignatureVerify.packet_signature → same →
     Cases.ops_verify Sample.ops_packet (Some Cases.short_body)
       (Some Cases.trailing_signature) tt
     = (Some bound, Cases.signature_verify bound tt))
  ∧ (OnePassSignatureVerify.constructor_tag Cases.trailing_signature
     = OnePassSignatureVerify.packet_signature → ¬ same →
     Cases.ops_verify Sample.ops_packet (Some Cases.short_body)
       (Some Cases.trailing_signature) tt
     = (Some Cases.trailing_signature,
        Throw OnePassSignatureVerify.mismatch)).
Proof.
  exact (ops_verify_binding Cases.signature_verify Sample.ops_packet
           (Some Cases.short_body) Cases.trailing_signature tt
           (KeyID.mk Cases.key_id) (KeyID.mk Cases.key_id)
           eq_refl eq_refl).
Defined.

(** X14 at a body of five octets in two chunks. *)
Lemma write_streamed_short_witness :
  PacketList.write_streamed Cases.short_body
  = Ok [writeSimpleLength (Z.of_nat (length (concat Cases.short_body)))
          ++ concat Cases.short_body]
  ∧ PacketList.write_streamed [] = Ok [[x00]].
Proof.
  exact (write_streamed_short Cases.short_body ltac:(simpl; lia)).
Defined.

(** X16 at the same body under the tag of a public key. *)
Lemma write_packet_stream_as_array_witness :
  ∃ out out',
    PacketList.write_packet Sample.supportsStreaming 6
      (Stream Cases.short_body) = Ok out
    ∧ PacketList.write_packet Sample.supportsStreaming 6
        (Bytes (concat Cases.short_body)) = Ok out'
    ∧ concat out = concat out'
    ∧ concat out
      = writeHeader 6 (Z.of_nat (length (concat Cases.short_body)))
          ++ concat Cases.short_body.
Proof.
  exact (write_packet_stream_as_array Sample.supportsStreaming 6
           Cases.short_body ltac:(vm_compute; reflexivity)).
Defined.


Example tolerant_read_of_three_tokens :
  PacketListTokens.delivered (Z * bytes) Sample.allowedPackets
    Sample.disallowed Cases.tolerant_config Cases.three_tokens
  = [(6, Sample.rsa_key_bytes); (13, [x61; x6c; x69; x63; x65])]
  ∧ PacketListTokens.skipped (Z * bytes) Sample.allowedPackets
      Sample.disallowed Cases.tolerant_config Cases.three_tokens
    = [Error "Error reading MPIs"].
Proof. vm_compute. split; reflexivity. Qed.

(** X21 at the curve p256 in a browser that does not know it: the
    failure is no key-integrity error, so the software tier signs. *)
Lemma sign_web_fallback_witness :
  let curve := Ecdsa.mkCurve "p256" (JStr "web") 8 32 in
  let platform :=
    Cases.webSign curve 8 [x01] (Ecdsa.mkKeyPair [x04] [x09]) in
  let software := Cases.ellipticSign curve (Some [x07]) [x09] in
  let result :=
    Cases.sign "p256" 8 (Some (Bytes [x01])) [x04] [x09] (Some [x07]) in
  (∀ sig, platform.2 = Ok sig → result = platform)
  ∧ (∀ err, platform.2 = Throw err →
       Ecdsa.name curve ≠ "p521" →
       err_name err = "DataError" ∨ err_name err = "OperationError" →
       result = platform)
  ∧ (∀ err, platform.2 = Throw err →
       Ecdsa.name curve = "p521"
       ∨ (err_name err ≠ "DataError" ∧ err_name err ≠ "OperationError") →
       result
       = (platform.1
            ++ [Ecdsa.DebugError ("Browser did not support signing: "
                                    +:+ err_message err)]
            ++ software.1,
          software.2)).
Proof.
  exact (sign_web_fallback Sample.Curve_new Sample.enums_hash
           Sample.enums_webHash
           (λ curve h kp, Throw Cases.unsupported)
           (λ curve h key message, Ok (replicate 64 x2a))
           (λ curve h message kp, Ok (1, 2))
           (λ name, Ok name) Cases.indutny_sign (λ n, writeNumber n 4)
           "p256" (Ecdsa.mkCurve "p256" (JStr "web") 8 32) 8
           [x01] [x04] [x09] (Some [x07]) eq_refl eq_refl).
Defined.

Example sign_falls_back_to_software :
  Cases.sign "p256" 8 (Some (Bytes [x01])) [x04] [x09] (Some [x07])
  = ([Ecdsa.WebCrypto "importKey";
      Ecdsa.DebugError "Browser did not support signing: Unrecognized name.";
      Ecdsa.Indutny "getIndutnyCurve"; Ecdsa.Indutny "sign"],
     Ok (Ecdsa.mkSignature [x00; x00; x00; x09] [x00; x00; x00; x07])).
Proof. vm_compute. reflexivity. Qed.

(** X22 at the Node.js curve p384. *)
Lemma sign_tier_selection_witness :
  let curve := Ecdsa.mkCurve "p384" (JStr "node") 9 48 in
  Cases.sign "p384" 8 None [x04] [x09] (Some [x07])
  = Cases.ellipticSign curve (Some [x07]) [x09]
  ∧ (Ecdsa.type curve ≠ JStr "web" → Ecdsa.type curve ≠ JStr "node" →
     Cases.sign "p384" 8 (Some (Bytes [x01])) [x04] [x09] (Some [x07])
     = Cases.ellipticSign curve (Some [x07]) [x09])
  ∧ (Ecdsa.type curve = JStr "node" →
     let platform :=
       Cases.nodeSign curve 8 [x01] (Ecdsa.mkKeyPair [x04] [x09]) in
     let result :=
       Cases.sign "p384" 8 (Some (Bytes [x01])) [x04] [x09] (Some [x07]) in
     result.1 = platform.1
     ∧ result.2
       = (sig ← platform.2 ;
          Ok (Ecdsa.mkSignature (writeNumber sig.1 4) (writeNumber sig.2 4)))
     ∧ Forall (λ c, ∀ op, c ≠ Ecdsa.Indutny op) result.1).
Proof.
  exact (sign_tier_selection Sample.Curve_new Sample.enums_hash
           Sample.enums_webHash
           (λ curve h kp, Throw Cases.unsupported)
           (λ curve h key message, Ok (replicate 64 x2a))
           (λ curve h message kp, Ok (1, 2))
           (λ name, Ok name) Cases.indutny_sign (λ n, writeNumber n 4)
           "p384" (Ecdsa.mkCurve "p384" (JStr "node") 9 48) 8
           [x01] [x04] [x09] (Some [x07]) eq_refl).
Defined.

(** X23 at the curve p384 with a Node.js that refuses the encoded
    signature. *)
Lemma verify_node_refusal_is_false_witness :
  Cases.verify "p384" (Some 8) (Ecdsa.mkSignature [x01] [x02])
    (Some (Bytes [x01])) [x04] (Some [x07])
  = ([Ecdsa.NodeCrypto "createVerify"; Ecdsa.NodeCrypto "verify"], Ok false).
Proof.
  exact (verify_node_refusal_is_false Sample.Curve_new Sample.enums_hash
           Sample.enums_webHash (λ name, Ok name)
           (λ curve publicKey, Ok publicKey)
           (λ curve h jwk, Throw Cases.unsupported)
           (λ curve h key signature message, Ok true)
           (λ h message, Ok ())
           (λ curve publicKey, Ok publicKey)
           (λ sig, Ok (Ecdsa.r sig ++ Ecdsa.s sig))
           (λ v key der, Throw Cases.refused)
           Cases.indutny_verify
           "p384" (Ecdsa.mkCurve "p384" (JStr "node") 9 48) 8
           (Ecdsa.mkSignature [x01] [x02]) [x01] [x04] (Some [x07])
           "sha256" tt [x04] [x01; x02] Cases.refused
           eq_refl eq_refl ltac:(vm_compute; reflexivity)
           eq_refl eq_refl eq_refl eq_refl).
Defined.

(** X24 at the curve p256: signing and verifying both fall back to the
    software tier, and the parameters are accepted. *)
Lemma validateParams_answers_witness :
  ∃ valid,
    (Cases.validateParams (Ok [x01]) "p256" [x04] [x09]).2 = Ok valid
    ∧ (valid = true
       ↔ ∃ sig,
           (Cases.sign "p256" 8 (Some (Bytes [x01])) [x04] [x09]
              (Some (Digest.sha256 [x01]))).2 = Ok sig
           ∧ (Cases.verify "p256" (Some 8) sig (Some (Bytes [x01])) [x04]
                (Some (Digest.sha256 [x01]))).2 = Ok true).
Proof.
  exact (proj2
           (validateParams_answers Sample.Curve_new (λ curve, 19) 19 8
              Sample.enums_hash Sample.enums_webHash
              (λ curve h kp, Throw Cases.unsupported)
              (λ curve h key message, Ok (replicate 64 x2a))
              (λ curve h message kp, Ok (1, 2))
              (λ name, Ok name) Cases.indutny_sign (λ n, writeNumber n 4)
              (λ curve publicKey, Ok publicKey)
              (λ curve h jwk, Throw Cases.unsupported)
              (λ curve h key signature message, Ok true)
              (λ h message, Ok ())
              (λ curve publicKey, Ok publicKey)
              (λ sig, Ok (Ecdsa.r sig ++ Ecdsa.s sig))
              (λ v key der, Throw Cases.refused)
              Cases.indutny_verify
              (λ algo message, Ok (Digest.sha256 message))
              (λ algo oid Q d, Ok true)
              "p256" (Ecdsa.mkCurve "p256" (JStr "web") 8 32) [x04] [x09]
              (Ok [x01]) [x01] (Digest.sha256 [x01]) eq_refl)
           eq_refl (or_introl eq_refl) eq_refl eq_refl).
Defined.

Example validateParams_on_platform_curves :
  (Cases.validateParams (Ok [x01]) "p256" [x04] [x09]).2 = Ok true
  ∧ (Cases.validateParams (Ok [x01]) "p384" [x04] [x09]).2 = Ok false.
Proof. vm_compute. split; reflexivity. Qed.

(** X25 at the protected sample key with the usage octet 255. *)
Lemma decrypt_failure_changes_nothing_witness :
  (Sample.decrypt "correct horse" Sample.store Cases.locked_255).1
  = (Sample.store, Cases.locked_255).
Proof.
  exact (decrypt_failure_changes_nothing Sample.enums_publicKey
           Sample.parsePrivateKeyParams Sample.cipher Sample.crypto_mode
           Sample.cfb Digest.sha1 Sample.produceKey "correct horse"
           Sample.store Cases.locked_255 ltac:(discriminate)).
Defined.

(** X26 at the protected sample key and its passphrase. *)
Lemma decrypt_success_unlocks_witness :
  (SecretKey.s2kUsage Sample.locked_254 = JNum 253
   ∨ SecretKey.s2kUsage Sample.locked_254 = JNum 254)
  ∧ SecretKey.isDecrypted Cases.opened = true
  ∧ SecretKey.keyMaterial Cases.opened = None
  ∧ SecretKey.s2kUsage Cases.opened = JNum 0
  ∧ SecretKey.pub Cases.opened = SecretKey.pub Sample.locked_254
  ∧ (∃ o pp algo cleartext,
       SecretKey.privateParams Cases.opened = Some o
       ∧ objects Sample.store !! o = None
       ∧ deref Cases.opened_store o = Some pp
       ∧ enums_write Sample.enums_publicKey
           (PublicKey.algorithm (SecretKey.pub Sample.locked_254))
         = Ok algo
       ∧ Sample.parsePrivateKeyParams algo cleartext
           (PublicKey.publicParams (SecretKey.pub Sample.locked_254))
         = Ok pp)
  ∧ arrays Sample.store ⊆ arrays Cases.opened_store
  ∧ objects Sample.store ⊆ objects Cases.opened_store
  ∧ ∀ again,
      Sample.decrypt again Cases.opened_store Cases.opened
      = (Cases.opened_store, Cases.opened,
         Throw (Error "Key packet is already decrypted.")).
Proof.
  exact (decrypt_success_unlocks Sample.enums_publicKey
           Sample.parsePrivateKeyParams Sample.cipher Sample.crypto_mode
           Sample.cfb Digest.sha1 Sample.produceKey "correct horse"
           Sample.store Cases.opened_store Sample.locked_254 Cases.opened
           ltac:(vm_compute; reflexivity)).
Defined.

(** X29 at the sample key in the clear, the passphrase "correct horse"
    and the CFB protection. *)
Lemma encrypt_clear_decrypt_witness :
  ∃ locked,
    Cases.encrypt (Some "correct horse") Cases.protect_config Sample.store
      Cases.entropy Sample.unlocked
    = ([], locked, Ok ())
    ∧ SecretKey.keyMaterial locked
      = SecretKey.keyMaterial Sample.locked_254
    ∧ SecretKey.s2kUsage locked
      = JNum (if SecretKeyProtect.aeadProtect Cases.protect_config
              then 253 else 254)
    ∧ SecretKey.isDecrypted locked = true
    ∧ Sample.decrypt "correct horse" Sample.store locked
      = (Sample.store, locked,
         Throw (Error "Key packet is already decrypted."))
    ∧ ∃ h1 cleared h2 opened o',
        Cases.clearPrivateParams Sample.store locked = (h1, cleared, Ok ())
        ∧ Sample.decrypt "correct horse" h1 cleared = (h2, opened, Ok None)
        ∧ SecretKey.privateParams opened = Some o'
        ∧ deref h2 o' = Some {[ "d" := Sample.secret_d ]}.
Proof.
  assert (Hseal :
    Cases.cfb_encrypt (JStr "aes256") Sample.right_key
      (concatUint8Array
         [Sample.cleartext_d; Digest.sha1 Sample.cleartext_d])
      (replicate 16 x00)
    = Ok (default [] (SecretKey.keyMaterial Sample.locked_254))).
  { vm_compute. reflexivity. }
  assert (Hopen :
    Sample.cfb (JStr "aes256") Sample.right_key
      (Some (default [] (SecretKey.keyMaterial Sample.locked_254)))
      (Some (replicate 16 x00))
    = Ok (concatUint8Array
            [Sample.cleartext_d; Digest.sha1 Sample.cleartext_d])).
  { vm_compute. reflexivity. }
  exact (encrypt_clear_decrypt Sample.enums_publicKey
           Sample.serializePrivateParams Sample.parsePrivateKeyParams
           Sample.cipher Sample.crypto_mode Sample.cfb Cases.cfb_encrypt
           Digest.sha1 Sample.produceKey Cases.getRandomBytes
           "correct horse" Cases.protect_config Sample.store
           Cases.entropy [replicate 16 x00] [] Sample.unlocked 1%nat
           {[ "d" := Sample.secret_d ]} 1
           [x41; x42; x43; x44; x45; x46; x47; x48]
           Sample.cleartext_d Sample.right_key (replicate 16 x00)
           (default [] (SecretKey.keyMaterial Sample.locked_254))
           (SecretKey.mkCipher 16 32)
           eq_refl eq_refl ltac:(discriminate) eq_refl
           ltac:(vm_compute; reflexivity) ltac:(vm_compute; reflexivity)
           ltac:(vm_compute; reflexivity) ltac:(vm_compute; reflexivity)
           eq_refl eq_refl ltac:(vm_compute; reflexivity) eq_refl
           (or_intror
              (conj eq_refl
                 (conj (sha1_length Sample.cleartext_d)
                    (conj Hseal Hopen))))).
Defined.

(** X30 at the sample key in the clear. *)
Lemma makeDummy_key_is_inert_witness :
  SecretKey.isDummy Cases.dummy = true
  ∧ SecretKey.pub Cases.dummy = SecretKey.pub Sample.unlocked
  ∧ (∀ passphrase,
       Sample.decrypt passphrase Cases.dummy_store Cases.dummy
       = (Cases.dummy_store, Cases.dummy, Ok (Some false)))
  ∧ (∀ passphrase config rng,
       Cases.encrypt passphrase config Cases.dummy_store rng Cases.dummy
       = (rng, Cases.dummy, Ok ()))
  ∧ Cases.validate Cases.dummy_store Cases.dummy = Ok ()
  ∧ Cases.clearPrivateParams Cases.dummy_store Cases.dummy
    = (Cases.dummy_store, Cases.dummy, Ok ())
  ∧ (∀ c', Cases.makeDummy c' Cases.dummy_store Cases.dummy
           = (Cases.dummy_store, Cases.dummy, Ok ()))
  ∧ (SecretKey.isDummy Sample.unlocked = false →
     SecretKey.isDecrypted Cases.dummy = false
     ∧ SecretKey.keyMaterial Cases.dummy = None
     ∧ ∀ pk sym s,
         PublicKey.writePublicKey Sample.params Sample.enums_publicKey
           Sample.serializeParams (SecretKey.pub Sample.unlocked) = Ok pk →
         enums_write Sample.enums_symmetric (JStr "aes256") = Ok sym →
         SecretKey.s2k Cases.dummy = Some s →
         Sample.write_secret Cases.dummy_store Cases.dummy
         = (Cases.dummy,
            Ok (pk ++ [to_u8 (JNum 254)]
                  ++ (if bool_decide
                           (PublicKey.version (SecretKey.pub Sample.unlocked)
                            = JNum 5)
                      then [u8 (Z.of_nat (S (length (Sample.s2k_write s))))]
                      else [])
                  ++ [u8 sym] ++ Sample.s2k_write s))).
Proof.
  exact (makeDummy_key_is_inert Sample.enums_publicKey
           Sample.enums_symmetric Sample.enums_aead Sample.serializeParams
           Sample.serializePrivateParams Sample.parsePrivateKeyParams
           Sample.cipher Sample.crypto_mode Sample.cfb Cases.cfb_encrypt
           Digest.sha1 Sample.produceKey Sample.s2k_write
           Cases.getRandomBytes Cases.crypto_validateParams 224
           Sample.store Cases.dummy_store Sample.unlocked Cases.dummy
           ltac:(vm_compute; reflexivity)).
Defined.

Example dummy_key_written :
  (Sample.write_secret Cases.dummy_store Cases.dummy).2
  = Ok (Sample.rsa_key_bytes ++ [xfe; x09; x03; x08; x00])
  ∧ arrays Cases.dummy_store !! 1%nat = Some (replicate 4 x00).
Proof. vm_compute. split; reflexivity. Qed.
